(** * KnowMe-Bench LLM-as-a-Judge evaluator: a shallow embedding of
      [evaluate/run_eval.py] and the properties of its report.

    The script loads grading templates from a Markdown file, renders one
    prompt per input item, asks a remote judge for a JSON verdict, and
    writes a report with summary statistics.  The embedding keeps the
    Python data as it is at run time:

    - text is a sequence of Unicode code points ([pystr]), so that
      [str.strip], [str.replace] and the two regular expressions of the
      script see the characters Python sees;
    - JSON values and Python's [dict]s are an inductive type over [gmap];
    - [int] is [Z], [float] is IEEE binary64 ([spec_float] with
      [prec = 53], [emax = 1024]), [int / int] is the correctly rounded
      quotient and raises [OverflowError] out of range;
    - the remote judge, the console and the output file are an explicit
      world threaded through a state-and-exception monad.

    What is taken as given: the input file holds a JSON array of objects
    (it is passed to [main] as parsed); [print] and [json.dump] succeed;
    [repr] of floats, lists and dictionaries is a parameter; the judge is
    any function of the calls made so far and the present request.

    Layout: the Python library ([Text], [Exc], [Num], [Json], [Eff]), the
    script ([Script]), the vocabulary of the specification ([Spec]), sample
    inputs ([Samples]); then the lemmas, the claims of the specification
    ([Claims]), more lemmas (the trace of the loop, the names of a prompt
    file, judges without state, braces in templates, the rounding of a
    quotient) and further properties of a run ([Further]). *)

From Stdlib Require Import ZArith List Bool Lia String Ascii.
From Stdlib Require Import DecimalString SpecFloat.
From stdpp Require Import base option list gmap.

#[local] Open Scope Z_scope.

(* ===================================================================== *)
(** * Python text                                                         *)
(* ===================================================================== *)

Module Text.

(** A Python [str]: its code points, in order. *)
Abbreviation pystr := (list N).

(** A literal of the source (ASCII, or UTF-8 bytes read as Latin-1). *)
Fixpoint txt (s : string) : pystr :=
  match s with
  | EmptyString => []
  | String a s' => N_of_ascii a :: txt s'
  end.

Definition NL : N := 10%N.          (* "\n" *)
Definition COMMA : N := 44%N.       (* ","  *)
Definition IDEO_COMMA : N := 12289%N. (* U+3001, the ideographic comma *)

(** [str.isspace] for one character, which is also what [\s] matches in a
    [str] pattern: the Unicode white-space table of CPython. *)
Definition is_space (c : N) : bool :=
  ((9 <=? c) && (c <=? 13) || (28 <=? c) && (c <=? 32)
   || (c =? 133) || (c =? 160) || (c =? 5760)
   || (8192 <=? c) && (c <=? 8202)
   || (c =? 8232) || (c =? 8233) || (c =? 8239) || (c =? 8287)
   || (c =? 12288))%N.

(** [s.lstrip()], [s.rstrip()], [s.strip()]. *)
Fixpoint lstrip (s : pystr) : pystr :=
  match s with
  | c :: s' => if is_space c then lstrip s' else s
  | [] => []
  end.

Definition rstrip (s : pystr) : pystr := rev (lstrip (rev s)).

Definition strip (s : pystr) : pystr := rstrip (lstrip s).

(** [s.startswith(p)]. *)
Fixpoint startswith (p s : pystr) : bool :=
  match p, s with
  | [], _ => true
  | a :: p', b :: s' => (a =? b)%N && startswith p' s'
  | _ :: _, [] => false
  end.

(** [p in s] for two strings. *)
Fixpoint contains (p s : pystr) : bool :=
  startswith p s ||
  match s with
  | [] => false
  | _ :: s' => contains p s'
  end.

(** [s.replace(old, new)] for a non-empty [old]: the occurrences of [old]
    are found from left to right and do not overlap.  [skip] counts the
    characters of the current occurrence that are still to be dropped. *)
Fixpoint replace_from (skip : nat) (old new s : pystr) : pystr :=
  match s with
  | [] => []
  | c :: s' =>
      match skip with
      | S k => replace_from k old new s'
      | O =>
          if startswith old s
          then new ++ replace_from (pred (length old)) old new s'
          else c :: replace_from O old new s'
      end
  end.

Definition replace (s old new : pystr) : pystr := replace_from O old new s.

(** [re.split(r'[、,]', s)]: cut at every comma of either kind. *)
Definition is_comma (c : N) : bool := ((c =? COMMA) || (c =? IDEO_COMMA))%N.

Fixpoint split_commas_from (cur : pystr) (s : pystr) : list pystr :=
  match s with
  | [] => [rev cur]
  | c :: s' =>
      if is_comma c then rev cur :: split_commas_from [] s'
      else split_commas_from (c :: cur) s'
  end.

Definition split_commas (s : pystr) : list pystr := split_commas_from [] s.

(** One attempt of the pattern [^# type\s+(.+)$] at the start of a line.
    [\s+] is greedy and gives characters back one at a time; [(.+)] then
    needs one character that is not a newline and runs to the end of its
    line, where [$] holds.  [try_ws after k] tries [\s+] with [k] characters,
    then [k - 1], down to one. *)
Definition HEADER : pystr := txt "# type".

Definition not_newline (c : N) : bool := negb (c =? NL)%N.

Fixpoint span_len (p : N -> bool) (s : pystr) : nat :=
  match s with
  | c :: s' => if p c then S (span_len p s') else O
  | [] => O
  end.

Fixpoint take_while (p : N -> bool) (s : pystr) : pystr :=
  match s with
  | c :: s' => if p c then c :: take_while p s' else []
  | [] => []
  end.

Fixpoint try_ws (after : pystr) (k : nat) : option (pystr * nat) :=
  match k with
  | O => None
  | S k' =>
      match drop k after with
      | c :: _ =>
          if not_newline c
          then Some (take_while not_newline (drop k after), k)
          else try_ws after k'
      | [] => try_ws after k'
      end
  end.

(** The captured group and the length of the whole match. *)
Definition match_header (s : pystr) : option (pystr * nat) :=
  if startswith HEADER s then
    let after := drop (length HEADER) s in
    match try_ws after (span_len is_space after) with
    | Some (g, k) => Some (g, (length HEADER + k + length g)%nat)
    | None => None
    end
  else None.

(** [re.split(r'^# type\s+(.+)$', s, flags=re.MULTILINE)]: the text before
    the first header, then for each header its captured group and the text
    up to the next header.  [bol] says that the position is the start of a
    line, [cur] holds (reversed) the text since the last header, [skip] the
    characters of the current header still to be consumed. *)
Fixpoint re_split_from (skip : nat) (bol : bool) (cur : pystr) (s : pystr)
  : list pystr :=
  match s with
  | [] => [rev cur]
  | c :: s' =>
      match skip with
      | S k => re_split_from k false cur s'
      | O =>
          match (if bol then match_header s else None) with
          | Some (g, n) => rev cur :: g :: re_split_from (pred n) false [] s'
          | None => re_split_from O (c =? NL)%N (c :: cur) s'
          end
      end
  end.

Definition re_split_headers (s : pystr) : list pystr :=
  re_split_from O true [] s.

(** Decimal text of an integer, as [str(n)] prints it. *)
Definition str_of_Z (z : Z) : pystr :=
  txt (NilZero.string_of_int (Z.to_int z)).

(** The code points U+D800 to U+DFFF.  In a [str] each of them is a lone
    surrogate, which the UTF-8 codec refuses to encode. *)
Definition is_surrogate (c : N) : bool := ((55296 <=? c) && (c <=? 57343))%N.

End Text.

(* ===================================================================== *)
(** * Exceptions                                                          *)
(* ===================================================================== *)

Module Exc.
Import Text.

(** The exceptions the script can meet outside the judge call, each with
    the text [str(e)] gives; [UnicodeEncodeError] with its [reason] only
    ([str(e)] also names the codec, the character and its position). *)
Inductive exn :=
  | OverflowError (msg : pystr)
  | ZeroDivisionError (msg : pystr)
  | TypeError (msg : pystr)
  | IndexError (msg : pystr)
  | AttributeError (msg : pystr)
  | KeyError (msg : pystr)
  | FileNotFoundError (msg : pystr)
  | OSError (msg : pystr)
  | UnicodeEncodeError (reason : pystr).

Definition exn_msg (e : exn) : pystr :=
  match e with
  | OverflowError m | ZeroDivisionError m | TypeError m | IndexError m
  | AttributeError m | KeyError m | FileNotFoundError m | OSError m
  | UnicodeEncodeError m => m
  end.

End Exc.

(* ===================================================================== *)
(** * Python numbers: [int] as [Z], [float] as IEEE binary64              *)
(* ===================================================================== *)

Module Num.
Import Text Exc.

Definition prec : Z := 53.
Definition emax : Z := 1024.

(** Half-way between the largest binary64 number and [2^1024]: a real
    number of this magnitude or more rounds out of range. *)
Definition OVERFLOW_BOUND : Z := 2 ^ 1024 - 2 ^ 970.

Definition Zsign_bit (z : Z) : bool := z <? 0.

(** Correctly rounded (to nearest, ties to even) quotient of two positive
    integers, with the sign given apart. *)
Definition round_quotient (s : bool) (a b : Z) : spec_float :=
  let '(q, e, l) := SFdiv_core_binary prec emax a 0 b 0 in
  binary_round_aux prec emax s q e l.

(** [float(z)]. *)
Definition float_of_int (z : Z) : exn + spec_float :=
  if OVERFLOW_BOUND <=? Z.abs z
  then inl (OverflowError (txt "int too large to convert to float"))
  else inr (binary_normalize prec emax z 0 false).

(** [a / b] for two [int]s: the true quotient, correctly rounded. *)
Definition int_truediv (a b : Z) : exn + spec_float :=
  if b =? 0 then inl (ZeroDivisionError (txt "division by zero"))
  else if OVERFLOW_BOUND * Z.abs b <=? Z.abs a
  then inl (OverflowError (txt "integer division result too large for a float"))
  else if a =? 0 then inr (S754_zero (Zsign_bit b))
  else inr (round_quotient (xorb (Zsign_bit a) (Zsign_bit b)) (Z.abs a) (Z.abs b)).

Definition is_zero (f : spec_float) : bool :=
  match f with S754_zero _ => true | _ => false end.

(** [x / b] for a [float] and an [int]. *)
Definition float_truediv (x : spec_float) (b : Z) : exn + spec_float :=
  match float_of_int b with
  | inl e => inl e
  | inr y =>
      if is_zero y then inl (ZeroDivisionError (txt "float division by zero"))
      else inr (SFdiv prec emax x y)
  end.

Definition float_add (x y : spec_float) : spec_float := SFadd prec emax x y.

(** The integer nearest to [n / d] (for [d > 0]), ties to the even one. *)
Definition round_half_even_div (n d : Z) : Z :=
  let q := n / d in
  let r := n mod d in
  match 2 * r ?= d with
  | Lt => q
  | Gt => q + 1
  | Eq => if Z.even q then q else q + 1
  end.

(** The magnitude of a finite float as an exact fraction. *)
Definition magnitude (m : positive) (e : Z) : Z * Z :=
  match e with
  | Zneg p => (Zpos m, 2 ^ Zpos p)
  | _ => (Zpos m * 2 ^ e, 1)
  end.

(** The magnitude of [x] in units of [10^-ndigits], rounded to an integer
    (the digits that CPython's correctly rounded [dtoa] produces). *)
Definition scaled_digits (ndigits : Z) (m : positive) (e : Z) : Z :=
  let '(num, den) := magnitude m e in
  round_half_even_div (num * 10 ^ ndigits) den.

(** [round(x, ndigits)] for a [float] and [ndigits >= 0] small: the decimal
    nearest to the exact value of [x], converted back to the nearest
    float.  Zeros, infinities and NaN round to themselves. *)
Definition float_round (x : spec_float) (ndigits : Z) : spec_float :=
  match x with
  | S754_finite s m e =>
      let k := scaled_digits ndigits m e in
      if k =? 0 then S754_zero s
      else round_quotient s k (10 ^ ndigits)
  | _ => x
  end.

(** [n] written with at least [w] decimal digits. *)
Definition zero_pad (w : nat) (s : pystr) : pystr :=
  repeat 48%N (w - length s) ++ s.

Definition fixed_digits (s : bool) (k : Z) (ndigits : nat) : pystr :=
  let p := 10 ^ Z.of_nat ndigits in
  (if s then txt "-" else []) ++ str_of_Z (k / p) ++ txt "."
  ++ zero_pad ndigits (str_of_Z (k mod p)).

(** [format(x, '.2f')] and the like, for a [float]. *)
Definition float_format_f (x : spec_float) (ndigits : nat) : pystr :=
  match x with
  | S754_nan => txt "nan"
  | S754_infinity s => (if s then txt "-" else []) ++ txt "inf"
  | S754_zero s => fixed_digits s 0 ndigits
  | S754_finite s m e =>
      fixed_digits s (scaled_digits (Z.of_nat ndigits) m e) ndigits
  end.

End Num.

(* ===================================================================== *)
(** * JSON values and Python dictionaries                                 *)
(* ===================================================================== *)

Module Json.
Import Text Exc Num.

(** What [json.load] returns, which is also what the script stores in its
    verdicts and in its report.  [JNull] is Python's [None]. *)
#[warnings="-register-all"] Inductive json :=
  | JNull
  | JBool (b : bool)
  | JInt (z : Z)
  | JFloat (x : spec_float)
  | JStr (s : pystr)
  | JList (l : list json)
  | JObj (m : gmap pystr json).

Abbreviation dict := (gmap pystr json).

(** [d.get(k)] and [d.get(k, dflt)]. *)
Definition get (d : dict) (k : pystr) : json := default JNull (d !! k).
Definition get_or (d : dict) (k : pystr) (dflt : json) : json :=
  default dflt (d !! k).

(** [type(v).__name__]. *)
Definition type_name (v : json) : pystr :=
  match v with
  | JNull => txt "NoneType"
  | JBool _ => txt "bool"
  | JInt _ => txt "int"
  | JFloat _ => txt "float"
  | JStr _ => txt "str"
  | JList _ => txt "list"
  | JObj _ => txt "dict"
  end.

(** [isinstance(v, (int, float))]; [bool] is a subclass of [int]. *)
Definition isinstance_int_float (v : json) : bool :=
  match v with
  | JInt _ | JFloat _ | JBool _ => true
  | _ => false
  end.

(** [v == s] for a string literal [s]. *)
Definition eq_str (v : json) (s : pystr) : bool :=
  match v with
  | JStr s' => bool_decide (s' = s)
  | _ => false
  end.

(** Some string of [v], a key of a dictionary included, holds a lone
    surrogate.  [json.loads] accepts the escape of one ("\ud800"), and a
    command line argument that is not valid UTF-8 is decoded to some. *)
Fixpoint has_lone_surrogate (v : json) : bool :=
  match v with
  | JStr s => existsb is_surrogate s
  | JList l => existsb has_lone_surrogate l
  | JObj m =>
      map_fold
        (λ k x acc, existsb is_surrogate k || has_lone_surrogate x || acc)
        false m
  | _ => false
  end.

(** [k in d] for a dictionary whose keys are all strings: lists and
    dictionaries cannot be hashed, and nothing but an equal string equals a
    string key. *)
Definition dict_contains {A} (d : gmap pystr A) (k : json) : exn + bool :=
  match k with
  | JStr s => inr (bool_decide (is_Some (d !! s)))
  | JList _ | JObj _ =>
      inl (TypeError (txt "unhashable type: '" ++ type_name k ++ txt "'"))
  | _ => inr false
  end.

(** [d[k]] for such a dictionary. *)
Definition dict_getitem {A} (d : gmap pystr A) (k : json) : exn + A :=
  match k with
  | JStr s =>
      match d !! s with
      | Some a => inr a
      | None => inl (KeyError s)
      end
  | JList _ | JObj _ =>
      inl (TypeError (txt "unhashable type: '" ++ type_name k ++ txt "'"))
  | _ => inl (KeyError (type_name k))
  end.

(** [x + y] on the numbers a score can be ([True] is [1]). *)
Definition as_int (v : json) : option Z :=
  match v with
  | JInt z => Some z
  | JBool b => Some (if b then 1 else 0)
  | _ => None
  end.

Definition py_add (x y : json) : exn + json :=
  match as_int x, as_int y, x, y with
  | Some a, Some b, _, _ => inr (JInt (a + b))
  | Some a, None, _, JFloat g =>
      match float_of_int a with
      | inl e => inl e
      | inr f => inr (JFloat (float_add f g))
      end
  | None, Some b, JFloat f, _ =>
      match float_of_int b with
      | inl e => inl e
      | inr g => inr (JFloat (float_add f g))
      end
  | None, None, JFloat f, JFloat g => inr (JFloat (float_add f g))
  | _, _, _, _ =>
      inl (TypeError (txt "unsupported operand type(s) for +: '"
                      ++ type_name x ++ txt "' and '" ++ type_name y ++ txt "'"))
  end.

(** [sum(l)]: starts from the [int] [0] and adds from left to right.
    Sums of [int]s (and booleans) are exact in every version of Python.
    Floats are added one rounding at a time, as CPython does up to 3.11;
    from 3.12 on [sum] keeps a compensation term for floats, so the last
    bits of a sum of floats depend on the interpreter.  What is proved
    about the value of an average below is proved for integer scores. *)
Fixpoint sum_from (acc : json) (l : list json) : exn + json :=
  match l with
  | [] => inr acc
  | x :: l' =>
      match py_add acc x with
      | inl e => inl e
      | inr acc' => sum_from acc' l'
      end
  end.

Definition py_sum (l : list json) : exn + json := sum_from (JInt 0) l.

(** [x / n] for a number [x] and an [int] [n]. *)
Definition py_truediv (x : json) (n : Z) : exn + json :=
  match as_int x, x with
  | Some a, _ =>
      match int_truediv a n with inl e => inl e | inr f => inr (JFloat f) end
  | None, JFloat f =>
      match float_truediv f n with inl e => inl e | inr g => inr (JFloat g) end
  | _, _ =>
      inl (TypeError (txt "unsupported operand type(s) for /: '"
                      ++ type_name x ++ txt "' and 'int'"))
  end.

(** [round(x, ndigits)]: an [int] stays the [int] it is (for
    [ndigits >= 0]), a [float] is rounded. *)
Definition py_round (x : json) (ndigits : Z) : exn + json :=
  match x with
  | JInt z => inr (JInt z)
  | JBool b => inr (JInt (if b then 1 else 0))
  | JFloat f => inr (JFloat (float_round f ndigits))
  | _ =>
      inl (TypeError (txt "type " ++ type_name x
                      ++ txt " doesn't define __round__ method"))
  end.

(** [format(x, '.2f')]: an [int] is converted to [float] first. *)
Definition py_format_f (x : json) (ndigits : nat) : exn + pystr :=
  match as_int x, x with
  | Some a, _ =>
      match float_of_int a with
      | inl e => inl e
      | inr f => inr (float_format_f f ndigits)
      end
  | None, JFloat f => inr (float_format_f f ndigits)
  | _, _ =>
      inl (TypeError (txt "unsupported format string passed to "
                      ++ type_name x ++ txt ".__format__"))
  end.

End Json.

(* ===================================================================== *)
(** * The world of a run: judge calls, console, output file               *)
(* ===================================================================== *)

Module Eff.
Import Text Exc Json.

(** One [client.chat.completions.create] call: the model and the two
    messages (temperature and response format are constants). *)
Record request := Request {
  req_model : pystr;
  req_system : pystr;
  req_user : pystr
}.

(** What a [json.dump] has left in the file it wrote to: the whole text of
    the value, or, when the encoder raised on the way, only a beginning of
    that text. *)
Inductive file_text :=
  | Whole (v : json)
  | Torn (v : json).

Record world := World {
  calls : list request;            (* judge calls issued so far, oldest first *)
  console : list pystr;            (* one entry per [print] *)
  written : list (pystr * file_text)   (* files opened for writing, oldest first *)
}.

Definition initial_world : world := World [] [] [].

(** A computation either returns or raises, and changes the world. *)
Definition M (A : Type) : Type := world -> (exn + A) * world.

#[global] Instance M_ret : MRet M := λ A a w, (inr a, w).

#[global] Instance M_bind : MBind M := λ A B k m w,
  match m w with
  | (inr a, w') => k a w'
  | (inl e, w') => (inl e, w')
  end.

Definition raise {A} (e : exn) : M A := λ w, (inl e, w).

Definition lift {A} (r : exn + A) : M A := λ w, (r, w).

(** [try: m  except Exception as e: ...] hands the exception over as a value. *)
Definition attempt {A} (m : M A) : M (exn + A) := λ w,
  let '(r, w') := m w in (inr r, w').

(** The world after one more printed line, judge call, written file. *)
Definition printed (w : world) (line : pystr) : world :=
  World (calls w) (console w ++ [line]) (written w).

Definition called (w : world) (req : request) : world :=
  World (calls w ++ [req]) (console w) (written w).

Definition dumped (w : world) (path : pystr) (v : json) : world :=
  World (calls w) (console w) (written w ++ [(path, Whole v)]).

Definition torn (w : world) (path : pystr) (v : json) : world :=
  World (calls w) (console w) (written w ++ [(path, Torn v)]).

Definition print (line : pystr) : M unit := λ w, (inr tt, printed w line).

Definition SURROGATES : pystr := txt "surrogates not allowed".

(** [with open(path, 'w', encoding='utf-8') as f:
       json.dump(v, f, indent=2, ensure_ascii=False)].
    The file is created (or emptied) first.  The text of [v] then goes to
    it piece by piece, strings as they are; the UTF-8 encoder of the file
    raises [UnicodeEncodeError] at the first piece with a lone surrogate,
    and the file is closed with what was written before. *)
Definition json_dump (path : pystr) (v : json) : M unit := λ w,
  if has_lone_surrogate v
  then (inl (UnicodeEncodeError SURROGATES), torn w path v)
  else (inr tt, dumped w path v).

End Eff.

(* ===================================================================== *)
(** * The script                                                          *)
(* ===================================================================== *)

Module Script.
Import Text Exc Num Json Eff.

Definition DEFAULT_JUDGE_MODEL : pystr := txt "gpt-4o".
Definition PROMPT_FILE : pystr := txt "evaluate prompt.md".

Definition SYSTEM_MESSAGE : pystr :=
  txt "You are an impartial judge evaluating AI model outputs based on strict criteria.".

Definition PH_QUESTION : pystr := txt "{{question}}".
Definition PH_REFERENCE : pystr := txt "{{reference_answer}}".
Definition PH_MODEL : pystr := txt "{{model_answer}}".

Definition K_ID : pystr := txt "id".
Definition K_TASK_TYPE : pystr := txt "task_type".
Definition K_QUESTION : pystr := txt "question".
Definition K_REFERENCE : pystr := txt "reference_answer".
Definition K_MODEL : pystr := txt "model_answer".
Definition K_SCORE : pystr := txt "score".
Definition K_REASONING : pystr := txt "reasoning".
Definition K_STATUS : pystr := txt "status".
Definition K_ERROR : pystr := txt "error".
Definition K_META : pystr := txt "meta".
Definition K_DETAILS : pystr := txt "details".
Definition K_JUDGE_MODEL : pystr := txt "judge_model".
Definition K_TOTAL : pystr := txt "total_items".
Definition K_EVALUATED : pystr := txt "evaluated_items".
Definition K_AVERAGE : pystr := txt "average_score".

Definition SUCCESS : pystr := txt "success".
Definition ERROR : pystr := txt "error".
Definition SKIPPED : pystr := txt "skipped".

(** What the command line gives ([--judge_model] and [--output_file] have
    defaults, which [parse_args] fills in). *)
Record args := Args {
  input_file : pystr;
  output_file : pystr;
  judge_model : pystr
}.

(** What [open(PROMPT_FILE)] finds. *)
Inductive file_state :=
  | Missing
  | Unreadable (msg : pystr)
  | Readable (content : pystr).

(** ** [parse_prompt_file] *)

(** The loop [for i in range(1, len(sections), 2)] over [sections[1:]]:
    [sections[i]] holds the names, [sections[i+1]] the template. *)
Fixpoint fill_prompts (prompts : gmap pystr pystr) (secs : list pystr)
  : exn + gmap pystr pystr :=
  match secs with
  | [] => inr prompts
  | [_] => inl (IndexError (txt "list index out of range"))
  | raw :: body :: rest =>
      let task_types_raw := strip raw in
      let prompt_content := strip body in
      let task_types := map strip (split_commas task_types_raw) in
      fill_prompts
        (foldl (λ p t, <[t := prompt_content]> p) prompts task_types) rest
  end.

Definition parse_prompt_text (content : pystr) : exn + gmap pystr pystr :=
  fill_prompts ∅ (tail (re_split_headers content)).

Definition loaded_line (prompts : gmap pystr pystr) (file_path : pystr)
  : pystr :=
  [9989%N] ++ txt " Successfully loaded "
  ++ str_of_Z (Z.of_nat (size prompts))
  ++ txt " prompt templates from " ++ file_path.

Definition parse_prompt_file (file : file_state) (file_path : pystr)
  : M (gmap pystr pystr) :=
  match file with
  | Missing =>
      raise (FileNotFoundError (txt "Prompt file not found: " ++ file_path))
  | Unreadable msg => raise (OSError msg)
  | Readable content =>
      prompts ← lift (parse_prompt_text content);
      print (loaded_line prompts file_path);;
      mret prompts
  end.

Section WithEnvironment.

(** [str(v)] for the values whose text depends on [repr]: floats, lists
    and dictionaries. *)
Variable repr_other : json -> pystr.

(** The remote judge together with [json.loads] of its answer: given the
    calls made so far and the present request, either the text of the
    exception one of the two raises, or the parsed answer. *)
Variable judge : list request -> request -> pystr + json.

Definition py_str (v : json) : pystr :=
  match v with
  | JStr s => s
  | JNull => txt "None"
  | JBool true => txt "True"
  | JBool false => txt "False"
  | JInt z => str_of_Z z
  | _ => repr_other v
  end.

(** Lines 85-96: the call and the parsing of its answer. *)
Definition call_judge (req : request) : M (pystr + json) := λ w,
  (inr (judge (calls w) req), called w req).

(** ** [evaluate_single_item] *)

Definition render (item : dict) (prompt_template : pystr) : pystr :=
  let user_question := get_or item K_QUESTION (JStr []) in
  let ref_answer := get_or item K_REFERENCE (JStr []) in
  let model_ans := get_or item K_MODEL (JStr []) in
  replace
    (replace
       (replace prompt_template PH_QUESTION (py_str user_question))
       PH_REFERENCE (py_str ref_answer))
    PH_MODEL (py_str model_ans).

Definition success_verdict (item result_json : dict) : dict :=
  {[ K_ID := get item K_ID;
     K_TASK_TYPE := get item K_TASK_TYPE;
     K_SCORE := get result_json K_SCORE;
     K_REASONING := get result_json K_REASONING;
     K_STATUS := JStr SUCCESS ]}.

Definition error_verdict (item : dict) (e : pystr) : dict :=
  {[ K_ID := get item K_ID;
     K_TASK_TYPE := get item K_TASK_TYPE;
     K_SCORE := JInt 0;
     K_REASONING := JStr (txt "Evaluation Error: " ++ e);
     K_STATUS := JStr ERROR ]}.

Definition error_line (item : dict) (e : pystr) : pystr :=
  [10060%N] ++ txt " Error processing Item ID "
  ++ py_str (get item K_ID) ++ txt ": " ++ e.

(** The [except Exception as e] branch. *)
Definition on_exception (item : dict) (e : pystr) : M dict :=
  print (error_line item e);;
  mret (error_verdict item e).

(** Lines 95-104, after the answer is parsed: the verdict, or the text of
    the exception ([.get] exists on a dictionary only). *)
Definition read_answer (item : dict) (answer : pystr + json) : pystr + dict :=
  match answer with
  | inl e => inl e
  | inr (JObj result_json) => inr (success_verdict item result_json)
  | inr v =>
      inl (txt "'" ++ type_name v ++ txt "' object has no attribute 'get'")
  end.

Definition request_for (item : dict) (prompt_template model : pystr)
  : request :=
  let final_prompt := render item prompt_template in
  Request model SYSTEM_MESSAGE final_prompt.

Definition evaluate_single_item (item : dict) (prompt_template model : pystr)
  : M dict :=
  answer ← call_judge (request_for item prompt_template model);
  match read_answer item answer with
  | inr verdict => mret verdict
  | inl e => on_exception item e
  end.

(** ** [main] *)

Definition skipped_verdict (item : dict) : dict :=
  {[ K_ID := get item K_ID;
     K_ERROR := JStr (txt "Task type not found in prompt file");
     K_STATUS := JStr SKIPPED ]}.

Definition warning_line (item : dict) : pystr :=
  [9888%N; 65039%N] ++ txt "  Warning: No prompt found for task type '"
  ++ py_str (get item K_TASK_TYPE) ++ txt "' (ID: " ++ py_str (get item K_ID)
  ++ txt ")".

(** The body of the evaluation loop, for one item. *)
Definition process_item (prompts_map : gmap pystr pystr) (model : pystr)
    (item : dict) : M dict :=
  let task_type := get item K_TASK_TYPE in
  found ← lift (dict_contains prompts_map task_type);
  if negb found then
    print (warning_line item);;
    mret (skipped_verdict item)
  else
    template ← lift (dict_getitem prompts_map task_type);
    evaluate_single_item item template model.

Fixpoint main_loop (prompts_map : gmap pystr pystr) (model : pystr)
    (results : list dict) (data : list dict) : M (list dict) :=
  match data with
  | [] => mret results
  | item :: rest =>
      v ← process_item prompts_map model item;
      main_loop prompts_map model (results ++ [v]) rest
  end.

(** Line 158.  [r['score']] is [r.get('score')] here: a score that passes
    the test is present. *)
Definition is_valid (r : dict) : bool :=
  eq_str (get r K_STATUS) SUCCESS && isinstance_int_float (get r K_SCORE).

Definition valid_scores_of (results : list dict) : list json :=
  map (λ r, get r K_SCORE) (filter (λ r, is_valid r = true) results).

(** Line 159. *)
Definition avg_score_of (valid_scores : list json) : exn + json :=
  match valid_scores with
  | [] => inr (JInt 0)
  | _ :: _ =>
      match py_sum valid_scores with
      | inl e => inl e
      | inr total => py_truediv total (Z.of_nat (length valid_scores))
      end
  end.

Definition output_data_of (model : pystr) (data results : list dict)
    (valid_scores : list json) (rounded : json) : json :=
  JObj {[ K_META :=
            JObj {[ K_JUDGE_MODEL := JStr model;
                    K_TOTAL := JInt (Z.of_nat (length data));
                    K_EVALUATED := JInt (Z.of_nat (length valid_scores));
                    K_AVERAGE := rounded ]};
          K_DETAILS := JList (JObj <$> results) ]}.

Definition load_error_line (e : exn) : pystr :=
  txt "Error loading prompts: " ++ exn_msg e.

Definition starting_line (a : args) (data : list dict) : pystr :=
  [128640%N] ++ txt " Starting evaluation for "
  ++ str_of_Z (Z.of_nat (length data)) ++ txt " items using "
  ++ judge_model a ++ txt "...".

Definition COMPLETE_LINE : pystr := [NL; 9989%N] ++ txt " Evaluation complete!".

Definition summary_line (shown : pystr) : pystr :=
  [128202%N] ++ txt " Average Score: " ++ shown ++ txt " / 5.0".

Definition saved_line (a : args) : pystr :=
  [128196%N] ++ txt " Full detailed results saved to: " ++ output_file a.

(** [main], with the prompt file and the parsed input file as found by
    [open] and [json.load]. *)
Definition main (a : args) (prompt_file : file_state) (data : list dict)
  : M unit :=
  loaded ← attempt (parse_prompt_file prompt_file PROMPT_FILE);
  match loaded with
  | inl e => print (load_error_line e)
  | inr prompts_map =>
      print (starting_line a data);;
      results ← main_loop prompts_map (judge_model a) [] data;
      let valid_scores := valid_scores_of results in
      avg_score ← lift (avg_score_of valid_scores);
      rounded ← lift (py_round avg_score 4);
      json_dump (output_file a)
        (output_data_of (judge_model a) data results valid_scores rounded);;
      print COMPLETE_LINE;;
      shown ← lift (py_format_f avg_score 2);
      print (summary_line shown);;
      print (saved_line a)
  end.

End WithEnvironment.

End Script.

(* ===================================================================== *)
(** * The vocabulary of the specification                                 *)
(* ===================================================================== *)

Module Spec.
Import Text Exc Num Json Eff Script.

(** ** Verdicts *)

Definition has_status (v : dict) (s : pystr) : Prop := get v K_STATUS = JStr s.

#[global] Instance has_status_dec v s : Decision (has_status v s).
Proof.
  unfold has_status. destruct (get v K_STATUS) as [| | | |s'| |];
    try (right; discriminate).
  destruct (decide (s' = s)) as [->|Hne]; [left; reflexivity|].
  right. intros [= E]. exact (Hne E).
Defined.

(** Exactly one of the three terminal states. *)
Definition terminal (v : dict) : Prop :=
  has_status v SUCCESS ∨ has_status v ERROR ∨ has_status v SKIPPED.

(** A numeric score, in the words of the specification: a number. *)
Definition numeric (v : json) : Prop :=
  match v with
  | JInt _ | JFloat _ => True
  | _ => False
  end.

#[global] Instance numeric_dec v : Decision (numeric v).
Proof. destruct v; simpl; apply _. Defined.

(** A truth value, [true] or [false]. *)
Definition boolean (v : json) : Prop :=
  match v with
  | JBool _ => True
  | _ => False
  end.

#[global] Instance boolean_dec v : Decision (boolean v).
Proof. destruct v; simpl; apply _. Defined.

(** The verdicts that enter the average by the words of the
    specification: status "success" and a numeric score. *)
Definition counted_as_claimed (r : dict) : Prop :=
  has_status r SUCCESS ∧ numeric (get r K_SCORE).

#[global] Instance counted_as_claimed_dec r : Decision (counted_as_claimed r).
Proof. unfold counted_as_claimed. apply _. Defined.

(** The verdicts that enter the average in the script: status "success"
    and a score that is a number or a truth value. *)
Definition counted (r : dict) : Prop :=
  has_status r SUCCESS ∧ (numeric (get r K_SCORE) ∨ boolean (get r K_SCORE)).

#[global] Instance counted_dec r : Decision (counted r).
Proof. unfold counted. apply _. Defined.

(** The value of a score that is a whole number; a truth value counts as
    1 when true and as 0 when false. *)
Definition whole_score (v : json) : option Z :=
  match v with
  | JInt z => Some z
  | JBool true => Some 1
  | JBool false => Some 0
  | _ => None
  end.

Definition whole (v : json) : Prop := is_Some (whole_score v).

(** The exact sum of scores that are whole numbers. *)
Fixpoint exact_total (scores : list json) : Z :=
  match scores with
  | [] => 0
  | v :: rest => default 0 (whole_score v) + exact_total rest
  end.

(** The exact sum of integer scores ([True] counts [1]). *)
Definition int_total (scores : list json) : Z :=
  foldr (λ v acc, default 0 (as_int v) + acc) 0 scores.

(** A score that adds as an integer. *)
Definition int_like (v : json) : Prop := is_Some (as_int v).

(** ** Template resolution *)

(** Lists and dictionaries cannot be looked up in a [dict]. *)
Definition hashable (v : json) : Prop :=
  match v with
  | JList _ | JObj _ => False
  | _ => True
  end.

(** The template of a task type, by exact string match. *)
Definition template_for (prompts : gmap pystr pystr) (task_type : json)
  : option pystr :=
  match task_type with
  | JStr s => prompts !! s
  | _ => None
  end.

Definition resolved (prompts : gmap pystr pystr) (item : dict) : Prop :=
  is_Some (template_for prompts (get item K_TASK_TYPE)).

(** The verdict an item can end with: skipped when its task type has no
    template, else what the judge call gave. *)
Inductive verdict_for (prompts : gmap pystr pystr) (item : dict) : dict → Prop :=
  | verdict_skipped :
      template_for prompts (get item K_TASK_TYPE) = None →
      verdict_for prompts item (skipped_verdict item)
  | verdict_error (template e : pystr) :
      template_for prompts (get item K_TASK_TYPE) = Some template →
      verdict_for prompts item (error_verdict item e)
  | verdict_success (template : pystr) (result_json : dict) :
      template_for prompts (get item K_TASK_TYPE) = Some template →
      verdict_for prompts item (success_verdict item result_json).

(** ** The report *)

(** The value written to [path], if the run wrote exactly once more, and
    the whole of it. *)
Definition wrote (w w' : world) (path : pystr) (v : json) : Prop :=
  written w' = written w ++ [(path, Whole v)].

Definition field (v : json) (k : pystr) : option json :=
  match v with
  | JObj m => m !! k
  | _ => None
  end.

Definition meta_field (report : json) (k : pystr) : option json :=
  match field report K_META with
  | Some meta => field meta k
  | None => None
  end.



(** The average as the report stores it and as the console shows it. *)
Definition rounded_avg (avg : json) : json :=
  match avg with
  | JFloat f => JFloat (float_round f 4)
  | _ => avg
  end.

Definition shown_avg (avg : json) : pystr :=
  match py_format_f avg 2 with
  | inr shown => shown
  | inl _ => []
  end.

Definition report_of (a : args) (data results : list dict) (avg : json)
  : json :=
  output_data_of (judge_model a) data results (valid_scores_of results)
    (rounded_avg avg).

(** ** Prompt files *)

(** The blocks of a prompt file, in order: the names of a header (cut at
    the commas and stripped) and the stripped text that follows it. *)
Fixpoint blocks_of (secs : list pystr) : list (list pystr * pystr) :=
  match secs with
  | raw :: body :: rest =>
      (map strip (split_commas (strip raw)), strip body) :: blocks_of rest
  | _ => []
  end.

Definition header_blocks (content : pystr) : list (list pystr * pystr) :=
  blocks_of (tail (re_split_headers content)).

(** A prompt file written block by block: a header line with the names,
    then the lines of the template. *)
Definition header_line (names : pystr) : pystr :=
  HEADER ++ [32%N] ++ names ++ [NL].

Definition body_text (lines : list pystr) : pystr :=
  concat (map (λ l, l ++ [NL]) lines).

Definition prompt_file_of (blocks : list (pystr * list pystr)) : pystr :=
  concat (map (λ b, header_line b.1 ++ body_text b.2) blocks).

(** The names of a header stand on one line and start with a character
    that is not white space; a line of a template is no header. *)
Definition plain_names (names : pystr) : Prop :=
  (NL ∉ names) ∧ (∃ c rest, names = c :: rest ∧ is_space c = false).

Definition plain_line (l : pystr) : Prop :=
  (NL ∉ l) ∧ startswith HEADER l = false.

Definition plain_blocks (blocks : list (pystr * list pystr)) : Prop :=
  Forall (λ b, plain_names b.1 ∧ Forall plain_line b.2) blocks.

(** What [re.split] gives for such a file, with [cur] the text before it. *)
Fixpoint sections_of (cur : pystr) (blocks : list (pystr * list pystr))
  : list pystr :=
  match blocks with
  | [] => [cur]
  | b :: rest => cur :: b.1 :: sections_of (NL :: body_text b.2) rest
  end.

(** The mapping a list of blocks stands for: every name of a block maps to
    the block's template, later blocks overwrite earlier ones. *)
Definition insert_block (p : gmap pystr pystr) (b : list pystr * pystr)
  : gmap pystr pystr :=
  foldl (λ p t, <[t := b.2]> p) p b.1.

Definition prompts_of_blocks (blocks : list (list pystr * pystr))
  : gmap pystr pystr :=
  foldl insert_block ∅ blocks.

(** The template of the last block that names [t]. *)
Fixpoint last_body (t : pystr) (blocks : list (list pystr * pystr))
  : option pystr :=
  match blocks with
  | [] => None
  | (names, body) :: rest =>
      match last_body t rest with
      | Some b => Some b
      | None => if bool_decide (t ∈ names) then Some body else None
      end
  end.

(** ** The worlds of a run *)

(** The world when the loop starts. *)
Definition started (a : args) (content : pystr) (data : list dict) (w : world)
  : world :=
  printed
    (printed w
       (loaded_line (prompts_of_blocks (header_blocks content)) PROMPT_FILE))
    (starting_line a data).

(** The world when [main] returns after a loop that ended in [w1]. *)
Definition finished (a : args) (data results : list dict) (avg : json)
    (w1 : world) : world :=
  printed
    (printed
       (printed
          (dumped w1 (output_file a) (report_of a data results avg))
          COMPLETE_LINE)
       (summary_line (shown_avg avg)))
    (saved_line a).

(** The end of a run whose loop ended in [w1] with the verdicts [results]
    and whose average is [avg]: [json.dump] writes the report and the three
    closing lines follow, or it raises on a lone surrogate in the report
    and leaves the file torn. *)
Definition saving (a : args) (data results : list dict) (avg : json)
    (w1 : world) : (exn + ()) * world :=
  if has_lone_surrogate (report_of a data results avg)
  then (inl (UnicodeEncodeError SURROGATES),
        torn w1 (output_file a) (report_of a data results avg))
  else (inr tt, finished a data results avg w1).

(** ** Templates *)

Inductive slot := Question | Reference | Answer.

Definition token (k : slot) : pystr :=
  match k with
  | Question => PH_QUESTION
  | Reference => PH_REFERENCE
  | Answer => PH_MODEL
  end.

Definition slot_key (k : slot) : pystr :=
  match k with
  | Question => K_QUESTION
  | Reference => K_REFERENCE
  | Answer => K_MODEL
  end.

(** The text an item puts in a slot: [str] of the field, or the empty
    string when the item has no such field. *)
Definition slot_text (repr_other : json → pystr) (item : dict) (k : slot)
  : pystr :=
  py_str repr_other (get_or item (slot_key k) (JStr [])).

(** A template seen as literal text between placeholder tokens. *)
Inductive segment :=
  | Lit (s : pystr)
  | Slot (k : slot).

Definition segment_text (g : segment) : pystr :=
  match g with
  | Lit s => s
  | Slot k => token k
  end.

Definition template_of (segs : list segment) : pystr :=
  concat (map segment_text segs).

(** The template with every slot filled by its text. *)
Definition fill (texts : slot -> pystr) (segs : list segment) : pystr :=
  concat (map (λ g, match g with Lit s => s | Slot k => texts k end) segs).

Definition slot_eqb (a b : slot) : bool :=
  match a, b with
  | Question, Question | Reference, Reference | Answer, Answer => true
  | _, _ => false
  end.

(** One pass: the slots [k] become the literal text [new]. *)
Definition fill_slot (k : slot) (new : pystr) (g : segment) : segment :=
  match g with
  | Slot k' => if slot_eqb k k' then Lit new else Slot k'
  | Lit s => Lit s
  end.

Definition uses (k : slot) (segs : list segment) : Prop := Slot k ∈ segs.

Definition LBRACE : N := 123%N.

(** No opening brace in [s]. *)
Definition brace_free (s : pystr) : Prop := LBRACE ∉ s.

Definition literal_brace_free (g : segment) : Prop :=
  match g with
  | Lit s => brace_free s
  | Slot _ => True
  end.

(** ** The trace of the loop *)

(** The judge request an item gives rise to, if its task type has a
    template. *)
Definition request_of (repr_other : json → pystr)
    (prompts : gmap pystr pystr) (model : pystr) (item : dict)
  : option request :=
  match template_for prompts (get item K_TASK_TYPE) with
  | Some template => Some (request_for repr_other item template model)
  | None => None
  end.

(** What the loop prints for an item, read off its verdict: the warning
    for a skipped item, the error line (with the text that follows
    "Evaluation Error: " in the reasoning) for a failed one, nothing for a
    success. *)
Definition loop_line (repr_other : json → pystr) (item v : dict)
  : list pystr :=
  if eq_str (get v K_STATUS) SKIPPED then [warning_line repr_other item]
  else if eq_str (get v K_STATUS) ERROR then
    match get v K_REASONING with
    | JStr r =>
        [error_line repr_other item
           (drop (length (txt "Evaluation Error: ")) r)]
    | _ => []
    end
  else [].

(** The number of verdicts of a given status. *)
Definition status_count (s : pystr) (results : list dict) : nat :=
  length (filter (λ v, has_status v s) results).

(** The keys of a verdict of a judged item, and of a skipped one. *)
Definition JUDGED_KEYS : gset pystr :=
  {[ K_ID; K_TASK_TYPE; K_SCORE; K_REASONING; K_STATUS ]}.

Definition SKIPPED_KEYS : gset pystr := {[ K_ID; K_ERROR; K_STATUS ]}.

(** ** Names *)

(** A name as the parser stores it: stripped, on one line, and with no
    comma of either kind. *)
Definition clean_name (t : pystr) : Prop :=
  strip t = t ∧ (NL ∉ t) ∧ Forall (λ c, is_comma c = false) t.

(** The names the headers list, in the order of the file. *)
Definition listed_names (blocks : list (list pystr * pystr)) : list pystr :=
  concat (map fst blocks).

(** The captured groups among the sections of [re.split]. *)
Fixpoint header_groups (secs : list pystr) : list pystr :=
  match secs with
  | raw :: _ :: rest => raw :: header_groups rest
  | _ => []
  end.

(** A non-empty run of white space. *)
Definition blank (ws : pystr) : Prop :=
  ws ≠ [] ∧ Forall (λ c, is_space c = true) ws.

(** ** Judges that keep no state *)

(** The answer of the judge depends on the request only. *)
Definition stateless (judge : list request → request → pystr + json)
    (oracle : request → pystr + json) : Prop :=
  ∀ history req, judge history req = oracle req.

(** The verdict of an item under such a judge. *)
Definition verdict_of (repr_other : json → pystr)
    (oracle : request → pystr + json) (prompts : gmap pystr pystr)
    (model : pystr) (item : dict) : dict :=
  match template_for prompts (get item K_TASK_TYPE) with
  | None => skipped_verdict item
  | Some template =>
      match
        read_answer item (oracle (request_for repr_other item template model))
      with
      | inr v => v
      | inl e => error_verdict item e
      end
  end.

(** A reply that is a JSON object. *)
Definition is_object (v : json) : Prop :=
  match v with
  | JObj _ => True
  | _ => False
  end.

(** ** Single braces *)

(** No two opening braces in a row in [s], and none at its end: no
    placeholder token starts in [s], whatever follows it. *)
Fixpoint single_braces (s : pystr) : bool :=
  match s with
  | [] => true
  | a :: s' =>
      match s' with
      | [] => negb (a =? LBRACE)%N
      | b :: _ =>
          negb ((a =? LBRACE) && (b =? LBRACE))%N && single_braces s'
      end
  end.

Definition literal_single_braces (g : segment) : Prop :=
  match g with
  | Lit s => single_braces s = true
  | Slot _ => True
  end.

(** ** The value of a float *)

(** The value of [f] lies between the integers [lo] and [hi]. *)
Definition float_between (lo hi : Z) (f : spec_float) : Prop :=
  match f with
  | S754_zero _ => lo <= 0 <= hi
  | S754_finite s m e =>
      (lo * (magnitude m e).2 <= (if s then - (magnitude m e).1
                                  else (magnitude m e).1)
       <= hi * (magnitude m e).2)
  | _ => False
  end.



End Spec.

(* ===================================================================== *)
(** * Sample inputs                                                       *)
(* ===================================================================== *)

Module Samples.
Import Text Exc Num Json Eff Script Spec.

(** A stand-in for [repr] of floats, lists and dictionaries. *)
Definition repr_plain : json → pystr := λ _, txt "<value>".

(** A judge that always answers [{"score": 4, "reasoning": "ok"}]. *)
Definition reply_ok : dict :=
  {[ K_SCORE := JInt 4; K_REASONING := JStr (txt "ok") ]}.

Definition judge_ok : list request → request → pystr + json :=
  λ _ _, inr (JObj reply_ok).

(** A judge that cannot be reached. *)
Definition judge_down : list request → request → pystr + json :=
  λ _ _, inl (txt "Connection error.").


(** A judge whose score is an integer beyond the range of [float]. *)
Definition judge_huge : list request → request → pystr + json :=
  λ _ _, inr (JObj {[ K_SCORE := JInt (10 ^ 400);
                      K_REASONING := JStr (txt "ok") ]}).

Definition prompt_text : pystr :=
  txt "# type A
Rate {{question}} against {{reference_answer}}: {{model_answer}}
".

Definition prompts_A : gmap pystr pystr :=
  {[ txt "A" :=
       txt "Rate {{question}} against {{reference_answer}}: {{model_answer}}" ]}.

Definition item_A : dict :=
  {[ K_ID := JInt 1; K_TASK_TYPE := JStr (txt "A");
     K_QUESTION := JStr (txt "What?"); K_REFERENCE := JStr (txt "Right");
     K_MODEL := JStr (txt "Guess") ]}.

Definition item_Z : dict :=
  {[ K_ID := JInt 2; K_TASK_TYPE := JStr (txt "Z");
     K_QUESTION := JStr (txt "Why?"); K_REFERENCE := JStr (txt "So");
     K_MODEL := JStr (txt "Because") ]}.


(** A task type that is a list. *)
Definition item_list : dict :=
  {[ K_ID := JInt 5; K_TASK_TYPE := JList [JStr (txt "A")] ]}.

(** An answer that spells a placeholder. *)
Definition item_tricky : dict :=
  {[ K_ID := JInt 4; K_TASK_TYPE := JStr (txt "A");
     K_QUESTION := JStr (txt "What?"); K_REFERENCE := JStr (txt "Right");
     K_MODEL := JStr (txt "{{question}}") ]}.

Definition run_args : args :=
  Args (txt "outputs.json") (txt "evaluation_results.json") DEFAULT_JUDGE_MODEL.

(** The floats 4.0, 4/3 and 1.3333. *)
Definition float_4 : spec_float := S754_finite false 4503599627370496 (-50).
Definition float_4_3 : spec_float := S754_finite false 6004799503160661 (-52).
Definition float_1_3333 : spec_float :=
  S754_finite false 6004649383173082 (-52).

(** Two headers; the second repeats a name of the first. *)
Definition repeated_text : pystr :=
  txt "# type A, B
X
# type A
Y
".

(** One header with three names, cut at a comma of each kind. *)
Definition aliased_text : pystr :=
  txt "# type A" ++ [IDEO_COMMA] ++ txt "B, C
Shared template
".

(** The scenario of the specification: an item of a known task type that
    the judge scores 4, and an item of an unknown task type. *)
Definition scenario_run : (exn + ()) * world :=
  main repr_plain judge_ok run_args (Readable prompt_text) [item_A; item_Z]
    initial_world.



(** One item scored beyond the range of [float]. *)
Definition huge_run : (exn + ()) * world :=
  main repr_plain judge_huge run_args (Readable prompt_text) [item_A]
    initial_world.

(** A file of two blocks, the first with two names. *)
Definition blocks_AB : list (pystr * list pystr) :=
  [(txt "A, B", [txt "Rate {{question}}."; txt "Be strict."]);
   (txt "C", [txt "Compare {{model_answer}}."])].

Definition segments_A : list segment :=
  [Lit (txt "Rate "); Slot Question; Lit (txt " against "); Slot Reference;
   Lit (txt ": "); Slot Answer].

(** The judge [judge_ok] as a function of the request. *)
Definition oracle_ok : request → pystr + json := λ _, inr (JObj reply_ok).

(** A title and an empty line, as they often stand before the first
    header. *)
Definition title_lines : list pystr := [txt "Grading prompts"; []].

(** A template that shows the judge the JSON to answer with. *)
Definition segments_json : list segment :=
  [Lit (txt "Answer as {score: n}. Question: "); Slot Question;
   Lit (txt " Answer: "); Slot Answer].

(** A question that holds braces of its own. *)
Definition item_braces : dict :=
  {[ K_ID := JInt 6; K_TASK_TYPE := JStr (txt "A");
     K_QUESTION := JStr (txt "What is {x} in f{x}?");
     K_MODEL := JStr (txt "Guess") ]}.

(** The loop of the run whose only score is beyond the range of [float]. *)
Definition huge_loop : (exn + list dict) * world :=
  main_loop repr_plain judge_huge
    (prompts_of_blocks (header_blocks prompt_text)) (judge_model run_args) []
    [item_A] (started run_args prompt_text [item_A] initial_world).

(** The task type of [item_A] with a space after it. *)
Definition item_spaced : dict :=
  {[ K_ID := JInt 7; K_TASK_TYPE := JStr (txt "A ");
     K_QUESTION := JStr (txt "What?"); K_REFERENCE := JStr (txt "Right");
     K_MODEL := JStr (txt "Guess") ]}.

(** A header whose names stand on the next line. *)
Definition names_below_text : pystr :=
  txt "# type
A, B
Shared template
".




End Samples.

(* ===================================================================== *)
(** * Facts about text                                                   *)
(* ===================================================================== *)

Module TextFacts.
Import Text.

Lemma startswith_app (p s : pystr) : startswith p (p ++ s) = true.
Proof.
  induction p as [|a p IH]; simpl; [done|].
  by rewrite N.eqb_refl, IH.
Qed.

Lemma startswith_head_ne (c a : N) (p s : pystr) :
  a ≠ c → startswith (c :: p) (a :: s) = false.
Proof.
  intros Hne. simpl.
  destruct (N.eqb_spec c a) as [->|_]; [done|reflexivity].
Qed.

Lemma replace_from_skip (t old new s : pystr) :
  replace_from (length t) old new (t ++ s) = replace_from O old new s.
Proof. induction t as [|a t IH]; simpl; [reflexivity|exact IH]. Qed.

Lemma replace_from_occurrence (old new s : pystr) :
  old ≠ [] →
  replace_from O old new (old ++ s) = new ++ replace_from O old new s.
Proof.
  destruct old as [|c old']; [done|intros _].
  change ((c :: old') ++ s) with (c :: (old' ++ s)).
  cbn [replace_from].
  change (c :: old' ++ s) with ((c :: old') ++ s).
  rewrite startswith_app. cbn [length pred].
  by rewrite replace_from_skip.
Qed.

Lemma replace_from_clean (c : N) (old' new s1 s2 : pystr) :
  c ∉ s1 →
  replace_from O (c :: old') new (s1 ++ s2)
  = s1 ++ replace_from O (c :: old') new s2.
Proof.
  induction s1 as [|a s1 IH]; intros Hc; [reflexivity|].
  apply not_elem_of_cons in Hc as [Hne Hc].
  change ((a :: s1) ++ s2) with (a :: (s1 ++ s2)).
  cbn [replace_from]. rewrite startswith_head_ne by congruence.
  cbn [app]. f_equal. by apply IH.
Qed.

Lemma replace_clean (c : N) (old' new s : pystr) :
  c ∉ s → replace s (c :: old') new = s.
Proof.
  intros Hc. unfold replace.
  rewrite <- (app_nil_r s) at 1.
  rewrite replace_from_clean by done. simpl. apply app_nil_r.
Qed.

Lemma contains_clean (c : N) (p s : pystr) :
  c ∉ s → contains (c :: p) s = false.
Proof.
  induction s as [|a s IH]; intros Hc; [reflexivity|].
  apply not_elem_of_cons in Hc as [Hne Hc].
  cbn [contains]. rewrite startswith_head_ne by congruence.
  simpl. by apply IH.
Qed.

Lemma contains_app_r (p a s : pystr) :
  contains p s = true → contains p (a ++ s) = true.
Proof.
  intros H. induction a as [|x a IH]; [done|].
  change ((x :: a) ++ s) with (x :: (a ++ s)). cbn [contains].
  rewrite IH. apply orb_true_r.
Qed.

Lemma contains_here (p s : pystr) : contains p (p ++ s) = true.
Proof.
  destruct (p ++ s) eqn:E; cbn [contains]; rewrite <- E, startswith_app; done.
Qed.

Lemma contains_middle (p a b : pystr) : contains p (a ++ p ++ b) = true.
Proof. apply contains_app_r, contains_here. Qed.

End TextFacts.

(* ===================================================================== *)
(** * Templates as segments                                              *)
(* ===================================================================== *)

Module TemplateFacts.
Import Text Json Script Spec TextFacts.

Lemma token_head (k : slot) : ∃ rest, token k = LBRACE :: rest.
Proof. destruct k; eexists; reflexivity. Qed.

Lemma token_nonempty (k : slot) : token k ≠ [].
Proof. by destruct k. Qed.

(** A pass for one token steps over the other tokens. *)
Lemma replace_from_other_token (k k' : slot) (new s : pystr) :
  slot_eqb k k' = false →
  replace_from O (token k) new (token k' ++ s)
  = token k' ++ replace_from O (token k) new s.
Proof.
  destruct k, k'; intros H; try discriminate H; reflexivity.
Qed.

Lemma slot_eqb_eq (k k' : slot) : slot_eqb k k' = true → k = k'.
Proof. by destruct k, k'. Qed.

Lemma replace_from_template (k : slot) (new : pystr) (segs : list segment) :
  Forall literal_brace_free segs →
  replace_from O (token k) new (template_of segs)
  = template_of (map (fill_slot k new) segs).
Proof.
  induction 1 as [|g segs Hg _ IH]; [reflexivity|].
  unfold template_of in *. cbn [map concat].
  destruct g as [s|k']; cbn [segment_text fill_slot].
  - destruct (token_head k) as [rest E]. rewrite E in *.
    rewrite replace_from_clean by exact Hg. by rewrite IH.
  - destruct (slot_eqb k k') eqn:E.
    + apply slot_eqb_eq in E as <-.
      rewrite replace_from_occurrence by apply token_nonempty.
      cbn [segment_text]. by rewrite IH.
    + rewrite replace_from_other_token by done.
      cbn [segment_text]. by rewrite IH.
Qed.

Lemma fill_slot_brace_free (k : slot) (new : pystr) (segs : list segment) :
  brace_free new →
  Forall literal_brace_free segs →
  Forall literal_brace_free (map (fill_slot k new) segs).
Proof.
  intros Hn. induction 1 as [|g segs Hg _ IH]; constructor; [|done].
  destruct g as [s|k']; simpl; [done|]. by destruct (slot_eqb k k').
Qed.

Lemma fill_slots_all (texts : slot → pystr) (segs : list segment) :
  template_of
    (map (fill_slot Answer (texts Answer))
       (map (fill_slot Reference (texts Reference))
          (map (fill_slot Question (texts Question)) segs)))
  = fill texts segs.
Proof.
  unfold template_of, fill. rewrite !map_map. f_equal.
  apply map_ext. by intros [s|[]].
Qed.

Lemma fill_brace_free (texts : slot → pystr) (segs : list segment) :
  (∀ k, brace_free (texts k)) →
  Forall literal_brace_free segs →
  brace_free (fill texts segs).
Proof.
  intros Ht. unfold fill, brace_free.
  induction 1 as [|g segs Hg _ IH]; cbn [map concat]; [apply not_elem_of_nil|].
  rewrite elem_of_app. intros [H|H]; [|done].
  destruct g as [s|k]; [exact (Hg H)|exact (Ht k H)].
Qed.

Lemma fill_contains (texts : slot → pystr) (k : slot) (segs : list segment) :
  uses k segs → contains (texts k) (fill texts segs) = true.
Proof.
  unfold uses. intros [a [b ->]]%list_elem_of_split.
  unfold fill. rewrite map_app, concat_app. cbn [map concat].
  apply contains_middle.
Qed.

End TemplateFacts.

(* ===================================================================== *)
(** * Runs of the script                                                 *)
(* ===================================================================== *)

Module ScriptFacts.
Import Text Exc Num Json Eff Script Spec.

Section Runs.
Variable repr_other : json -> pystr.
Variable judge : list request -> request -> pystr + json.

#[local] Abbreviation py_str := (py_str repr_other).
#[local] Abbreviation render := (render repr_other).
#[local] Abbreviation request_for := (request_for repr_other).
#[local] Abbreviation error_line := (error_line repr_other).
#[local] Abbreviation warning_line := (warning_line repr_other).
#[local] Abbreviation evaluate_single_item := (evaluate_single_item repr_other judge).
#[local] Abbreviation process_item := (process_item repr_other judge).
#[local] Abbreviation main_loop := (main_loop repr_other judge).
#[local] Abbreviation main := (main repr_other judge).

Lemma evaluate_single_item_run (item : dict) (template model : pystr) (w : world) :
  evaluate_single_item item template model w =
  let req := request_for item template model in
  match read_answer item (judge (calls w) req) with
  | inr verdict => (inr verdict, called w req)
  | inl e =>
      (inr (error_verdict item e),
       printed (called w req) (error_line item e))
  end.
Proof.
  unfold Script.evaluate_single_item, mbind, M_bind, call_judge. cbn zeta.
  destruct (read_answer item _); reflexivity.
Qed.

Lemma process_item_unhashable prompts model item w :
  ¬ hashable (get item K_TASK_TYPE) →
  ∃ e, process_item prompts model item w = (inl (TypeError e), w).
Proof.
  intros H. unfold Script.process_item, mbind, M_bind, lift.
  destruct (get item K_TASK_TYPE); simpl in H; try (exfalso; by apply H);
    eexists; reflexivity.
Qed.

Lemma process_item_unresolved prompts model item w :
  hashable (get item K_TASK_TYPE) →
  template_for prompts (get item K_TASK_TYPE) = None →
  process_item prompts model item w
  = (inr (skipped_verdict item), printed w (warning_line item)).
Proof.
  intros Hh Ht. unfold Script.process_item, mbind, M_bind, lift.
  destruct (get item K_TASK_TYPE) eqn:E; simpl in Hh, Ht; try done;
    cbn [dict_contains]; try reflexivity.
  rewrite Ht. reflexivity.
Qed.

Lemma process_item_resolved prompts model item template w :
  template_for prompts (get item K_TASK_TYPE) = Some template →
  process_item prompts model item w = evaluate_single_item item template model w.
Proof.
  intros Ht. unfold Script.process_item, mbind, M_bind, lift.
  destruct (get item K_TASK_TYPE) eqn:E; simpl in Ht; try done.
  cbn [dict_contains dict_getitem]. rewrite Ht. reflexivity.
Qed.

(** What one turn of the loop can do. *)
Lemma process_item_cases prompts model item w :
  (¬ hashable (get item K_TASK_TYPE)
   ∧ ∃ e, process_item prompts model item w = (inl (TypeError e), w))
  ∨ (hashable (get item K_TASK_TYPE)
     ∧ template_for prompts (get item K_TASK_TYPE) = None
     ∧ process_item prompts model item w
       = (inr (skipped_verdict item), printed w (warning_line item)))
  ∨ (∃ template,
       template_for prompts (get item K_TASK_TYPE) = Some template
       ∧ process_item prompts model item w
         = evaluate_single_item item template model w).
Proof.
  destruct (template_for prompts (get item K_TASK_TYPE)) as [t|] eqn:Ht.
  - right; right. exists t. split; [done|]. by apply process_item_resolved.
  - destruct (get item K_TASK_TYPE) eqn:E.
    all: try (right; left; split; [by rewrite ?E|split; [done|];
              apply process_item_unresolved; rewrite ?E; done]).
    all: left; split; [rewrite ?E; simpl; tauto|];
         apply process_item_unhashable; rewrite E; simpl; tauto.
Qed.

Lemma evaluate_single_item_returns item template model w :
  ∃ v w', evaluate_single_item item template model w = (inr v, w').
Proof.
  rewrite evaluate_single_item_run. cbn zeta.
  destruct (read_answer item _); eauto.
Qed.

Lemma process_item_verdict prompts model item w v w' :
  process_item prompts model item w = (inr v, w') →
  verdict_for prompts item v.
Proof.
  destruct (process_item_cases prompts model item w)
    as [[_ [e He]]|[(_ & Ht & He)|(t & Ht & He)]]; rewrite He.
  - discriminate.
  - intros [= <- _]. apply verdict_skipped, Ht.
  - rewrite evaluate_single_item_run. cbn zeta.
    destruct (read_answer item _) as [e|verdict] eqn:E; intros [= <- _].
    + eapply verdict_error, Ht.
    + unfold read_answer in E.
      destruct (judge _ _) as [?|[]]; try discriminate.
      injection E as <-. eapply verdict_success, Ht.
Qed.

(** ** The loop *)

Lemma main_loop_cons prompts model acc item rest w :
  main_loop prompts model acc (item :: rest) w =
  match process_item prompts model item w with
  | (inr v, w1) => main_loop prompts model (acc ++ [v]) rest w1
  | (inl e, w1) => (inl e, w1)
  end.
Proof. reflexivity. Qed.

Lemma main_loop_results prompts model data :
  ∀ acc w results w',
    main_loop prompts model acc data w = (inr results, w') →
    ∃ vs, results = acc ++ vs ∧ Forall2 (verdict_for prompts) data vs.
Proof.
  induction data as [|item rest IH]; intros acc w results w'.
  - intros [= <- _]. exists []. by rewrite app_nil_r.
  - rewrite main_loop_cons.
    destruct (process_item prompts model item w) as [[e|v] w1] eqn:E;
      [discriminate|].
    intros (vs & -> & Hvs)%IH.
    exists (v :: vs). split; [by rewrite <- app_assoc|].
    constructor; [|done]. by eapply process_item_verdict.
Qed.

Lemma main_loop_returns prompts model data :
  Forall (λ item, hashable (get item K_TASK_TYPE)) data →
  ∀ acc w, ∃ results w',
    main_loop prompts model acc data w = (inr results, w').
Proof.
  induction 1 as [|item rest Hh _ IH]; intros acc w; [by eexists _, _|].
  rewrite main_loop_cons.
  destruct (process_item_cases prompts model item w)
    as [[Hn _]|[(_ & _ & ->)|(t & _ & ->)]]; [done|apply IH|].
  destruct (evaluate_single_item_returns item t model w) as (v & w1 & ->).
  apply IH.
Qed.

(** Only an unhashable task type stops the loop. *)
Lemma main_loop_raises prompts model data :
  ∀ acc w e w',
    main_loop prompts model acc data w = (inl e, w') →
    Exists (λ item, ¬ hashable (get item K_TASK_TYPE)) data.
Proof.
  induction data as [|item rest IH]; intros acc w e w'; [discriminate|].
  rewrite main_loop_cons.
  destruct (process_item_cases prompts model item w)
    as [[Hn _]|[(_ & _ & ->)|(t & _ & ->)]].
  - intros _. by left.
  - intros H. right. by eapply IH.
  - destruct (evaluate_single_item_returns item t model w) as (v & w1 & ->).
    intros H. right. by eapply IH.
Qed.

(** The loop writes no file, and calls the judge once for each item whose
    task type has a template. *)
Lemma process_item_world prompts model item w v w' :
  process_item prompts model item w = (inr v, w') →
  written w' = written w
  ∧ ((resolved prompts item ∧ ∃ req, calls w' = calls w ++ [req])
     ∨ (¬ resolved prompts item ∧ calls w' = calls w)).
Proof.
  unfold resolved.
  destruct (process_item_cases prompts model item w)
    as [[_ [e ->]]|[(_ & Ht & ->)|(t & Ht & ->)]]; [discriminate| |].
  - intros [= <- <-]. split; [done|]. right. rewrite Ht.
    split; [by intros [? ?]|done].
  - rewrite evaluate_single_item_run. cbn zeta. rewrite Ht.
    destruct (read_answer item _); intros [= <- <-];
      (split; [done|left; split; [by eexists|by eexists]]).
Qed.

Lemma main_loop_world prompts model data :
  ∀ acc w results w',
    main_loop prompts model acc data w = (inr results, w') →
    written w' = written w
    ∧ length (calls w')
      = (length (calls w) + length (filter (resolved prompts) data))%nat.
Proof.
  induction data as [|item rest IH]; intros acc w results w'.
  - intros [= _ <-]. split; [done|]. simpl. lia.
  - rewrite main_loop_cons.
    destruct (process_item prompts model item w) as [[e|v] w1] eqn:E;
      [discriminate|].
    intros [Hw Hc]%IH. apply process_item_world in E as [Hw1 Hc1].
    split; [congruence|]. rewrite Hc, filter_cons.
    destruct Hc1 as [[Hr [req ->]]|[Hr ->]]; rewrite decide_bool_decide.
    + rewrite bool_decide_eq_true_2 by done. rewrite length_app. simpl. lia.
    + rewrite bool_decide_eq_false_2 by done. lia.
Qed.

End Runs.
End ScriptFacts.

(* ===================================================================== *)
(** * Prompt files                                                       *)
(* ===================================================================== *)

Module ParseFacts.
Import Text Exc Num Json Eff Script Spec.

Lemma re_split_from_odd (s : pystr) :
  ∀ skip bol cur, Nat.odd (length (re_split_from skip bol cur s)) = true.
Proof.
  induction s as [|c s IH]; intros skip bol cur; [reflexivity|].
  cbn [re_split_from]. destruct skip as [|k]; [|apply IH].
  destruct (if bol then match_header (c :: s) else None) as [[g n]|];
    [|apply IH].
  cbn [length]. rewrite Nat.odd_succ, Nat.even_succ. apply IH.
Qed.

Lemma re_split_headers_tail_even (content : pystr) :
  Nat.even (length (tail (re_split_headers content))) = true.
Proof.
  unfold re_split_headers.
  pose proof (re_split_from_odd content O true []) as H.
  destruct (re_split_from O true [] content) as [|x l]; [discriminate H|].
  cbn [tail]. cbn [length] in H. by rewrite Nat.odd_succ in H.
Qed.

(** The loop of [parse_prompt_file] never runs out of sections: it stores
    one block after the other. *)
Lemma fill_prompts_blocks (secs : list pystr) :
  ∀ p, Nat.even (length secs) = true →
       fill_prompts p secs = inr (foldl insert_block p (blocks_of secs)).
Proof.
  assert (∀ secs : list pystr,
    (∀ p, Nat.even (length secs) = true →
          fill_prompts p secs = inr (foldl insert_block p (blocks_of secs)))
    ∧ (∀ x p, Nat.even (length (x :: secs)) = true →
          fill_prompts p (x :: secs)
          = inr (foldl insert_block p (blocks_of (x :: secs))))) as H.
  { clear secs. induction secs as [|y secs [IH1 IH2]].
    - split; [reflexivity|]. intros x p H. discriminate H.
    - split; [apply IH2|]. intros x p H.
      cbn [fill_prompts blocks_of foldl]. apply IH1.
      cbn [length] in H. by rewrite Nat.even_succ, Nat.odd_succ in H. }
  apply H.
Qed.

Lemma parse_prompt_text_blocks (content : pystr) :
  parse_prompt_text content = inr (prompts_of_blocks (header_blocks content)).
Proof.
  unfold parse_prompt_text, prompts_of_blocks, header_blocks.
  apply fill_prompts_blocks, re_split_headers_tail_even.
Qed.

Lemma insert_names_lookup (body t : pystr) (names : list pystr) :
  ∀ p : gmap pystr pystr,
    foldl (λ p t, <[t := body]> p) p names !! t
    = if bool_decide (t ∈ names) then Some body else p !! t.
Proof.
  induction names as [|n names IH]; intros p; [reflexivity|].
  cbn [foldl]. rewrite IH.
  destruct (decide (t ∈ names)) as [Hin|Hnin].
  - rewrite !bool_decide_eq_true_2; [done|by right|done].
  - rewrite (bool_decide_eq_false_2 (t ∈ names)) by done.
    destruct (decide (t = n)) as [->|Hne].
    + rewrite bool_decide_eq_true_2 by left. apply lookup_insert_eq.
    + rewrite bool_decide_eq_false_2
        by (intros [?|?]%elem_of_cons; done).
      by apply lookup_insert_ne.
Qed.

Lemma prompts_of_blocks_lookup_from (t : pystr) blocks :
  ∀ p : gmap pystr pystr,
    foldl insert_block p blocks !! t
    = match last_body t blocks with Some b => Some b | None => p !! t end.
Proof.
  induction blocks as [|[names body] blocks IH]; intros p; [reflexivity|].
  cbn [foldl last_body]. rewrite IH.
  destruct (last_body t blocks); [done|].
  unfold insert_block. cbn [fst snd]. rewrite insert_names_lookup.
  by destruct (bool_decide (t ∈ names)).
Qed.

(** A name maps to the template of the last block that lists it. *)
Lemma prompts_of_blocks_lookup (t : pystr) blocks :
  prompts_of_blocks blocks !! t = last_body t blocks.
Proof.
  unfold prompts_of_blocks. rewrite prompts_of_blocks_lookup_from.
  destruct (last_body t blocks); [done|apply lookup_empty].
Qed.

Lemma last_body_app (t : pystr) (l1 l2 : list (list pystr * pystr)) :
  last_body t (l1 ++ l2)
  = match last_body t l2 with Some b => Some b | None => last_body t l1 end.
Proof.
  induction l1 as [|[names body] l1 IH]; cbn [app last_body].
  - by destruct (last_body t l2).
  - rewrite IH. by destruct (last_body t l2).
Qed.

Lemma last_body_none (t : pystr) (blocks : list (list pystr * pystr)) :
  Forall (λ b, t ∉ b.1) blocks → last_body t blocks = None.
Proof.
  induction 1 as [|[names body] blocks Hb _ IH]; [reflexivity|].
  cbn [last_body]. rewrite IH. simpl in Hb.
  by rewrite bool_decide_eq_false_2.
Qed.

Lemma last_body_is_Some (t : pystr) (blocks : list (list pystr * pystr)) :
  Exists (λ b, t ∈ b.1) blocks → is_Some (last_body t blocks).
Proof.
  induction 1 as [[names body] blocks Hb|[names body] blocks _ IH];
    cbn [last_body].
  - destruct (last_body t blocks); [by eexists|].
    simpl in Hb. rewrite bool_decide_eq_true_2 by done. by eexists.
  - destruct IH as [b ->]. by eexists.
Qed.

End ParseFacts.

(* ===================================================================== *)
(** * Statistics                                                         *)
(* ===================================================================== *)

Module StatFacts.
Import Text Exc Num Json Eff Script Spec.

Lemma eq_str_true (v : json) (s : pystr) : eq_str v s = true ↔ v = JStr s.
Proof.
  destruct v; simpl; try (split; [discriminate|intros [=]]).
  rewrite bool_decide_eq_true. split; [by intros ->|by intros [= ->]].
Qed.

Lemma isinstance_number_or_boolean (v : json) :
  isinstance_int_float v = true ↔ numeric v ∨ boolean v.
Proof. destruct v; simpl; split; (tauto || discriminate). Qed.

Lemma whole_score_as_int (v : json) : whole_score v = as_int v.
Proof. by destruct v as [|[]| | | | |]. Qed.

(** The test of line 158 selects the counted verdicts. *)
Lemma is_valid_counted (r : dict) : is_valid r = true ↔ counted r.
Proof.
  unfold is_valid, counted, has_status.
  rewrite andb_true_iff, eq_str_true, isinstance_number_or_boolean. done.
Qed.

Lemma valid_scores_of_counted (results : list dict) :
  valid_scores_of results = map (λ r, get r K_SCORE) (filter counted results).
Proof.
  unfold valid_scores_of. f_equal.
  induction results as [|r results IH]; [reflexivity|].
  rewrite !filter_cons, IH.
  destruct (decide (is_valid r = true)) as [H|H], (decide (counted r)) as [C|C];
    try reflexivity; exfalso.
  - by apply C, is_valid_counted.
  - by apply H, is_valid_counted.
Qed.

Lemma valid_scores_of_app (l1 l2 : list dict) :
  valid_scores_of (l1 ++ l2) = valid_scores_of l1 ++ valid_scores_of l2.
Proof. unfold valid_scores_of. by rewrite filter_app, map_app. Qed.

Lemma valid_scores_of_excluded (r : dict) (l : list dict) :
  ¬ counted r → valid_scores_of (r :: l) = valid_scores_of l.
Proof.
  intros H. rewrite !valid_scores_of_counted, filter_cons.
  by destruct (decide (counted r)).
Qed.

Lemma valid_scores_of_included (r : dict) (l : list dict) :
  counted r → valid_scores_of (r :: l) = get r K_SCORE :: valid_scores_of l.
Proof.
  intros H. rewrite !valid_scores_of_counted, filter_cons.
  by destruct (decide (counted r)).
Qed.

Lemma valid_scores_numeric (results : list dict) :
  Forall (λ v, numeric v ∨ boolean v) (valid_scores_of results).
Proof.
  rewrite valid_scores_of_counted.
  induction results as [|r results IH]; [constructor|].
  rewrite filter_cons. destruct (decide (counted r)) as [[_ H]|_]; [|done].
  by constructor.
Qed.

Lemma py_truediv_float (x : json) (n : Z) (v : json) :
  py_truediv x n = inr v → ∃ f, v = JFloat f.
Proof.
  unfold py_truediv.
  destruct (as_int x) as [a|].
  - destruct (int_truediv a n); intros [= <-]; eauto.
  - destruct x; try discriminate.
    destruct (float_truediv x n); intros [= <-]; eauto.
Qed.

(** The average is the [int] [0] of an empty selection, else a [float]. *)
Lemma avg_score_of_kind (scores : list json) (avg : json) :
  avg_score_of scores = inr avg →
  (scores = [] ∧ avg = JInt 0) ∨ (scores ≠ [] ∧ ∃ f, avg = JFloat f).
Proof.
  destruct scores as [|x l]; [intros [= <-]; by left|].
  cbn [avg_score_of]. intros H. right. split; [done|].
  destruct (py_sum (x :: l)); [discriminate|].
  by eapply py_truediv_float.
Qed.

(** ** Integer scores *)

Lemma sum_from_int (l : list json) :
  Forall int_like l →
  ∀ a, sum_from (JInt a) l = inr (JInt (a + int_total l)).
Proof.
  induction 1 as [|v l [z Hz] _ IH]; intros a; cbn [sum_from int_total foldr].
  - by rewrite Z.add_0_r.
  - unfold py_add. cbn [as_int]. rewrite Hz. cbn [default].
    rewrite IH. by rewrite Z.add_assoc.
Qed.

Lemma py_sum_int (l : list json) :
  Forall int_like l → py_sum l = inr (JInt (int_total l)).
Proof. intros H. unfold py_sum. by rewrite sum_from_int. Qed.

(** The average of integer scores: their exact sum over their number,
    divided once. *)
Lemma avg_score_of_int (x : json) (l : list json) :
  Forall int_like (x :: l) →
  avg_score_of (x :: l)
  = match int_truediv (int_total (x :: l)) (Z.of_nat (length (x :: l))) with
    | inl e => inl e
    | inr f => inr (JFloat f)
    end.
Proof. intros H. unfold avg_score_of. by rewrite py_sum_int. Qed.

Lemma OVERFLOW_BOUND_pos : 0 < OVERFLOW_BOUND.
Proof. reflexivity. Qed.

(** ** Rounding *)


Lemma py_round_avg (scores : list json) (avg : json) :
  avg_score_of scores = inr avg →
  py_round avg 4
  = inr (match avg with JFloat f => JFloat (float_round f 4) | _ => avg end).
Proof.
  intros [[_ ->]|[_ [f ->]]]%avg_score_of_kind; reflexivity.
Qed.

Lemma py_format_avg (scores : list json) (avg : json) :
  avg_score_of scores = inr avg →
  ∃ shown, py_format_f avg 2 = inr shown.
Proof.
  intros [[_ ->]|[_ [f ->]]]%avg_score_of_kind.
  - eexists. vm_compute. reflexivity.
  - eexists. reflexivity.
Qed.

End StatFacts.

(* ===================================================================== *)
(** * The whole run                                                      *)
(* ===================================================================== *)

Module MainFacts.
Import Text Exc Num Json Eff Script Spec ScriptFacts ParseFacts StatFacts.

Section Runs.
Variable repr_other : json -> pystr.
Variable judge : list request -> request -> pystr + json.

#[local] Abbreviation main_loop := (main_loop repr_other judge).
#[local] Abbreviation main := (main repr_other judge).

(** [main] on a readable prompt file, step by step. *)
Lemma main_run (a : args) (content : pystr) (data : list dict) (w : world) :
  main a (Readable content) data w =
  match main_loop (prompts_of_blocks (header_blocks content)) (judge_model a)
          [] data (started a content data w) with
  | (inl e, w1) => (inl e, w1)
  | (inr results, w1) =>
      match avg_score_of (valid_scores_of results) with
      | inl e => (inl e, w1)
      | inr avg => saving a data results avg w1
      end
  end.
Proof.
  unfold Script.main, parse_prompt_file, attempt, mbind, M_bind, lift, mret,
    M_ret, print, json_dump.
  rewrite parse_prompt_text_blocks. fold (started a content data w).
  destruct (main_loop _ _ _ _ _) as [[e|results] w1]; [reflexivity|].
  destruct (avg_score_of (valid_scores_of results)) as [e|avg] eqn:E;
    [reflexivity|].
  rewrite (py_round_avg _ _ E). unfold saving, finished, shown_avg.
  change (output_data_of (judge_model a) data results (valid_scores_of results)
            (match avg with
             | JFloat f => JFloat (float_round f 4)
             | _ => avg
             end))
    with (report_of a data results avg).
  destruct (has_lone_surrogate (report_of a data results avg)); [reflexivity|].
  destruct (py_format_avg _ _ E) as [shown ->]. reflexivity.
Qed.

Lemma saving_returns (a : args) (data results : list dict) (avg : json)
    (w1 : world) :
  has_lone_surrogate (report_of a data results avg) = false →
  saving a data results avg w1 = (inr tt, finished a data results avg w1).
Proof. unfold saving. by intros ->. Qed.

Lemma saving_raises (a : args) (data results : list dict) (avg : json)
    (w1 : world) :
  has_lone_surrogate (report_of a data results avg) = true →
  saving a data results avg w1
  = (inl (UnicodeEncodeError SURROGATES),
     torn w1 (output_file a) (report_of a data results avg)).
Proof. unfold saving. by intros ->. Qed.

Lemma saving_returns_inv (a : args) (data results : list dict) (avg : json)
    (w1 w' : world) :
  saving a data results avg w1 = (inr tt, w') →
  has_lone_surrogate (report_of a data results avg) = false
  ∧ w' = finished a data results avg w1.
Proof.
  unfold saving.
  destruct (has_lone_surrogate _); [discriminate|]. by intros [= <-].
Qed.

(** A run that returns wrote its report, after a loop that returned. *)
Lemma main_returns_inv (a : args) (content : pystr) (data : list dict)
    (w w' : world) :
  main a (Readable content) data w = (inr tt, w') →
  ∃ results avg w1,
    main_loop (prompts_of_blocks (header_blocks content)) (judge_model a)
      [] data (started a content data w) = (inr results, w1)
    ∧ avg_score_of (valid_scores_of results) = inr avg
    ∧ w' = finished a data results avg w1.
Proof.
  rewrite main_run.
  destruct (main_loop _ _ _ _ _) as [[e|results] w1]; [discriminate|].
  destruct (avg_score_of (valid_scores_of results)) as [e|avg] eqn:E;
    [discriminate|].
  intros [_ ->]%saving_returns_inv. by exists results, avg, w1.
Qed.

(** The report of a run that returns holds no lone surrogate. *)
Lemma main_returns_clean (a : args) (content : pystr) (data : list dict)
    (w w' : world) (results : list dict) (avg : json) (w1 : world) :
  main a (Readable content) data w = (inr tt, w') →
  main_loop (prompts_of_blocks (header_blocks content)) (judge_model a)
    [] data (started a content data w) = (inr results, w1) →
  avg_score_of (valid_scores_of results) = inr avg →
  has_lone_surrogate (report_of a data results avg) = false.
Proof.
  rewrite main_run. intros H Hloop Havg. rewrite Hloop, Havg in H.
  by apply saving_returns_inv in H as [? _].
Qed.

Lemma main_missing (a : args) (data : list dict) (w : world) :
  main a Missing data w
  = (inr tt,
     printed w
       (load_error_line
          (FileNotFoundError (txt "Prompt file not found: " ++ PROMPT_FILE)))).
Proof. reflexivity. Qed.

End Runs.
End MainFacts.

(* ===================================================================== *)
(** * The fields of a verdict                                            *)
(* ===================================================================== *)

Module VerdictFacts.
Import Text Exc Num Json Eff Script Spec.

Lemma error_verdict_fields (item : dict) (e : pystr) :
  error_verdict item e !! K_ID = Some (get item K_ID)
  ∧ error_verdict item e !! K_TASK_TYPE = Some (get item K_TASK_TYPE)
  ∧ error_verdict item e !! K_SCORE = Some (JInt 0)
  ∧ error_verdict item e !! K_REASONING
    = Some (JStr (txt "Evaluation Error: " ++ e))
  ∧ error_verdict item e !! K_STATUS = Some (JStr ERROR)
  ∧ error_verdict item e !! K_ERROR = None.
Proof. repeat split; vm_compute; reflexivity. Qed.

Lemma success_verdict_fields (item result_json : dict) :
  success_verdict item result_json !! K_ID = Some (get item K_ID)
  ∧ success_verdict item result_json !! K_TASK_TYPE
    = Some (get item K_TASK_TYPE)
  ∧ success_verdict item result_json !! K_SCORE
    = Some (get result_json K_SCORE)
  ∧ success_verdict item result_json !! K_REASONING
    = Some (get result_json K_REASONING)
  ∧ success_verdict item result_json !! K_STATUS = Some (JStr SUCCESS)
  ∧ success_verdict item result_json !! K_ERROR = None.
Proof. repeat split; vm_compute; reflexivity. Qed.

Lemma skipped_verdict_fields (item : dict) :
  skipped_verdict item !! K_ID = Some (get item K_ID)
  ∧ skipped_verdict item !! K_TASK_TYPE = None
  ∧ skipped_verdict item !! K_SCORE = None
  ∧ skipped_verdict item !! K_REASONING = None
  ∧ skipped_verdict item !! K_STATUS = Some (JStr SKIPPED)
  ∧ skipped_verdict item !! K_ERROR
    = Some (JStr (txt "Task type not found in prompt file")).
Proof. repeat split; vm_compute; reflexivity. Qed.

Lemma get_lookup (d : dict) (k : pystr) (v : json) :
  d !! k = Some v → get d k = v.
Proof. unfold get. by intros ->. Qed.

Lemma verdict_for_id prompts item v :
  verdict_for prompts item v → get v K_ID = get item K_ID.
Proof.
  intros [H|t e H|t r H]; apply get_lookup.
  - apply skipped_verdict_fields.
  - apply error_verdict_fields.
  - apply success_verdict_fields.
Qed.

Lemma verdict_for_terminal prompts item v :
  verdict_for prompts item v → terminal v.
Proof.
  unfold terminal, has_status.
  intros [H|t e H|t r H].
  - right; right. apply get_lookup, skipped_verdict_fields.
  - right; left. apply get_lookup, error_verdict_fields.
  - left. apply get_lookup, success_verdict_fields.
Qed.

Lemma status_distinct :
  SUCCESS ≠ ERROR ∧ SUCCESS ≠ SKIPPED ∧ ERROR ≠ SKIPPED.
Proof. repeat split; discriminate. Qed.

End VerdictFacts.

(* ===================================================================== *)
(** * Scores through the loop                                            *)
(* ===================================================================== *)

Module LoopFacts.
Import Text Exc Num Json Eff Script Spec.
Import ScriptFacts ParseFacts StatFacts MainFacts VerdictFacts.

Section Runs.
Variable repr_other : json -> pystr.
Variable judge : list request -> request -> pystr + json.

#[local] Abbreviation request_for := (request_for repr_other).
#[local] Abbreviation evaluate_single_item :=
  (evaluate_single_item repr_other judge).
#[local] Abbreviation process_item := (process_item repr_other judge).
#[local] Abbreviation main_loop := (main_loop repr_other judge).
#[local] Abbreviation main := (main repr_other judge).

Lemma not_counted_skipped (item : dict) : ¬ counted (skipped_verdict item).
Proof.
  intros [H _]. unfold has_status in H.
  destruct (skipped_verdict_fields item) as (_ & _ & _ & _ & Hst & _).
  rewrite (get_lookup _ _ _ Hst) in H. discriminate H.
Qed.

Lemma not_counted_error (item : dict) (e : pystr) :
  ¬ counted (error_verdict item e).
Proof.
  intros [H _]. unfold has_status in H.
  destruct (error_verdict_fields item e) as (_ & _ & _ & _ & Hst & _).
  rewrite (get_lookup _ _ _ Hst) in H. discriminate H.
Qed.

End Runs.
End LoopFacts.

(* ===================================================================== *)
(** * The report                                                         *)
(* ===================================================================== *)

Module ReportFacts.
Import Text Exc Num Json Eff Script Spec.
Import ScriptFacts ParseFacts StatFacts MainFacts VerdictFacts LoopFacts.

(** The two levels of the report, whatever the values stored. *)
Lemma report_literal (jm tot ev av det : json) :
  let meta : dict :=
    {[ K_JUDGE_MODEL := jm; K_TOTAL := tot; K_EVALUATED := ev;
       K_AVERAGE := av ]} in
  let top : dict := {[ K_META := JObj meta; K_DETAILS := det ]} in
  dom top = ({[ K_META; K_DETAILS ]} : gset pystr)
  ∧ top !! K_META = Some (JObj meta)
  ∧ top !! K_DETAILS = Some det
  ∧ dom meta
    = ({[ K_JUDGE_MODEL; K_TOTAL; K_EVALUATED; K_AVERAGE ]} : gset pystr)
  ∧ meta !! K_JUDGE_MODEL = Some jm
  ∧ meta !! K_TOTAL = Some tot
  ∧ meta !! K_EVALUATED = Some ev
  ∧ meta !! K_AVERAGE = Some av.
Proof. cbv zeta. repeat split; vm_compute; reflexivity. Qed.

Lemma report_of_fields (a : args) (data results : list dict) (avg : json) :
  field (report_of a data results avg) K_DETAILS
  = Some (JList (JObj <$> results))
  ∧ meta_field (report_of a data results avg) K_JUDGE_MODEL
    = Some (JStr (judge_model a))
  ∧ meta_field (report_of a data results avg) K_TOTAL
    = Some (JInt (Z.of_nat (length data)))
  ∧ meta_field (report_of a data results avg) K_EVALUATED
    = Some (JInt (Z.of_nat (length (valid_scores_of results))))
  ∧ meta_field (report_of a data results avg) K_AVERAGE
    = Some (rounded_avg avg).
Proof.
  unfold report_of, output_data_of, meta_field, field.
  destruct (report_literal (JStr (judge_model a))
              (JInt (Z.of_nat (length data)))
              (JInt (Z.of_nat (length (valid_scores_of results))))
              (rounded_avg avg) (JList (JObj <$> results)))
    as (_ & Hm & Hd & _ & H1 & H2 & H3 & H4).
  cbv zeta in Hm, Hd, H1, H2, H3, H4. rewrite Hm.
  repeat split; assumption.
Qed.

Lemma report_details (a : args) (data results : list dict) (avg : json) :
  field (report_of a data results avg) K_DETAILS
  = Some (JList (JObj <$> results)).
Proof. exact (proj1 (report_of_fields a data results avg)). Qed.

Lemma report_judge_model (a : args) (data results : list dict) (avg : json) :
  meta_field (report_of a data results avg) K_JUDGE_MODEL
  = Some (JStr (judge_model a)).
Proof. exact (proj1 (proj2 (report_of_fields a data results avg))). Qed.

Lemma report_total (a : args) (data results : list dict) (avg : json) :
  meta_field (report_of a data results avg) K_TOTAL
  = Some (JInt (Z.of_nat (length data))).
Proof.
  exact (proj1 (proj2 (proj2 (report_of_fields a data results avg)))).
Qed.

Lemma report_evaluated (a : args) (data results : list dict) (avg : json) :
  meta_field (report_of a data results avg) K_EVALUATED
  = Some (JInt (Z.of_nat (length (valid_scores_of results)))).
Proof.
  exact (proj1 (proj2 (proj2 (proj2 (report_of_fields a data results avg))))).
Qed.

Lemma report_average (a : args) (data results : list dict) (avg : json) :
  meta_field (report_of a data results avg) K_AVERAGE
  = Some (rounded_avg avg).
Proof.
  exact (proj2 (proj2 (proj2 (proj2 (report_of_fields a data results avg))))).
Qed.

Lemma finished_written (a : args) (data results : list dict) (avg : json)
    (w1 : world) :
  written (finished a data results avg w1)
  = written w1 ++ [(output_file a, Whole (report_of a data results avg))].
Proof. reflexivity. Qed.

Lemma finished_console (a : args) (data results : list dict) (avg : json)
    (w1 : world) :
  console (finished a data results avg w1)
  = console w1
    ++ [COMPLETE_LINE; summary_line (shown_avg avg); saved_line a].
Proof. unfold finished, printed, dumped. cbn [console]. by rewrite <- !app_assoc. Qed.

Lemma finished_calls (a : args) (data results : list dict) (avg : json)
    (w1 : world) :
  calls (finished a data results avg w1) = calls w1.
Proof. reflexivity. Qed.

Lemma started_written (a : args) (content : pystr) (data : list dict)
    (w : world) :
  written (started a content data w) = written w.
Proof. reflexivity. Qed.

Lemma started_calls (a : args) (content : pystr) (data : list dict)
    (w : world) :
  calls (started a content data w) = calls w.
Proof. reflexivity. Qed.

(** ** Lone surrogates in the report *)

Lemma has_lone_surrogate_obj (m : dict) :
  has_lone_surrogate (JObj m) = true
  ↔ ∃ k x, m !! k = Some x
           ∧ (existsb is_surrogate k = true ∨ has_lone_surrogate x = true).
Proof.
  cbn [has_lone_surrogate].
  induction m as [|k x m Hk Hfold IH] using map_first_key_ind.
  - rewrite map_fold_empty. split; [discriminate|].
    intros (k & x & H & _). by rewrite lookup_empty in H.
  - rewrite map_fold_insert_first_key by done.
    rewrite !orb_true_iff, IH. split.
    + intros [[H|H]|(k' & x' & Hl & H)].
      * exists k, x. rewrite lookup_insert_eq. auto.
      * exists k, x. rewrite lookup_insert_eq. auto.
      * exists k', x'. split; [|done].
        rewrite lookup_insert_ne; [done|]. intros ->. congruence.
    + intros (k' & x' & Hl & H).
      destruct (decide (k = k')) as [<-|Hne].
      * rewrite lookup_insert_eq in Hl. injection Hl as <-. left. tauto.
      * rewrite lookup_insert_ne in Hl by done. right. eauto.
Qed.

Lemma has_lone_surrogate_list (l : list json) :
  has_lone_surrogate (JList l) = true
  ↔ Exists (λ v, has_lone_surrogate v = true) l.
Proof.
  cbn [has_lone_surrogate].
  induction l as [|v l IH]; cbn [existsb].
  - split; [discriminate|]. intros H. inversion H.
  - rewrite orb_true_iff, IH, Exists_cons. reflexivity.
Qed.

(** A lone surrogate in the report stands in the name of the judge model,
    or in a verdict. *)
Lemma report_of_surrogate (a : args) (data results : list dict) (avg : json) :
  has_lone_surrogate (rounded_avg avg) = false →
  has_lone_surrogate (report_of a data results avg) = true
  ↔ existsb is_surrogate (judge_model a) = true
    ∨ Exists (λ v, has_lone_surrogate (JObj v) = true) results.
Proof.
  intros Havg. unfold report_of, output_data_of.
  destruct (report_literal (JStr (judge_model a))
              (JInt (Z.of_nat (length data)))
              (JInt (Z.of_nat (length (valid_scores_of results))))
              (rounded_avg avg) (JList (JObj <$> results)))
    as (Hdt & Hm & Hd & Hdm & H1 & H2 & H3 & H4).
  cbv zeta in Hdt, Hm, Hd, Hdm, H1, H2, H3, H4.
  set (meta := ({[ K_JUDGE_MODEL := JStr (judge_model a);
                   K_TOTAL := JInt (Z.of_nat (length data));
                   K_EVALUATED :=
                     JInt (Z.of_nat (length (valid_scores_of results)));
                   K_AVERAGE := rounded_avg avg ]} : dict)) in *.
  set (top := ({[ K_META := JObj meta;
                  K_DETAILS := JList (JObj <$> results) ]} : dict)) in *.
  assert (has_lone_surrogate (JObj meta) = true
          ↔ existsb is_surrogate (judge_model a) = true) as Hmeta.
  { rewrite has_lone_surrogate_obj. split.
    - intros (k & x & Hk & Hx).
      assert (k ∈ dom meta) as Hin by (apply elem_of_dom; eauto).
      rewrite Hdm in Hin.
      rewrite !elem_of_union, !elem_of_singleton in Hin.
      destruct Hin as [[[->| ->]| ->]| ->].
      + rewrite H1 in Hk. injection Hk as <-.
        destruct Hx as [Hx|Hx]; [discriminate Hx|exact Hx].
      + rewrite H2 in Hk. injection Hk as <-.
        destruct Hx as [Hx|Hx]; discriminate Hx.
      + rewrite H3 in Hk. injection Hk as <-.
        destruct Hx as [Hx|Hx]; discriminate Hx.
      + rewrite H4 in Hk. injection Hk as <-.
        destruct Hx as [Hx|Hx]; [discriminate Hx|congruence].
    - intros H. exists K_JUDGE_MODEL, (JStr (judge_model a)).
      split; [exact H1|]. by right. }
  assert (has_lone_surrogate (JList (JObj <$> results)) = true
          ↔ Exists (λ v, has_lone_surrogate (JObj v) = true) results) as Hdet.
  { rewrite has_lone_surrogate_list. rewrite Exists_fmap. reflexivity. }
  rewrite has_lone_surrogate_obj. split.
  - intros (k & x & Hk & Hx).
    assert (k ∈ dom top) as Hin by (apply elem_of_dom; eauto).
    rewrite Hdt in Hin.
    rewrite !elem_of_union, !elem_of_singleton in Hin.
    destruct Hin as [->| ->].
    + rewrite Hm in Hk. injection Hk as <-. left.
      destruct Hx as [Hx|Hx]; [discriminate Hx|by apply Hmeta].
    + rewrite Hd in Hk. injection Hk as <-. right.
      destruct Hx as [Hx|Hx]; [discriminate Hx|by apply Hdet].
  - intros [H|H].
    + exists K_META, (JObj meta). split; [exact Hm|]. right. by apply Hmeta.
    + exists K_DETAILS, (JList (JObj <$> results)). split; [exact Hd|].
      right. by apply Hdet.
Qed.

Lemma rounded_avg_clean (scores : list json) (avg : json) :
  avg_score_of scores = inr avg → has_lone_surrogate (rounded_avg avg) = false.
Proof. by intros [[_ ->]|[_ [f ->]]]%avg_score_of_kind. Qed.

(** The report can be written when the name of the judge model and every
    verdict can. *)
Lemma report_of_clean (a : args) (data results : list dict) (avg : json) :
  has_lone_surrogate (rounded_avg avg) = false →
  has_lone_surrogate (report_of a data results avg) = false
  ↔ existsb is_surrogate (judge_model a) = false
    ∧ Forall (λ v, has_lone_surrogate (JObj v) = false) results.
Proof.
  intros Havg. pose proof (report_of_surrogate a data results avg Havg) as H.
  split.
  - intros Hf. apply not_true_iff_false in Hf. split.
    + apply not_true_iff_false. intros Hm. apply Hf, H. by left.
    + apply Forall_forall. intros v Hv. apply not_true_iff_false.
      intros Hs. apply Hf, H. right. apply Exists_exists. eauto.
  - intros [Hm Hr]. apply not_true_iff_false. intros [Hs|Hs]%H.
    + congruence.
    + apply Exists_exists in Hs as (v & Hv & Hs).
      apply (proj1 (Forall_forall _ _) Hr) in Hv. congruence.
Qed.

End ReportFacts.

(* ===================================================================== *)
(** * Rounding to four places                                            *)
(* ===================================================================== *)

Module RoundFacts.
Import Text Exc Num Json Eff Script Spec StatFacts.




End RoundFacts.

(* ===================================================================== *)
(** * Prompt files written block by block                                *)
(* ===================================================================== *)

Module FileFacts.
Import Text Exc Num Json Eff Script Spec TextFacts ParseFacts.

Lemma re_split_from_skip (t : pystr) :
  ∀ bol cur s,
    t ≠ [] →
    re_split_from (length t) bol cur (t ++ s) = re_split_from O false cur s.
Proof.
  induction t as [|a t IH]; intros bol cur s Hne; [done|].
  cbn [length app re_split_from].
  destruct t as [|b t]; [reflexivity|]. by apply IH.
Qed.

Lemma take_while_line (l rest : pystr) :
  NL ∉ l → take_while not_newline (l ++ NL :: rest) = l.
Proof.
  induction l as [|c l IH]; intros Hnl; [reflexivity|].
  apply not_elem_of_cons in Hnl as [Hc Hl].
  cbn [app take_while]. unfold not_newline at 1.
  destruct (N.eqb_spec c NL) as [->|_]; [done|].
  cbn [negb]. by rewrite IH.
Qed.

Lemma is_space_NL : is_space NL = true.
Proof. reflexivity. Qed.

(** The pattern matches a header line, and captures its names. *)
Lemma match_header_line (names rest : pystr) :
  plain_names names →
  match_header (header_line names ++ rest)
  = Some (names, length (HEADER ++ [32%N] ++ names)).
Proof.
  intros [Hnl (c & tl & -> & Hc)].
  unfold match_header, header_line.
  rewrite <- !app_assoc, startswith_app, drop_app_length.
  cbn [app span_len]. rewrite Hc.
  change (is_space 32) with true. cbn [try_ws drop].
  assert (not_newline c = true) as ->.
  { unfold not_newline. destruct (N.eqb_spec c NL) as [E|E]; [|reflexivity].
    rewrite E, is_space_NL in Hc. discriminate Hc. }
  change (c :: tl ++ NL :: rest) with ((c :: tl) ++ NL :: rest).
  rewrite take_while_line by exact Hnl.
  rewrite !length_app. cbn [length]. f_equal; f_equal; lia.
Qed.

Lemma re_split_from_header (names rest cur : pystr) :
  plain_names names →
  re_split_from O true cur (header_line names ++ rest)
  = rev cur :: names :: re_split_from O true [NL] rest.
Proof.
  intros Hn. pose proof (match_header_line names rest Hn) as Hm.
  unfold header_line in *. rewrite <- !app_assoc in *.
  remember (HEADER ++ [32%N] ++ names) as t eqn:Et.
  assert (t ++ [NL] ++ rest = HEADER ++ [32%N] ++ names ++ [NL] ++ rest) as E
    by (subst t; by rewrite <- !app_assoc).
  rewrite <- E in *. clear E.
  destruct t as [|c t]; [by destruct HEADER|].
  cbn [app re_split_from]. cbn [app] in Hm. rewrite Hm.
  cbn [length pred]. f_equal. f_equal.
  destruct t as [|d t]; [subst; discriminate|].
  rewrite re_split_from_skip by done.
  reflexivity.
Qed.

Lemma startswith_line (l rest : pystr) :
  startswith HEADER (l ++ NL :: rest) = startswith HEADER l.
Proof.
  assert (∀ p : pystr, NL ∉ p →
            startswith p (l ++ NL :: rest) = startswith p l) as H.
  { intros p. revert l.
    induction p as [|a p IH]; intros l Hp; [by destruct l|].
    apply not_elem_of_cons in Hp as [Ha Hp].
    destruct l as [|b l]; cbn [app startswith].
    - destruct (N.eqb_spec a NL) as [->|_]; done.
    - by rewrite IH. }
  apply H. vm_compute. intros H'. 
  repeat (apply elem_of_cons in H' as [H'|H']; [discriminate H'|]).
  by apply elem_of_nil in H'.
Qed.

Lemma match_header_not (s : pystr) :
  startswith HEADER s = false → match_header s = None.
Proof. unfold match_header. by intros ->. Qed.

Lemma re_split_from_rest_of_line (l : pystr) :
  ∀ cur rest,
    NL ∉ l →
    re_split_from O false cur (l ++ NL :: rest)
    = re_split_from O true (NL :: rev l ++ cur) rest.
Proof.
  induction l as [|c l IH]; intros cur rest Hnl.
  - cbn [app re_split_from rev]. by rewrite N.eqb_refl.
  - apply not_elem_of_cons in Hnl as [Hc Hl].
    cbn [app re_split_from].
    destruct (N.eqb_spec c NL) as [->|_]; [done|].
    rewrite IH by done. cbn [rev]. by rewrite <- app_assoc.
Qed.

Lemma re_split_from_line (l cur rest : pystr) :
  plain_line l →
  re_split_from O true cur (l ++ NL :: rest)
  = re_split_from O true (NL :: rev l ++ cur) rest.
Proof.
  intros [Hnl Hh].
  destruct l as [|c l].
  - cbn [app re_split_from rev].
    rewrite match_header_not by reflexivity. by rewrite N.eqb_refl.
  - apply not_elem_of_cons in Hnl as [Hc Hl].
    cbn [app]. cbn [re_split_from].
    change (c :: l ++ NL :: rest) with ((c :: l) ++ NL :: rest).
    rewrite match_header_not by (by rewrite startswith_line).
    destruct (N.eqb_spec c NL) as [->|_]; [done|].
    rewrite re_split_from_rest_of_line by done.
    cbn [rev]. by rewrite <- app_assoc.
Qed.

Lemma re_split_from_body (lines : list pystr) :
  ∀ cur rest,
    Forall plain_line lines →
    re_split_from O true cur (body_text lines ++ rest)
    = re_split_from O true (rev (body_text lines) ++ cur) rest.
Proof.
  induction lines as [|l lines IH]; intros cur rest Hl; [reflexivity|].
  apply Forall_cons in Hl as [Hl Hls].
  unfold body_text in *. cbn [map concat].
  rewrite <- !app_assoc. cbn [app].
  rewrite re_split_from_line by done. rewrite IH by done.
  rewrite !rev_app_distr. cbn [rev app]. by rewrite <- !app_assoc.
Qed.

Lemma re_split_from_blocks (blocks : list (pystr * list pystr)) :
  ∀ cur,
    plain_blocks blocks →
    re_split_from O true cur (prompt_file_of blocks)
    = sections_of (rev cur) blocks.
Proof.
  induction blocks as [|[names lines] blocks IH]; intros cur Hb;
    [reflexivity|].
  apply Forall_cons in Hb as [[Hn Hl] Hbs]. cbn [fst snd] in Hn, Hl.
  unfold prompt_file_of in *. cbn [map concat fst snd sections_of].
  rewrite <- app_assoc, re_split_from_header by done.
  rewrite re_split_from_body by done. rewrite IH by done.
  rewrite rev_app_distr, rev_involutive. reflexivity.
Qed.

(** [re.split] cuts a prompt file written block by block at its header
    lines. *)
Lemma re_split_headers_blocks (blocks : list (pystr * list pystr)) :
  plain_blocks blocks →
  re_split_headers (prompt_file_of blocks) = sections_of [] blocks.
Proof. intros Hb. unfold re_split_headers. by rewrite re_split_from_blocks. Qed.

Lemma blocks_of_sections (cur : pystr) (blocks : list (pystr * list pystr)) :
  blocks_of (tail (sections_of cur blocks))
  = map (λ b, (map strip (split_commas (strip b.1)),
               strip (NL :: body_text b.2))) blocks.
Proof.
  revert cur. induction blocks as [|b blocks IH]; intros cur; [reflexivity|].
  cbn [sections_of tail map].
  destruct blocks as [|b' blocks'].
  - reflexivity.
  - cbn [sections_of blocks_of]. f_equal.
    specialize (IH (NL :: body_text b.2)). cbn [sections_of tail] in IH.
    exact IH.
Qed.

(** The blocks the parser sees are the blocks written. *)
Lemma header_blocks_of_file (blocks : list (pystr * list pystr)) :
  plain_blocks blocks →
  header_blocks (prompt_file_of blocks)
  = map (λ b, (map strip (split_commas (strip b.1)),
               strip (NL :: body_text b.2))) blocks.
Proof.
  intros Hb. unfold header_blocks.
  by rewrite re_split_headers_blocks, blocks_of_sections.
Qed.

(** ** Names between commas *)

Lemma split_commas_from_plain (a : pystr) :
  ∀ cur rest,
    Forall (λ c, is_comma c = false) a →
    split_commas_from cur (a ++ rest) = split_commas_from (rev a ++ cur) rest.
Proof.
  induction a as [|c a IH]; intros cur rest Ha; [reflexivity|].
  apply Forall_cons in Ha as [Hc Ha].
  cbn [app split_commas_from]. rewrite Hc, IH by done.
  cbn [rev]. by rewrite <- app_assoc.
Qed.

(** A comma of either kind ends a name. *)
Lemma split_commas_cut (a b : pystr) (c : N) :
  Forall (λ c, is_comma c = false) a →
  is_comma c = true →
  split_commas (a ++ c :: b) = a :: split_commas b.
Proof.
  intros Ha Hc. unfold split_commas.
  rewrite split_commas_from_plain by done.
  cbn [split_commas_from]. rewrite Hc, app_nil_r, rev_involutive.
  reflexivity.
Qed.

Lemma split_commas_last (a : pystr) :
  Forall (λ c, is_comma c = false) a → split_commas a = [a].
Proof.
  intros Ha. unfold split_commas.
  rewrite <- (app_nil_r a) at 1. rewrite split_commas_from_plain by done.
  cbn [split_commas_from]. by rewrite app_nil_r, rev_involutive.
Qed.

Lemma is_comma_both : is_comma COMMA = true ∧ is_comma IDEO_COMMA = true.
Proof. split; reflexivity. Qed.

End FileFacts.

(* ===================================================================== *)
(** * The claims of the specification                                    *)
(* ===================================================================== *)

Module Claims.
Import Text Exc Num Json Eff Script Spec Samples.
Import TextFacts TemplateFacts ScriptFacts ParseFacts StatFacts MainFacts.
Import VerdictFacts LoopFacts ReportFacts RoundFacts.

Section Judge.
Variable repr_other : json -> pystr.
Variable judge : list request -> request -> pystr + json.

#[local] Abbreviation py_str := (py_str repr_other).
#[local] Abbreviation render := (render repr_other).
#[local] Abbreviation request_for := (request_for repr_other).
#[local] Abbreviation error_line := (error_line repr_other).
#[local] Abbreviation warning_line := (warning_line repr_other).
#[local] Abbreviation evaluate_single_item :=
  (evaluate_single_item repr_other judge).
#[local] Abbreviation process_item := (process_item repr_other judge).
#[local] Abbreviation main_loop := (main_loop repr_other judge).
#[local] Abbreviation main := (main repr_other judge).

(** C3.  When the judge call or the reading of its answer raises (text
    [e]), [evaluate_single_item] returns the verdict with status "error",
    score 0 and the non-empty reasoning "Evaluation Error: e"; it raises
    nothing itself, so the loop goes on with the items that follow. *)
Theorem failed_judge_call_gives_error_verdict
    (item : dict) (template model e : pystr) (w : world) :
  read_answer item (judge (calls w) (request_for item template model)) = inl e →
  ∃ v w',
    evaluate_single_item item template model w = (inr v, w')
    ∧ v = error_verdict item e
    ∧ get v K_STATUS = JStr ERROR
    ∧ get v K_SCORE = JInt 0
    ∧ get v K_REASONING = JStr (txt "Evaluation Error: " ++ e)
    ∧ txt "Evaluation Error: " ++ e ≠ []
    ∧ ∀ prompts acc rest,
        template_for prompts (get item K_TASK_TYPE) = Some template →
        main_loop prompts model acc (item :: rest) w
        = main_loop prompts model (acc ++ [v]) rest w'.
Proof.
  intros He. eexists _, _.
  split; [rewrite evaluate_single_item_run; cbn zeta; rewrite He; reflexivity|].
  split; [reflexivity|].
  destruct (error_verdict_fields item e) as (_ & _ & Hs & Hr & Hst & _).
  split; [by apply get_lookup|]. split; [by apply get_lookup|].
  split; [by apply get_lookup|]. split; [discriminate|].
  intros prompts acc rest Ht.
  rewrite main_loop_cons, (process_item_resolved _ _ _ _ _ template) by done.
  rewrite evaluate_single_item_run. cbn zeta. by rewrite He.
Qed.


(** C5 as the code has it.  Every verdict carries the id of its item.  A
    verdict with status "success" or "error" also carries the item's task
    type; a verdict with status "skipped" has no "task_type" field. *)
Theorem verdict_keeps_id_and_task_type
    (prompts : gmap pystr pystr) (model : pystr) (item v : dict)
    (w w' : world) :
  process_item prompts model item w = (inr v, w') →
  v !! K_ID = Some (get item K_ID)
  ∧ (((has_status v SUCCESS ∨ has_status v ERROR)
      ∧ v !! K_TASK_TYPE = Some (get item K_TASK_TYPE))
     ∨ (has_status v SKIPPED ∧ v !! K_TASK_TYPE = None)).
Proof.
  intros H%process_item_verdict. destruct H as [H|t e H|t r H].
  - destruct (skipped_verdict_fields item) as (Hid & Htt & _ & _ & Hst & _).
    split; [done|]. right. split; [by apply get_lookup|done].
  - destruct (error_verdict_fields item e) as (Hid & Htt & _ & _ & Hst & _).
    split; [done|]. left. split; [right; by apply get_lookup|done].
  - destruct (success_verdict_fields item r) as (Hid & Htt & _ & _ & Hst & _).
    split; [done|]. left. split; [left; by apply get_lookup|done].
Qed.

(** C2.  The "details" of the report a run writes hold one verdict for
    each input item, in the order of the input: the verdict at a position
    is the one of the item at that position (same id), and its status is
    "success", "error" or "skipped"; so the two lengths agree. *)
Theorem report_details_one_per_item
    (a : args) (content : pystr) (data : list dict) (w w' : world) :
  main a (Readable content) data w = (inr tt, w') →
  ∃ results report,
    wrote w w' (output_file a) report
    ∧ field report K_DETAILS = Some (JList (JObj <$> results))
    ∧ length results = length data
    ∧ Forall2
        (λ item v,
           verdict_for (prompts_of_blocks (header_blocks content)) item v
           ∧ get v K_ID = get item K_ID
           ∧ terminal v)
        data results.
Proof.
  intros (results & avg & w1 & Hloop & Havg & ->)%main_returns_inv.
  destruct (main_loop_results _ _ _ _ _ _ _ _ _ Hloop) as (vs & Hres & Hvs).
  destruct (main_loop_world _ _ _ _ _ _ _ _ _ Hloop) as [Hw _].
  cbn [app] in Hres. subst vs.
  exists results, (report_of a data results avg).
  split; [|split; [|split]].
  - unfold wrote. rewrite finished_written, Hw, started_written. reflexivity.
  - apply report_details.
  - symmetry. eapply Forall2_length, Hvs.
  - eapply Forall2_impl; [exact Hvs|]. intros item v Hv.
    split; [exact Hv|]. split; [eapply verdict_for_id, Hv|].
    eapply verdict_for_terminal, Hv.
Qed.





(** C7 as the code has it.  The prompt sent to the judge is the template
    after three passes of [str.replace], for "{{question}}", then
    "{{reference_answer}}", then "{{model_answer}}", each putting [str] of
    the item's field (the empty string when the field is absent) at every
    occurrence of its token.  When the template is literal text without
    an opening brace between tokens, and the three texts hold no opening
    brace, every token is replaced by its text: the prompt holds no
    placeholder token, and holds the text of every slot the template
    uses. *)
Theorem render_fills_placeholders (item : dict) :
  (∀ template model,
     req_user (request_for item template model) = render item template
     ∧ render item template
       = replace
           (replace
              (replace template PH_QUESTION
                 (slot_text repr_other item Question))
              PH_REFERENCE (slot_text repr_other item Reference))
           PH_MODEL (slot_text repr_other item Answer))
  ∧ (∀ k, item !! slot_key k = None → slot_text repr_other item k = [])
  ∧ (∀ k s, item !! slot_key k = Some (JStr s) →
            slot_text repr_other item k = s)
  ∧ (∀ segs,
       Forall literal_brace_free segs →
       (∀ k, brace_free (slot_text repr_other item k)) →
       render item (template_of segs) = fill (slot_text repr_other item) segs
       ∧ (∀ k, contains (token k) (render item (template_of segs)) = false)
       ∧ (∀ k, uses k segs →
               contains (slot_text repr_other item k)
                 (render item (template_of segs)) = true)).
Proof.
  split; [intros template model; split; reflexivity|].
  split; [intros k Hk; unfold slot_text, get_or; by rewrite Hk|].
  split; [intros k s Hk; unfold slot_text, get_or; by rewrite Hk|].
  intros segs Hsegs Htexts.
  assert (render item (template_of segs)
          = fill (slot_text repr_other item) segs) as Hfill.
  { unfold Script.render, replace.
    change (Script.py_str repr_other (get_or item K_QUESTION (JStr [])))
      with (slot_text repr_other item Question).
    change (Script.py_str repr_other (get_or item K_REFERENCE (JStr [])))
      with (slot_text repr_other item Reference).
    change (Script.py_str repr_other (get_or item K_MODEL (JStr [])))
      with (slot_text repr_other item Answer).
    change PH_QUESTION with (token Question).
    change PH_REFERENCE with (token Reference).
    change PH_MODEL with (token Answer).
    rewrite replace_from_template by exact Hsegs.
    rewrite replace_from_template
      by (apply fill_slot_brace_free; [apply Htexts|exact Hsegs]).
    rewrite replace_from_template
      by (apply fill_slot_brace_free;
          [apply Htexts|apply fill_slot_brace_free;
                        [apply Htexts|exact Hsegs]]).
    apply fill_slots_all. }
  split; [exact Hfill|]. rewrite Hfill. split.
  - intros k. destruct (token_head k) as [rest ->].
    apply contains_clean. by apply fill_brace_free.
  - intros k Hk. by apply fill_contains.
Qed.

End Judge.

(** C3 at a judge that cannot be reached: the verdict of [item_A] is the
    error verdict, and the loop goes on with [item_Z]. *)
Lemma failed_judge_call_witness :
  ∃ v w',
    evaluate_single_item repr_plain judge_down item_A (txt "{{question}}")
      DEFAULT_JUDGE_MODEL initial_world = (inr v, w')
    ∧ v = error_verdict item_A (txt "Connection error.")
    ∧ get v K_STATUS = JStr ERROR
    ∧ get v K_SCORE = JInt 0
    ∧ get v K_REASONING
      = JStr (txt "Evaluation Error: " ++ txt "Connection error.")
    ∧ txt "Evaluation Error: " ++ txt "Connection error." ≠ []
    ∧ ∀ prompts acc rest,
        template_for prompts (get item_A K_TASK_TYPE)
        = Some (txt "{{question}}") →
        main_loop repr_plain judge_down prompts DEFAULT_JUDGE_MODEL acc
          (item_A :: rest) initial_world
        = main_loop repr_plain judge_down prompts DEFAULT_JUDGE_MODEL
            (acc ++ [v]) rest w'.
Proof.
  apply (failed_judge_call_gives_error_verdict repr_plain judge_down item_A
           (txt "{{question}}") DEFAULT_JUDGE_MODEL (txt "Connection error.")
           initial_world).
  reflexivity.
Defined.


(** C6 as the code has it.  Every name of every header of a prompt file
    is a key of the mapping [parse_prompt_file] returns, and maps to the
    template of the last header that lists it.  So the names of one header
    (cut at either comma) all map to that header's template, each unless a
    later header lists it again. *)
Theorem parsed_prompts_cover_headers (content : pystr) :
  ∃ prompts,
    parse_prompt_text content = inr prompts
    ∧ (∀ path w,
         parse_prompt_file (Readable content) path w
         = (inr prompts, printed w (loaded_line prompts path)))
    ∧ ∀ i names body,
        header_blocks content !! i = Some (names, body) →
        ∀ t, t ∈ names →
          is_Some (prompts !! t)
          ∧ prompts !! t = last_body t (header_blocks content)
          ∧ (Forall (λ b, t ∉ b.1) (drop (S i) (header_blocks content)) →
             prompts !! t = Some body).
Proof.
  exists (prompts_of_blocks (header_blocks content)).
  split; [apply parse_prompt_text_blocks|]. split.
  { intros path w.
    unfold parse_prompt_file, mbind, M_bind, lift, mret, M_ret, print.
    by rewrite parse_prompt_text_blocks. }
  intros i names body Hi t Ht.
  rewrite prompts_of_blocks_lookup.
  split; [|split; [reflexivity|]].
  - apply last_body_is_Some, Exists_exists.
    exists (names, body). split; [by eapply list_elem_of_lookup_2|done].
  - intros Hlater.
    rewrite <- (take_drop_middle _ _ _ Hi), last_body_app.
    cbn [last_body]. rewrite (last_body_none _ _ Hlater).
    by rewrite bool_decide_eq_true_2.
Qed.

(** ** The claims at the sample inputs *)


(** An error verdict next to a success of score 4 leaves the average at
    4.0; counted as a zero it would give 2.0. *)
Example error_verdict_not_averaged :
  avg_score_of
    (valid_scores_of
       [success_verdict item_A reply_ok;
        error_verdict item_Z (txt "Connection error.")])
  = inr (JFloat float_4).
Proof. vm_compute. reflexivity. Qed.

(** A boolean score is an [int] for [isinstance], and counts as 1: the
    scores [True] and 4 average to 2.5. *)
Example boolean_score_is_averaged :
  avg_score_of
    (valid_scores_of
       [success_verdict item_A {[ K_SCORE := JBool true ]};
        success_verdict item_A {[ K_SCORE := JInt 4 ]}])
  = inr (JFloat (S754_finite false 5629499534213120 (-51))).
Proof. vm_compute. reflexivity. Qed.

(** C2 at the scenario run. *)
Lemma report_details_witness :
  scenario_run.1 = inr tt
  ∧ ∃ results report,
      wrote initial_world scenario_run.2 (output_file run_args) report
      ∧ field report K_DETAILS = Some (JList (JObj <$> results))
      ∧ length results = length [item_A; item_Z]
      ∧ Forall2
          (λ item v,
             verdict_for (prompts_of_blocks (header_blocks prompt_text)) item v
             ∧ get v K_ID = get item K_ID
             ∧ terminal v)
          [item_A; item_Z] results.
Proof.
  split; [vm_compute; reflexivity|].
  apply (report_details_one_per_item repr_plain judge_ok run_args
           prompt_text [item_A; item_Z] initial_world scenario_run.2).
  vm_compute. reflexivity.
Defined.

(** C5 as claimed fails at an item of an unknown task type: its verdict
    holds no task type at all, while the item's is "Z". *)
Lemma skipped_verdict_has_no_task_type :
  (process_item repr_plain judge_ok prompts_A DEFAULT_JUDGE_MODEL item_Z
     initial_world).1 = inr (skipped_verdict item_Z)
  ∧ get item_Z K_TASK_TYPE = JStr (txt "Z")
  ∧ skipped_verdict item_Z !! K_TASK_TYPE = None
  ∧ get (skipped_verdict item_Z) K_TASK_TYPE ≠ get item_Z K_TASK_TYPE.
Proof.
  split; [vm_compute; reflexivity|]. split; [vm_compute; reflexivity|].
  split; [vm_compute; reflexivity|]. vm_compute. discriminate.
Qed.

(** C5 as amended, at the same item. *)
Lemma verdict_keeps_id_witness :
  skipped_verdict item_Z !! K_ID = Some (get item_Z K_ID)
  ∧ (((has_status (skipped_verdict item_Z) SUCCESS
       ∨ has_status (skipped_verdict item_Z) ERROR)
      ∧ skipped_verdict item_Z !! K_TASK_TYPE
        = Some (get item_Z K_TASK_TYPE))
     ∨ (has_status (skipped_verdict item_Z) SKIPPED
        ∧ skipped_verdict item_Z !! K_TASK_TYPE = None)).
Proof.
  apply (verdict_keeps_id_and_task_type repr_plain judge_ok prompts_A
           DEFAULT_JUDGE_MODEL item_Z (skipped_verdict item_Z) initial_world
           (printed initial_world (warning_line repr_plain item_Z))).
  vm_compute. reflexivity.
Defined.

(** C6 as claimed fails when a later header repeats a name: "A" and "B"
    stand in one header, separated by a comma, and map to different
    templates. *)
Lemma repeated_name_splits_aliases :
  header_blocks repeated_text
  = [([txt "A"; txt "B"], txt "X"); ([txt "A"], txt "Y")]
  ∧ ∃ prompts,
      parse_prompt_text repeated_text = inr prompts
      ∧ prompts !! txt "A" = Some (txt "Y")
      ∧ prompts !! txt "B" = Some (txt "X")
      ∧ prompts !! txt "A" ≠ prompts !! txt "B".
Proof.
  split; [vm_compute; reflexivity|].
  exists (prompts_of_blocks (header_blocks repeated_text)).
  split; [apply parse_prompt_text_blocks|].
  rewrite !prompts_of_blocks_lookup.
  split; [vm_compute; reflexivity|]. split; [vm_compute; reflexivity|].
  vm_compute. discriminate.
Qed.

(** C6 as amended, at a header whose three names are cut at a comma of
    each kind: all three map to the one template. *)
Lemma parsed_prompts_witness :
  header_blocks aliased_text
  = [([txt "A"; txt "B"; txt "C"], txt "Shared template")]
  ∧ ∃ prompts,
      parse_prompt_text aliased_text = inr prompts
      ∧ prompts !! txt "A" = Some (txt "Shared template")
      ∧ prompts !! txt "B" = Some (txt "Shared template")
      ∧ prompts !! txt "C" = Some (txt "Shared template").
Proof.
  assert (header_blocks aliased_text
          = [([txt "A"; txt "B"; txt "C"], txt "Shared template")]) as Hb
    by (vm_compute; reflexivity).
  split; [exact Hb|].
  destruct (parsed_prompts_cover_headers aliased_text)
    as (prompts & Hp & _ & Hnames).
  exists prompts. split; [exact Hp|].
  assert (∀ t, t ∈ [txt "A"; txt "B"; txt "C"] →
               prompts !! t = Some (txt "Shared template")) as H.
  { intros t Ht.
    apply (Hnames O [txt "A"; txt "B"; txt "C"] (txt "Shared template"));
      [by rewrite Hb|exact Ht|].
    rewrite Hb. constructor. }
  split; [apply H; repeat constructor|].
  split; apply H; repeat constructor.
Defined.

(** C7 as claimed fails for an item that is processed successfully: the
    answer spells "{{question}}", which the pass for the question has
    already gone by, so the prompt sent to the judge is the bare token; and
    with a template that has no slot for it, the question is not in the
    prompt. *)
Lemma placeholder_left_in_prompt :
  (∃ w',
     evaluate_single_item repr_plain judge_ok item_tricky
       (txt "{{model_answer}}") DEFAULT_JUDGE_MODEL initial_world
     = (inr (success_verdict item_tricky reply_ok), w')
     ∧ map req_user (calls w') = [txt "{{question}}"])
  ∧ has_status (success_verdict item_tricky reply_ok) SUCCESS
  ∧ render repr_plain item_tricky (txt "{{model_answer}}")
    = txt "{{question}}"
  ∧ contains PH_QUESTION
      (render repr_plain item_tricky (txt "{{model_answer}}")) = true
  ∧ contains (txt "What?")
      (render repr_plain item_tricky (txt "{{model_answer}}")) = false.
Proof.
  split; [eexists; split; vm_compute; reflexivity|].
  repeat split; vm_compute; reflexivity.
Qed.

(** C7 as amended, at the sample template and [item_A]. *)
Lemma render_fills_witness :
  render repr_plain item_A (template_of segments_A)
  = txt "Rate What? against Right: Guess"
  ∧ (∀ k, contains (token k)
            (render repr_plain item_A (template_of segments_A)) = false)
  ∧ (∀ k, uses k segments_A →
          contains (slot_text repr_plain item_A k)
            (render repr_plain item_A (template_of segments_A)) = true).
Proof.
  destruct (render_fills_placeholders repr_plain item_A)
    as (_ & _ & _ & Hsegs).
  destruct (Hsegs segments_A) as (Hfill & Hnone & Hall).
  - repeat constructor; apply (bool_decide_unpack _); vm_compute; exact I.
  - intros []; apply (bool_decide_unpack _); vm_compute; exact I.
  - split; [rewrite Hfill; vm_compute; reflexivity|]. split; assumption.
Defined.



(** An empty input gives the average 0 as well. *)
Example empty_input_average_zero (content : pystr) (w : world) :
  ∃ w', Script.main repr_plain judge_ok run_args (Readable content) [] w
        = (inr tt, w')
        ∧ wrote w w' (output_file run_args) (report_of run_args [] [] (JInt 0))
        ∧ meta_field (report_of run_args [] [] (JInt 0)) K_AVERAGE
          = Some (JInt 0).
Proof.
  exists (finished run_args [] [] (JInt 0) (started run_args content [] w)).
  split; [rewrite main_run; cbn; by apply saving_returns|].
  split; [reflexivity|apply report_average].
Qed.


End Claims.

(* ===================================================================== *)
(** * The trace of the loop                                              *)
(* ===================================================================== *)

Module TraceFacts.
Import Text Exc Num Json Eff Script Spec.
Import ScriptFacts ParseFacts StatFacts MainFacts VerdictFacts LoopFacts.
Import ReportFacts.

Section Runs.
Variable repr_other : json -> pystr.
Variable judge : list request -> request -> pystr + json.

#[local] Abbreviation request_for := (request_for repr_other).
#[local] Abbreviation request_of := (request_of repr_other).
#[local] Abbreviation loop_line := (loop_line repr_other).
#[local] Abbreviation evaluate_single_item :=
  (evaluate_single_item repr_other judge).
#[local] Abbreviation process_item := (process_item repr_other judge).
#[local] Abbreviation main_loop := (main_loop repr_other judge).
#[local] Abbreviation main := (main repr_other judge).

Lemma loop_line_skipped (item : dict) :
  loop_line item (skipped_verdict item) = [warning_line repr_other item].
Proof. reflexivity. Qed.

Lemma loop_line_error (item : dict) (e : pystr) :
  loop_line item (error_verdict item e) = [error_line repr_other item e].
Proof. reflexivity. Qed.

Lemma loop_line_success (item r : dict) :
  loop_line item (success_verdict item r) = [].
Proof. reflexivity. Qed.

(** One turn of the loop: the call it makes and the line it prints. *)
Lemma process_item_trace prompts model item w v w' :
  process_item prompts model item w = (inr v, w') →
  calls w' = calls w ++ option_list (request_of prompts model item)
  ∧ console w' = console w ++ loop_line item v
  ∧ written w' = written w.
Proof.
  unfold Spec.request_of.
  destruct (process_item_cases repr_other judge prompts model item w)
    as [[_ [e ->]]|[(_ & Ht & ->)|(t & Ht & ->)]]; [discriminate| |].
  - intros [= <- <-]. rewrite Ht, loop_line_skipped. cbn.
    by rewrite app_nil_r.
  - rewrite evaluate_single_item_run. cbn zeta. rewrite Ht.
    destruct (read_answer item _) as [e|verdict] eqn:E; intros [= <- <-].
    + rewrite loop_line_error. done.
    + unfold read_answer in E.
      destruct (judge _ _) as [?|[]]; try discriminate E.
      injection E as <-. rewrite loop_line_success. cbn.
      by rewrite app_nil_r.
Qed.

Lemma main_loop_trace prompts model data :
  ∀ acc w results w',
    main_loop prompts model acc data w = (inr results, w') →
    ∃ vs,
      results = acc ++ vs
      ∧ length vs = length data
      ∧ calls w' = calls w ++ omap (request_of prompts model) data
      ∧ console w' = console w ++ concat (zip_with loop_line data vs)
      ∧ written w' = written w.
Proof.
  induction data as [|item rest IH]; intros acc w results w'.
  - intros [= <- <-]. exists []. by rewrite !app_nil_r.
  - rewrite main_loop_cons.
    destruct (process_item prompts model item w) as [[e|v] w1] eqn:E;
      [discriminate|].
    intros (vs & -> & Hlen & Hc & Hp & Hw)%IH.
    apply process_item_trace in E as (Hc1 & Hp1 & Hw1).
    exists (v :: vs). split; [by rewrite <- app_assoc|].
    split; [simpl; by rewrite Hlen|].
    split; [|split; [|congruence]].
    + rewrite Hc, Hc1, <- app_assoc. f_equal. cbn [omap list_omap].
      by destruct (request_of prompts model item).
    + rewrite Hp, Hp1, <- app_assoc. reflexivity.
Qed.

(** Every request is made with the model handed to the loop and the fixed
    system message. *)
Lemma request_of_fixed prompts model data :
  Forall (λ req, req_model req = model ∧ req_system req = SYSTEM_MESSAGE)
    (omap (request_of prompts model) data).
Proof.
  induction data as [|item rest IH]; [constructor|].
  cbn [omap list_omap]. unfold Spec.request_of at 1.
  destruct (template_for prompts (get item K_TASK_TYPE)); [|exact IH].
  constructor; [by split|exact IH].
Qed.

(** ** Statuses *)

Lemma has_status_skipped (item : dict) :
  has_status (skipped_verdict item) SKIPPED.
Proof. reflexivity. Qed.

Lemma has_status_error (item : dict) (e : pystr) :
  has_status (error_verdict item e) ERROR.
Proof. reflexivity. Qed.

Lemma has_status_success (item r : dict) :
  has_status (success_verdict item r) SUCCESS.
Proof. reflexivity. Qed.

Lemma has_status_unique (v : dict) (s s' : pystr) :
  has_status v s → has_status v s' → s = s'.
Proof. unfold has_status. intros -> [= ->]. reflexivity. Qed.

Lemma status_count_cons (s : pystr) (v : dict) (l : list dict) :
  status_count s (v :: l)
  = ((if decide (has_status v s) then 1 else 0) + status_count s l)%nat.
Proof.
  unfold status_count. rewrite filter_cons.
  by destruct (decide (has_status v s)).
Qed.

Lemma has_status_other (v : dict) (s s' : pystr) :
  has_status v s → s ≠ s' → ¬ has_status v s'.
Proof. intros H Hne H'. apply Hne. by eapply has_status_unique. Qed.

Lemma status_count_partition prompts data results :
  Forall2 (verdict_for prompts) data results →
  length data
  = (status_count SUCCESS results + status_count ERROR results
     + status_count SKIPPED results)%nat
  ∧ status_count SKIPPED results
    = length (filter (λ item, ¬ resolved prompts item) data)
  ∧ (status_count SUCCESS results + status_count ERROR results)%nat
    = length (filter (resolved prompts) data)
  ∧ (length (valid_scores_of results) <= status_count SUCCESS results)%nat.
Proof.
  induction 1 as [|item v data results Hv _ IH].
  - repeat split; reflexivity.
  - destruct IH as (IH1 & IH2 & IH3 & IH4).
    unfold resolved in *. rewrite !status_count_cons, !filter_cons.
    destruct Hv as [Ht|t e Ht|t r Ht]; rewrite Ht.
    + pose proof (has_status_skipped item) as Hs.
      rewrite valid_scores_of_excluded by apply not_counted_skipped.
      rewrite (decide_True (P := has_status _ SKIPPED)) by exact Hs.
      rewrite (decide_False (P := has_status _ SUCCESS))
        by (by apply (has_status_other _ _ _ Hs)).
      rewrite (decide_False (P := has_status _ ERROR))
        by (by apply (has_status_other _ _ _ Hs)).
      rewrite (decide_True (P := ¬ is_Some None)) by (by intros [? ?]).
      rewrite (decide_False (P := is_Some None)) by (by intros [? ?]).
      cbn [length]. lia.
    + pose proof (has_status_error item e) as Hs.
      rewrite valid_scores_of_excluded by apply not_counted_error.
      rewrite (decide_True (P := has_status _ ERROR)) by exact Hs.
      rewrite (decide_False (P := has_status _ SUCCESS))
        by (by apply (has_status_other _ _ _ Hs)).
      rewrite (decide_False (P := has_status _ SKIPPED))
        by (by apply (has_status_other _ _ _ Hs)).
      rewrite (decide_False (P := ¬ is_Some (Some t)))
        by (intros H; apply H; eauto).
      rewrite (decide_True (P := is_Some (Some t))) by eauto.
      cbn [length]. lia.
    + pose proof (has_status_success item r) as Hs.
      rewrite (decide_True (P := has_status _ SUCCESS)) by exact Hs.
      rewrite (decide_False (P := has_status _ ERROR))
        by (by apply (has_status_other _ _ _ Hs)).
      rewrite (decide_False (P := has_status _ SKIPPED))
        by (by apply (has_status_other _ _ _ Hs)).
      rewrite (decide_False (P := ¬ is_Some (Some t)))
        by (intros H; apply H; eauto).
      rewrite (decide_True (P := is_Some (Some t))) by eauto.
      destruct (decide (counted (success_verdict item r))) as [C|C].
      * rewrite valid_scores_of_included by done. cbn [length]. lia.
      * rewrite valid_scores_of_excluded by done. cbn [length]. lia.
Qed.

(** ** The keys of a verdict *)

Lemma dom_skipped_verdict (item : dict) :
  dom (skipped_verdict item) = SKIPPED_KEYS.
Proof. vm_compute. reflexivity. Qed.

Lemma dom_error_verdict (item : dict) (e : pystr) :
  dom (error_verdict item e) = JUDGED_KEYS.
Proof. vm_compute. reflexivity. Qed.

Lemma dom_success_verdict (item r : dict) :
  dom (success_verdict item r) = JUDGED_KEYS.
Proof. vm_compute. reflexivity. Qed.

End Runs.
End TraceFacts.

(* ===================================================================== *)
(** * Names and headers                                                  *)
(* ===================================================================== *)

Module NameFacts.
Import Text Exc Num Json Eff Script Spec.
Import TextFacts ParseFacts FileFacts.

(** ** [strip] *)

Lemma elem_of_rev (c : N) (l : pystr) : c ∈ rev l ↔ c ∈ l.
Proof. rewrite !list_elem_of_In. symmetry. apply in_rev. Qed.

Lemma lstrip_split (s : pystr) :
  ∃ pre, s = pre ++ lstrip s ∧ Forall (λ c, is_space c = true) pre.
Proof.
  induction s as [|c s (pre & E & Hpre)]; [by exists []|].
  cbn [lstrip]. destruct (is_space c) eqn:Hc.
  - exists (c :: pre). split; [cbn [app]; by rewrite <- E|by constructor].
  - by exists [].
Qed.

Lemma lstrip_head (s : pystr) :
  match lstrip s with
  | [] => True
  | c :: _ => is_space c = false
  end.
Proof.
  induction s as [|c s IH]; [done|].
  cbn [lstrip]. by destruct (is_space c) eqn:Hc.
Qed.

Lemma lstrip_fixed (c : N) (s : pystr) :
  is_space c = false → lstrip (c :: s) = c :: s.
Proof. intros H. cbn [lstrip]. by rewrite H. Qed.

Lemma strip_strip (s : pystr) : strip (strip s) = strip s.
Proof.
  unfold strip, rstrip.
  destruct (lstrip_split (rev (lstrip s))) as (pre & E & _).
  pose proof (lstrip_head (rev (lstrip s))) as Hu.
  pose proof (lstrip_head s) as Ht.
  destruct (lstrip (rev (lstrip s))) as [|c u] eqn:Eu; [reflexivity|].
  assert (lstrip s = rev (c :: u) ++ rev pre) as Et.
  { rewrite <- rev_app_distr, <- E. by rewrite rev_involutive. }
  assert (lstrip (rev (c :: u)) = rev (c :: u)) as ->.
  { destruct (rev (c :: u)) as [|d v] eqn:Er.
    - reflexivity.
    - rewrite Et in Ht. cbn [app] in Ht. by apply lstrip_fixed. }
  rewrite rev_involutive. by rewrite lstrip_fixed.
Qed.

Lemma elem_of_lstrip (c : N) (s : pystr) : c ∈ lstrip s → c ∈ s.
Proof.
  destruct (lstrip_split s) as (pre & E & _). intros H.
  rewrite E. apply elem_of_app. by right.
Qed.

Lemma elem_of_strip (c : N) (s : pystr) : c ∈ strip s → c ∈ s.
Proof.
  unfold strip, rstrip. rewrite elem_of_rev. intros H%elem_of_lstrip.
  rewrite elem_of_rev in H. by apply elem_of_lstrip.
Qed.

(** White space around a name does not survive [strip]. *)
Lemma strip_head (s : pystr) :
  match strip s with
  | [] => True
  | c :: _ => is_space c = false
  end.
Proof.
  pose proof (strip_strip s) as H. unfold strip at 1 in H.
  destruct (strip s) as [|c t] eqn:E; [done|].
  destruct (is_space c) eqn:Hc; [|done].
  exfalso. unfold rstrip in H. cbn [lstrip] in H. rewrite Hc in H.
  apply (f_equal (@length N)) in H.
  rewrite length_rev in H.
  destruct (lstrip_split (rev (lstrip t))) as (pre & E1 & _).
  destruct (lstrip_split t) as (pre' & E2 & _).
  apply (f_equal (@length N)) in E1, E2.
  rewrite length_app in E1, E2. rewrite length_rev in E1.
  cbn [length] in H. lia.
Qed.

(** ** Names between commas *)

Lemma split_commas_from_pieces (s : pystr) :
  ∀ cur p,
    p ∈ split_commas_from cur s →
    Forall (λ c, is_comma c = false) cur →
    Forall (λ c, is_comma c = false) p ∧ ∀ c, c ∈ p → c ∈ cur ∨ c ∈ s.
Proof.
  induction s as [|a s IH]; intros cur p; cbn [split_commas_from].
  - intros ->%list_elem_of_singleton Hcur. split.
    + by apply Forall_rev.
    + intros c Hc%(proj1 (elem_of_rev _ _)). by left.
  - destruct (is_comma a) eqn:Ha.
    + intros [->|Hp]%elem_of_cons Hcur.
      * split; [by apply Forall_rev|]. intros c Hc%(proj1 (elem_of_rev _ _)). by left.
      * destruct (IH [] p Hp) as [H1 H2]; [constructor|].
        split; [done|]. intros c Hc. right. right.
        destruct (H2 c Hc) as [H|H]; [by apply elem_of_nil in H|done].
    + intros Hp Hcur.
      destruct (IH (a :: cur) p Hp) as [H1 H2]; [by constructor|].
      split; [done|]. intros c Hc.
      destruct (H2 c Hc) as [[->|H]%elem_of_cons|H].
      * right. left.
      * by left.
      * right. by right.
Qed.

Lemma split_commas_pieces (s p : pystr) :
  p ∈ split_commas s →
  Forall (λ c, is_comma c = false) p ∧ ∀ c, c ∈ p → c ∈ s.
Proof.
  intros Hp. destruct (split_commas_from_pieces s [] p Hp) as [H1 H2];
    [constructor|].
  split; [done|]. intros c Hc.
  destruct (H2 c Hc) as [H|H]; [by apply elem_of_nil in H|done].
Qed.

(** The names of a header whose captured group holds no newline. *)
Lemma names_clean (raw t : pystr) :
  NL ∉ raw → t ∈ map strip (split_commas (strip raw)) → clean_name t.
Proof.
  intros Hnl (p & -> & Hp)%list_elem_of_fmap.
  destruct (split_commas_pieces _ _ Hp) as [Hc Hin].
  split; [apply strip_strip|]. split.
  - intros H%elem_of_strip. apply Hnl. by apply elem_of_strip, Hin.
  - apply Forall_forall. intros c H%elem_of_strip.
    by apply (proj1 (Forall_forall _ _) Hc).
Qed.

(** ** The groups the pattern captures *)

Lemma take_while_no_newline (s : pystr) : NL ∉ take_while not_newline s.
Proof.
  induction s as [|c s IH]; cbn [take_while]; [apply not_elem_of_nil|].
  unfold not_newline at 1. destruct (N.eqb_spec c NL) as [->|Hne]; cbn [negb].
  - apply not_elem_of_nil.
  - apply not_elem_of_cons. split; [congruence|exact IH].
Qed.

Lemma try_ws_group (after : pystr) (k : nat) (g : pystr) (n : nat) :
  try_ws after k = Some (g, n) → NL ∉ g.
Proof.
  induction k as [|k IH]; cbn [try_ws]; [discriminate|].
  destruct (drop (S k) after) as [|c tl] eqn:E; [exact IH|].
  destruct (not_newline c); [|exact IH].
  intros [= Hg _]. rewrite <- Hg. apply (take_while_no_newline (c :: tl)).
Qed.

Lemma match_header_group (s g : pystr) (n : nat) :
  match_header s = Some (g, n) → NL ∉ g.
Proof.
  unfold match_header. destruct (startswith HEADER s); [|discriminate].
  destruct (try_ws _ _) as [[g' k]|] eqn:E; [|discriminate].
  intros [= <- _]. by eapply try_ws_group.
Qed.

Lemma re_split_from_groups (s : pystr) :
  ∀ skip bol cur,
    Forall (λ raw, NL ∉ raw)
      (header_groups (tail (re_split_from skip bol cur s))).
Proof.
  induction s as [|c s IH]; intros skip bol cur; [constructor|].
  cbn [re_split_from]. destruct skip as [|k]; [|apply IH].
  destruct (if bol then match_header (c :: s) else None) as [[g n]|] eqn:E;
    [|apply IH].
  cbn [tail].
  pose proof (re_split_from_odd s (pred n) false []) as Hodd.
  specialize (IH (pred n) false []).
  destruct (re_split_from (pred n) false [] s) as [|x tl]; [discriminate Hodd|].
  cbn [header_groups]. constructor; [|exact IH].
  destruct bol; [|discriminate E]. by eapply match_header_group.
Qed.

Lemma blocks_of_clean (secs : list pystr) :
  Forall (λ raw, NL ∉ raw) (header_groups secs) →
  Forall (λ b, Forall clean_name b.1 ∧ strip b.2 = b.2) (blocks_of secs).
Proof.
  assert (∀ secs : list pystr,
    (Forall (λ raw, NL ∉ raw) (header_groups secs) →
     Forall (λ b, Forall clean_name b.1 ∧ strip b.2 = b.2) (blocks_of secs))
    ∧ (∀ x, Forall (λ raw, NL ∉ raw) (header_groups (x :: secs)) →
            Forall (λ b, Forall clean_name b.1 ∧ strip b.2 = b.2)
              (blocks_of (x :: secs)))) as H.
  { clear secs. induction secs as [|y secs [IH1 IH2]].
    - split; [constructor|]. intros x _. constructor.
    - split; [apply IH2|]. intros x H. cbn [header_groups] in H.
      apply Forall_cons in H as [Hx H].
      cbn [blocks_of]. constructor; [|by apply IH1].
      cbn [fst snd]. split; [|apply strip_strip].
      apply Forall_forall. intros t Ht. by eapply names_clean. }
  apply H.
Qed.

(** Whatever the file holds, the parser stores clean names and stripped
    templates. *)
Lemma header_blocks_clean (content : pystr) :
  Forall (λ b, Forall clean_name b.1 ∧ strip b.2 = b.2)
    (header_blocks content).
Proof. apply blocks_of_clean, re_split_from_groups. Qed.

(** ** The keys of the mapping *)

Lemma last_body_Some (t body : pystr) (blocks : list (list pystr * pystr)) :
  last_body t blocks = Some body →
  ∃ names, (names, body) ∈ blocks ∧ t ∈ names.
Proof.
  induction blocks as [|[names b] blocks IH]; cbn [last_body]; [discriminate|].
  destruct (last_body t blocks) as [b'|].
  - intros [= ->]. destruct IH as (names' & Hin & Ht); [done|].
    exists names'. split; [by right|done].
  - destruct (decide (t ∈ names)) as [Hin|Hnin].
    + rewrite bool_decide_eq_true_2 by done. intros [= ->].
      exists names. split; [left|done].
    + rewrite bool_decide_eq_false_2 by done. discriminate.
Qed.

Lemma elem_of_listed_names (t : pystr) (blocks : list (list pystr * pystr)) :
  t ∈ listed_names blocks ↔ Exists (λ b, t ∈ b.1) blocks.
Proof.
  unfold listed_names. induction blocks as [|b blocks IH]; cbn [map concat].
  - rewrite Exists_nil. apply elem_of_nil.
  - rewrite elem_of_app, Exists_cons, IH. reflexivity.
Qed.

Lemma prompts_of_blocks_is_Some (t : pystr) blocks :
  is_Some (prompts_of_blocks blocks !! t) ↔ t ∈ listed_names blocks.
Proof.
  rewrite prompts_of_blocks_lookup, elem_of_listed_names. split.
  - intros [body (names & Hin & Ht)%last_body_Some].
    apply Exists_exists. by exists (names, body).
  - apply last_body_is_Some.
Qed.

Lemma dom_prompts_of_blocks blocks :
  dom (prompts_of_blocks blocks)
  = (list_to_set (listed_names blocks) : gset pystr).
Proof.
  apply set_eq. intros t.
  by rewrite elem_of_dom, prompts_of_blocks_is_Some, elem_of_list_to_set.
Qed.

Lemma size_prompts_of_blocks blocks :
  size (prompts_of_blocks blocks)
  = length (remove_dups (listed_names blocks)).
Proof.
  rewrite <- (size_dom (D := gset pystr)), dom_prompts_of_blocks.
  rewrite <- (size_list_to_set (C := gset pystr) (remove_dups _))
    by apply NoDup_remove_dups.
  f_equal. apply set_eq. intros t.
  by rewrite !elem_of_list_to_set, elem_of_remove_dups.
Qed.

(** ** Text around the headers *)

(** The text gathered before the next header only shows in the first
    section. *)
Lemma re_split_from_cur (s : pystr) :
  ∀ skip bol cur1 cur2,
    re_split_from skip bol (cur1 ++ cur2) s
    = match re_split_from skip bol cur1 s with
      | x :: tl => (rev cur2 ++ x) :: tl
      | [] => []
      end.
Proof.
  induction s as [|c s IH]; intros skip bol cur1 cur2.
  - cbn [re_split_from]. by rewrite rev_app_distr.
  - cbn [re_split_from]. destruct skip as [|k]; [|apply IH].
    destruct (if bol then match_header (c :: s) else None) as [[g n]|].
    + by rewrite rev_app_distr.
    + apply (IH O (c =? NL)%N (c :: cur1) cur2).
Qed.

Lemma re_split_from_tail (s : pystr) (skip : nat) (bol : bool) (cur : pystr) :
  tail (re_split_from skip bol cur s) = tail (re_split_from skip bol [] s).
Proof.
  rewrite <- (app_nil_l cur), re_split_from_cur.
  by destruct (re_split_from skip bol [] s).
Qed.

(** Lines before the first header do not count. *)
Lemma header_blocks_preamble (lines : list pystr) (rest : pystr) :
  Forall plain_line lines →
  header_blocks (body_text lines ++ rest) = header_blocks rest.
Proof.
  intros Hl. unfold header_blocks, re_split_headers.
  rewrite re_split_from_body by done. by rewrite re_split_from_tail.
Qed.

Lemma re_split_from_no_newline (l : pystr) :
  ∀ cur, NL ∉ l → re_split_from O false cur l = [rev cur ++ l].
Proof.
  induction l as [|c l IH]; intros cur Hnl.
  - cbn [re_split_from]. by rewrite app_nil_r.
  - apply not_elem_of_cons in Hnl as [Hc Hl].
    cbn [re_split_from].
    destruct (N.eqb_spec c NL) as [->|_]; [done|].
    rewrite IH by done. cbn [rev]. by rewrite <- app_assoc.
Qed.

Lemma re_split_from_last_line (l cur : pystr) :
  plain_line l → re_split_from O true cur l = [rev cur ++ l].
Proof.
  intros [Hnl Hh]. destruct l as [|c l].
  - cbn [re_split_from]. by rewrite app_nil_r.
  - cbn [re_split_from]. rewrite match_header_not by done.
    apply not_elem_of_cons in Hnl as [Hc Hl].
    destruct (N.eqb_spec c NL) as [->|_]; [done|].
    rewrite re_split_from_no_newline by done.
    cbn [rev]. by rewrite <- app_assoc.
Qed.

(** A file none of whose lines starts with "# type" has no block. *)
Lemma header_blocks_none (lines : list pystr) (last : pystr) :
  Forall plain_line lines → plain_line last →
  header_blocks (body_text lines ++ last) = [].
Proof.
  intros Hl Hlast. rewrite header_blocks_preamble by done.
  unfold header_blocks, re_split_headers.
  by rewrite re_split_from_last_line.
Qed.

(** ** White space after "# type" *)

Lemma span_len_blank (ws : pystr) (c : N) (rest : pystr) :
  Forall (λ c, is_space c = true) ws → is_space c = false →
  span_len is_space (ws ++ c :: rest) = length ws.
Proof.
  intros Hws Hc. induction Hws as [|a ws Ha _ IH]; cbn [app span_len length].
  - by rewrite Hc.
  - by rewrite Ha, IH.
Qed.

Lemma match_header_blank (ws names rest : pystr) :
  blank ws → plain_names names →
  match_header (HEADER ++ ws ++ names ++ NL :: rest)
  = Some (names, length (HEADER ++ ws ++ names)).
Proof.
  intros [Hne Hws] [Hnl (c & tl & -> & Hc)].
  unfold match_header.
  rewrite startswith_app, drop_app_length.
  cbn [app]. rewrite span_len_blank by done.
  destruct ws as [|a ws]; [done|]. cbn [length try_ws].
  change (S (length ws)) with (length (a :: ws)).
  rewrite drop_app_length.
  assert (not_newline c = true) as ->.
  { unfold not_newline. destruct (N.eqb_spec c NL) as [E|E]; [|reflexivity].
    rewrite E, is_space_NL in Hc. discriminate Hc. }
  change (c :: tl ++ NL :: rest) with ((c :: tl) ++ NL :: rest).
  rewrite take_while_line by exact Hnl.
  rewrite !length_app. cbn [length]. f_equal; f_equal; lia.
Qed.

Lemma re_split_from_blank_header (ws names rest cur : pystr) :
  blank ws → plain_names names →
  re_split_from O true cur (HEADER ++ ws ++ names ++ NL :: rest)
  = rev cur :: names :: re_split_from O true [NL] rest.
Proof.
  intros Hws Hn. pose proof (match_header_blank ws names rest Hws Hn) as Hm.
  remember (HEADER ++ ws ++ names) as t eqn:Et.
  assert (HEADER ++ ws ++ names ++ NL :: rest = t ++ [NL] ++ rest) as E
    by (subst t; by rewrite <- !app_assoc).
  rewrite E in *. clear E.
  destruct t as [|c t]; [by destruct HEADER|].
  cbn [app re_split_from]. cbn [app] in Hm. rewrite Hm.
  cbn [length pred]. f_equal. f_equal.
  destruct t as [|d t]; [subst; discriminate|].
  rewrite (re_split_from_skip (d :: t) false [] (NL :: rest)) by done.
  reflexivity.
Qed.

Lemma blank_space : blank [32%N].
Proof. split; [done|]. by repeat constructor. Qed.

(** Any white space, line breaks included, may stand between "# type" and
    the names. *)
Lemma header_blocks_blank (ws names rest : pystr) :
  blank ws → plain_names names →
  header_blocks (HEADER ++ ws ++ names ++ NL :: rest)
  = header_blocks (header_line names ++ rest).
Proof.
  intros Hws Hn. unfold header_blocks, re_split_headers, header_line.
  rewrite re_split_from_blank_header by done.
  rewrite <- !app_assoc. cbn [app].
  change (HEADER ++ 32%N :: names ++ NL :: rest)
    with (HEADER ++ [32%N] ++ names ++ NL :: rest).
  by rewrite (re_split_from_blank_header [32%N]) by (done || apply blank_space).
Qed.

End NameFacts.

(* ===================================================================== *)
(** * Runs and their judge                                               *)
(* ===================================================================== *)

Module JudgeFacts.
Import Text Exc Num Json Eff Script Spec.
Import ScriptFacts ParseFacts StatFacts MainFacts VerdictFacts LoopFacts.
Import ReportFacts TraceFacts.

Section Runs.
Variable repr_other : json -> pystr.
Variable judge : list request -> request -> pystr + json.

#[local] Abbreviation request_for := (request_for repr_other).
#[local] Abbreviation evaluate_single_item :=
  (evaluate_single_item repr_other judge).
#[local] Abbreviation process_item := (process_item repr_other judge).
#[local] Abbreviation main_loop := (main_loop repr_other judge).
#[local] Abbreviation main := (main repr_other judge).

(** ** What any run does to the world *)




(** ** A judge that keeps no state *)

Lemma process_item_stateless oracle prompts model item w :
  stateless judge oracle →
  hashable (get item K_TASK_TYPE) →
  ∃ w', process_item prompts model item w
        = (inr (verdict_of repr_other oracle prompts model item), w').
Proof.
  intros Hj Hh. unfold verdict_of.
  destruct (process_item_cases repr_other judge prompts model item w)
    as [[Hn _]|[(_ & Ht & ->)|(t & Ht & ->)]]; [done| |]; rewrite Ht.
  - by eexists.
  - rewrite evaluate_single_item_run. cbn zeta. rewrite Hj.
    destruct (read_answer item _); by eexists.
Qed.

Lemma main_loop_stateless oracle prompts model data :
  stateless judge oracle →
  Forall (λ item, hashable (get item K_TASK_TYPE)) data →
  ∀ acc w, ∃ w',
    main_loop prompts model acc data w
    = (inr (acc ++ map (verdict_of repr_other oracle prompts model) data), w').
Proof.
  intros Hj. induction 1 as [|item rest Hh _ IH]; intros acc w.
  - exists w. by rewrite app_nil_r.
  - rewrite main_loop_cons.
    destruct (process_item_stateless oracle prompts model item w Hj Hh)
      as [w1 ->].
    destruct (IH (acc ++ [verdict_of repr_other oracle prompts model item]) w1)
      as [w' ->].
    exists w'. by rewrite <- app_assoc.
Qed.

(** A loop that returns met hashable task types only. *)
Lemma main_loop_hashable prompts model data :
  ∀ acc w results w',
    main_loop prompts model acc data w = (inr results, w') →
    Forall (λ item, hashable (get item K_TASK_TYPE)) data.
Proof.
  induction data as [|item rest IH]; intros acc w results w'; [constructor|].
  rewrite main_loop_cons.
  destruct (process_item_cases repr_other judge prompts model item w)
    as [[_ [e ->]]|[(Hh & _ & ->)|(t & Ht & ->)]]; [discriminate| |].
  - intros H%IH. by constructor.
  - destruct (evaluate_single_item_returns repr_other judge item t model w)
      as (v & w1 & ->).
    intros H%IH. constructor; [|done].
    destruct (get item K_TASK_TYPE); done.
Qed.

End Runs.

(** ** Scores in another order *)

Lemma valid_scores_of_Permutation (l l' : list dict) :
  l ≡ₚ l' → valid_scores_of l ≡ₚ valid_scores_of l'.
Proof.
  intros H. unfold valid_scores_of.
  apply Permutation_map. by rewrite H.
Qed.

Lemma int_total_Permutation (l l' : list json) :
  l ≡ₚ l' → int_total l = int_total l'.
Proof.
  unfold int_total.
  induction 1 as [|x l l' _ IH|x y l|l l' l'' _ IH1 _ IH2]; cbn [foldr].
  - reflexivity.
  - by rewrite IH.
  - lia.
  - congruence.
Qed.

Lemma avg_score_of_Permutation (l l' : list json) :
  l ≡ₚ l' → Forall int_like l → avg_score_of l = avg_score_of l'.
Proof.
  intros Hp Hi.
  assert (Forall int_like l') as Hi' by (by rewrite <- Hp).
  destruct l as [|x l], l' as [|x' l'].
  - reflexivity.
  - by apply Permutation_nil_cons in Hp.
  - symmetry in Hp. by apply Permutation_nil_cons in Hp.
  - rewrite !avg_score_of_int by done.
    by rewrite (int_total_Permutation _ _ Hp), (Permutation_length Hp).
Qed.

End JudgeFacts.

(* ===================================================================== *)
(** * Items without a template                                           *)
(* ===================================================================== *)

Module DropFacts.
Import Text Exc Num Json Eff Script Spec.
Import ScriptFacts ParseFacts StatFacts MainFacts VerdictFacts LoopFacts.
Import ReportFacts TraceFacts JudgeFacts.

Section Runs.
Variable repr_other : json -> pystr.
Variable judge : list request -> request -> pystr + json.

#[local] Abbreviation request_for := (request_for repr_other).
#[local] Abbreviation evaluate_single_item :=
  (evaluate_single_item repr_other judge).
#[local] Abbreviation process_item := (process_item repr_other judge).
#[local] Abbreviation main_loop := (main_loop repr_other judge).
#[local] Abbreviation main := (main repr_other judge).

(** The verdict of an item depends on the world through the calls made so
    far only. *)
Lemma process_item_calls_only prompts model item w u v w' :
  calls u = calls w →
  process_item prompts model item w = (inr v, w') →
  ∃ u', process_item prompts model item u = (inr v, u')
        ∧ calls u' = calls w'.
Proof.
  intros Hc.
  destruct (process_item_cases repr_other judge prompts model item w)
    as [[_ [e ->]]|[(Hh & Ht & ->)|(t & Ht & ->)]]; [discriminate| |].
  - intros [= <- <-]. rewrite process_item_unresolved by done.
    eexists. split; [reflexivity|exact Hc].
  - rewrite (process_item_resolved _ _ _ _ _ _ u Ht).
    rewrite !evaluate_single_item_run. cbn zeta. rewrite Hc.
    destruct (read_answer item _); intros [= <- <-];
      (eexists; split; [reflexivity|]); cbn; by rewrite Hc.
Qed.

Lemma verdict_for_skipped_iff prompts item v :
  verdict_for prompts item v →
  has_status v SKIPPED ↔ ¬ resolved prompts item.
Proof.
  unfold resolved. intros [Ht|t e Ht|t r Ht]; rewrite Ht.
  - split; [by intros _ [? ?]|]. intros _. apply has_status_skipped.
  - split.
    + intros H.
      by apply (has_status_unique _ _ _ (has_status_error item e)) in H.
    + intros H. exfalso. apply H. by eexists.
  - split.
    + intros H.
      by apply (has_status_unique _ _ _ (has_status_success item r)) in H.
    + intros H. exfalso. apply H. by eexists.
Qed.

(** Without the items that have no template, the loop gives the verdicts
    that are not skipped, and makes the same calls. *)
Lemma main_loop_drop_unresolved prompts model data :
  ∀ acc acc' w u results w',
    calls u = calls w →
    main_loop prompts model acc data w = (inr results, w') →
    ∃ vs u',
      results = acc ++ vs
      ∧ main_loop prompts model acc' (filter (resolved prompts) data) u
        = (inr (acc' ++ filter (λ v, ¬ has_status v SKIPPED) vs), u')
      ∧ calls u' = calls w'.
Proof.
  induction data as [|item rest IH]; intros acc acc' w u results w' Hc.
  - intros [= <- <-]. exists [], u. by rewrite !app_nil_r.
  - rewrite main_loop_cons.
    destruct (process_item prompts model item w) as [[e|v] w1] eqn:E;
      [discriminate|].
    intros Hloop.
    pose proof (process_item_verdict _ _ _ _ _ _ _ _ E) as Hv.
    pose proof (verdict_for_skipped_iff _ _ _ Hv) as Hs.
    rewrite filter_cons.
    destruct (decide (resolved prompts item)) as [Hr|Hr].
    + destruct (process_item_calls_only _ _ _ _ u _ _ Hc E) as (u1 & Eu & Hc1).
      destruct (IH (acc ++ [v]) (acc' ++ [v]) w1 u1 results w' Hc1 Hloop)
        as (vs & u' & -> & Hl & Hc').
      exists (v :: vs), u'. split; [by rewrite <- app_assoc|].
      split; [|done]. rewrite main_loop_cons, Eu, Hl.
      rewrite filter_cons, decide_True by (rewrite Hs; tauto).
      by rewrite <- app_assoc.
    + assert (calls w1 = calls w) as Hc1.
      { apply process_item_world in E as [_ [[? _]|[_ ?]]]; done. }
      destruct (IH (acc ++ [v]) acc' w1 u results w') as (vs & u' & -> & Hl & Hc');
        [congruence|done|].
      exists (v :: vs), u'. split; [by rewrite <- app_assoc|].
      split; [|done]. rewrite Hl.
      by rewrite filter_cons, decide_False by (rewrite Hs; tauto).
Qed.

Lemma valid_scores_of_drop_skipped (vs : list dict) :
  valid_scores_of (filter (λ v, ¬ has_status v SKIPPED) vs)
  = valid_scores_of vs.
Proof.
  induction vs as [|v vs IH]; [reflexivity|].
  rewrite filter_cons.
  destruct (decide (¬ has_status v SKIPPED)) as [H|H].
  - destruct (decide (counted v)) as [C|C].
    + by rewrite !valid_scores_of_included, IH by done.
    + by rewrite !valid_scores_of_excluded, IH by done.
  - rewrite IH, valid_scores_of_excluded; [done|].
    intros [C _]. apply H. intros Hs.
    by apply (has_status_unique _ _ _ C) in Hs.
Qed.

End Runs.
End DropFacts.

(* ===================================================================== *)
(** * Single braces                                                      *)
(* ===================================================================== *)

Module BraceFacts.
Import Text Exc Num Json Eff Script Spec.
Import TextFacts TemplateFacts.

Lemma token_head2 (k : slot) : ∃ rest, token k = LBRACE :: LBRACE :: rest.
Proof. destruct k; eexists; reflexivity. Qed.

Lemma single_braces_tail (a : N) (s : pystr) :
  single_braces (a :: s) = true → single_braces s = true.
Proof.
  cbn [single_braces]. destruct s as [|b s]; [done|].
  by intros [_ H]%andb_true_iff.
Qed.

Lemma startswith_single (a : N) (old s1 s2 : pystr) :
  single_braces (a :: s1) = true →
  startswith (LBRACE :: LBRACE :: old) (a :: s1 ++ s2) = false.
Proof.
  cbn [single_braces startswith].
  destruct (N.eqb_spec LBRACE a) as [<-|Hne]; [|done].
  destruct s1 as [|b s1]; [done|].
  rewrite N.eqb_refl. cbn [andb negb app startswith].
  destruct (N.eqb_spec b LBRACE) as [->|Hb]; [done|intros _].
  destruct (N.eqb_spec LBRACE b) as [E|_]; [by symmetry in E|done].
Qed.

(** A pass leaves such a text as it is, whatever follows. *)
Lemma replace_from_single (old new s1 s2 : pystr) :
  single_braces s1 = true →
  replace_from O (LBRACE :: LBRACE :: old) new (s1 ++ s2)
  = s1 ++ replace_from O (LBRACE :: LBRACE :: old) new s2.
Proof.
  induction s1 as [|a s1 IH]; intros Hs; [reflexivity|].
  change ((a :: s1) ++ s2) with (a :: (s1 ++ s2)).
  cbn [replace_from]. rewrite startswith_single by done.
  cbn [app]. f_equal. apply IH. by eapply single_braces_tail.
Qed.

Lemma single_braces_app (s1 s2 : pystr) :
  single_braces s1 = true → single_braces s2 = true →
  single_braces (s1 ++ s2) = true.
Proof.
  intros H1 H2. induction s1 as [|a s1 IH]; [done|].
  pose proof (single_braces_tail _ _ H1) as Ht. specialize (IH Ht).
  cbn [app]. cbn [single_braces] in H1 |- *.
  destruct s1 as [|b s1].
  - cbn [app] in *. destruct s2 as [|c s2]; [done|].
    apply andb_true_iff. split; [|done].
    apply negb_true_iff in H1. by rewrite H1.
  - cbn [app] in *. apply andb_true_iff in H1 as [H1 _].
    apply andb_true_iff. by split.
Qed.

Lemma contains_single (p s : pystr) :
  single_braces s = true → contains (LBRACE :: LBRACE :: p) s = false.
Proof.
  induction s as [|a s IH]; intros Hs; [reflexivity|].
  cbn [contains]. rewrite <- (app_nil_r s) at 1.
  rewrite startswith_single by done. cbn [orb].
  apply IH. by eapply single_braces_tail.
Qed.

Lemma replace_from_template_single (k : slot) (new : pystr)
    (segs : list segment) :
  Forall literal_single_braces segs →
  replace_from O (token k) new (template_of segs)
  = template_of (map (fill_slot k new) segs).
Proof.
  induction 1 as [|g segs Hg _ IH]; [reflexivity|].
  unfold template_of in *. cbn [map concat].
  destruct g as [s|k']; cbn [segment_text fill_slot].
  - destruct (token_head2 k) as [rest E]. rewrite E in *.
    rewrite replace_from_single by exact Hg. by rewrite IH.
  - destruct (slot_eqb k k') eqn:E.
    + apply slot_eqb_eq in E as <-.
      rewrite replace_from_occurrence by apply token_nonempty.
      cbn [segment_text]. by rewrite IH.
    + rewrite replace_from_other_token by done.
      cbn [segment_text]. by rewrite IH.
Qed.

Lemma fill_slot_single (k : slot) (new : pystr) (segs : list segment) :
  single_braces new = true →
  Forall literal_single_braces segs →
  Forall literal_single_braces (map (fill_slot k new) segs).
Proof.
  intros Hn. induction 1 as [|g segs Hg _ IH]; constructor; [|done].
  destruct g as [s|k']; simpl; [done|]. by destruct (slot_eqb k k').
Qed.

Lemma fill_single (texts : slot → pystr) (segs : list segment) :
  (∀ k, single_braces (texts k) = true) →
  Forall literal_single_braces segs →
  single_braces (fill texts segs) = true.
Proof.
  intros Ht. unfold fill.
  induction 1 as [|g segs Hg _ IH]; cbn [map concat]; [reflexivity|].
  apply single_braces_app; [|exact IH].
  destruct g as [s|k]; [exact Hg|apply Ht].
Qed.

(** A text without any opening brace is such a text. *)
Lemma brace_free_single (s : pystr) : brace_free s → single_braces s = true.
Proof.
  unfold brace_free. induction s as [|a s IH]; intros H; [reflexivity|].
  apply not_elem_of_cons in H as [Ha Hs]. specialize (IH Hs).
  cbn [single_braces].
  destruct (N.eqb_spec a LBRACE) as [->|_]; [done|].
  destruct s; [done|]. by rewrite IH.
Qed.

Section Render.
Variable repr_other : json -> pystr.

Lemma render_single (item : dict) (segs : list segment) :
  Forall literal_single_braces segs →
  (∀ k, single_braces (slot_text repr_other item k) = true) →
  render repr_other item (template_of segs)
  = fill (slot_text repr_other item) segs.
Proof.
  intros Hsegs Htexts. unfold render, replace.
  change (py_str repr_other (get_or item K_QUESTION (JStr [])))
    with (slot_text repr_other item Question).
  change (py_str repr_other (get_or item K_REFERENCE (JStr [])))
    with (slot_text repr_other item Reference).
  change (py_str repr_other (get_or item K_MODEL (JStr [])))
    with (slot_text repr_other item Answer).
  change PH_QUESTION with (token Question).
  change PH_REFERENCE with (token Reference).
  change PH_MODEL with (token Answer).
  rewrite replace_from_template_single by exact Hsegs.
  rewrite replace_from_template_single
    by (apply fill_slot_single; [apply Htexts|exact Hsegs]).
  rewrite replace_from_template_single
    by (apply fill_slot_single;
        [apply Htexts|apply fill_slot_single; [apply Htexts|exact Hsegs]]).
  apply fill_slots_all.
Qed.

End Render.

End BraceFacts.

(* ===================================================================== *)
(** * The summary of a report                                            *)
(* ===================================================================== *)

Module SummaryFacts.
Import Text Exc Num Json Eff Script Spec.
Import ReportFacts.

(** The summary depends on the input and the verdicts through two counts
    and the average only. *)
Lemma report_meta_eq (a : args) (data data' results results' : list dict)
    (avg : json) :
  length data' = length data →
  length (valid_scores_of results') = length (valid_scores_of results) →
  field (report_of a data' results' avg) K_META
  = field (report_of a data results avg) K_META.
Proof.
  intros H1 H2. unfold report_of, output_data_of. rewrite H1, H2. reflexivity.
Qed.

End SummaryFacts.

(* ===================================================================== *)
(** * Inputs without any template                                        *)
(* ===================================================================== *)

Module SkipFacts.
Import Text Exc Num Json Eff Script Spec.
Import ScriptFacts ParseFacts StatFacts MainFacts VerdictFacts LoopFacts.
Import ReportFacts TraceFacts.

Section Runs.
Variable repr_other : json -> pystr.
Variable judge : list request -> request -> pystr + json.

#[local] Abbreviation main_loop := (main_loop repr_other judge).
#[local] Abbreviation main := (main repr_other judge).



End Runs.
End SkipFacts.

(* ===================================================================== *)
(** * Floats between two integers                                        *)
(* ===================================================================== *)

Module DivFacts.
Import Text Exc Num Json Eff Script Spec StatFacts.

(** ** The number of binary digits *)


Lemma digits2_size (p : positive) : digits2_pos p = Pos.size p.
Proof. induction p as [p IH|p IH|]; cbn; congruence. Qed.

Lemma Zdigits2_bounds (m : Z) :
  0 < m → 2 ^ (Zdigits2 m - 1) <= m < 2 ^ Zdigits2 m.
Proof.
  destruct m as [|p|p]; try lia. intros _.
  cbn [Zdigits2]. rewrite digits2_size.
  pose proof (Pos.size_gt p) as Hgt. pose proof (Pos.size_le p) as Hle.
  apply Pos2Z.pos_lt_pos in Hgt. apply Pos2Z.pos_le_pos in Hle.
  rewrite Pos2Z.inj_pow in Hgt, Hle.
  change (Z.pos p~0) with (2 * Z.pos p) in Hle.
  split; [|exact Hgt].
  assert (2 ^ Z.pos (Pos.size p) = 2 * 2 ^ (Z.pos (Pos.size p) - 1)) as E.
  { rewrite <- Z.pow_succ_r by lia. f_equal. lia. }
  lia.
Qed.

Lemma Zdigits2_nonneg (m : Z) : 0 <= Zdigits2 m.
Proof. destruct m; cbn; lia. Qed.


Lemma Zdigits2_gt (m d : Z) : 0 <= d → 2 ^ d <= m → d < Zdigits2 m.
Proof.
  intros Hd Hle.
  assert (0 < m) as Hm by (pose proof (Z.pow_pos_nonneg 2 d); lia).
  destruct (Zdigits2_bounds m Hm) as [_ Hhi].
  destruct (Z.lt_ge_cases d (Zdigits2 m)) as [|Hge]; [done|].
  exfalso.
  assert (2 ^ Zdigits2 m <= 2 ^ d)
    by (apply Z.pow_le_mono_r; [lia|exact Hge]).
  lia.
Qed.

(** ** Shifting a mantissa to the right *)






(** ** The two shifts of [binary_round_aux] *)




(** ** Between two integers *)



(** ** Division *)





(** ** Rounding to decimal places *)




(** ** The average of integer scores *)




End DivFacts.

(* ===================================================================== *)
(** * Further properties of a run                                        *)
(* ===================================================================== *)

Module Further.
Import Text Exc Num Json Eff Script Spec Samples.
Import TextFacts TemplateFacts ScriptFacts ParseFacts StatFacts MainFacts.
Import VerdictFacts LoopFacts ReportFacts RoundFacts FileFacts.
Import TraceFacts NameFacts JudgeFacts DropFacts BraceFacts SummaryFacts.
Import SkipFacts DivFacts.

Section Judge.
Variable repr_other : json -> pystr.
Variable judge : list request -> request -> pystr + json.

#[local] Abbreviation render := (render repr_other).
#[local] Abbreviation request_for := (request_for repr_other).
#[local] Abbreviation request_of := (request_of repr_other).
#[local] Abbreviation loop_line := (loop_line repr_other).
#[local] Abbreviation error_line := (error_line repr_other).
#[local] Abbreviation warning_line := (warning_line repr_other).
#[local] Abbreviation evaluate_single_item :=
  (evaluate_single_item repr_other judge).
#[local] Abbreviation process_item := (process_item repr_other judge).
#[local] Abbreviation main_loop := (main_loop repr_other judge).
#[local] Abbreviation main := (main repr_other judge).

(** X1.  A run that writes its report has called the judge exactly once
    for each item whose task type has a template, and for no other. *)
Theorem one_judge_call_per_resolved_item
    (a : args) (content : pystr) (data : list dict) (w w' : world) :
  main a (Readable content) data w = (inr tt, w') →
  length (calls w')
  = (length (calls w)
     + length (filter (resolved (prompts_of_blocks (header_blocks content)))
                 data))%nat.
Proof.
  intros (results & avg & w1 & Hloop & _ & ->)%main_returns_inv.
  destruct (main_loop_world _ _ _ _ _ _ _ _ _ Hloop) as [_ Hc].
  by rewrite finished_calls, Hc, started_calls.
Qed.

(** X3.  Without its prompt file the script prints the error and stops:
    no judge call, no report. *)
Theorem missing_prompt_file_stops_the_run
    (a : args) (data : list dict) (w : world) :
  ∃ w',
    main a Missing data w = (inr tt, w')
    ∧ calls w' = calls w
    ∧ written w' = written w
    ∧ console w'
      = console w
        ++ [txt "Error loading prompts: Prompt file not found: evaluate prompt.md"].
Proof.
  eexists. split; [apply main_missing|]. repeat split.
Qed.

Lemma main_loop_raises_at
    (prompts : gmap pystr pystr) (model : pystr) (before after : list dict)
    (item : dict) :
  Forall (λ it, hashable (get it K_TASK_TYPE)) before →
  ¬ hashable (get item K_TASK_TYPE) →
  ∀ acc w, ∃ e w',
    main_loop prompts model acc (before ++ item :: after) w
    = (inl (TypeError e), w')
    ∧ written w' = written w.
Proof.
  intros Hb Hi.
  induction Hb as [|it before Hit _ IH]; intros acc w.
  - cbn [app]. rewrite main_loop_cons.
    destruct (process_item_unhashable repr_other judge prompts model
                item w Hi) as [e ->].
    by exists e, w.
  - cbn [app]. rewrite main_loop_cons.
    destruct (process_item prompts model it w) as [[e|v] w1] eqn:E.
    + destruct (process_item_cases repr_other judge prompts model it w)
        as [[Hn _]|[(_ & _ & He)|(t & _ & He)]].
      * done.
      * rewrite He in E. discriminate E.
      * rewrite He in E.
        destruct (evaluate_single_item_returns repr_other judge it t
                    model w) as (v & w2 & Hv).
        rewrite Hv in E. discriminate E.
    + destruct (IH (acc ++ [v]) w1) as (e & w' & -> & Hw).
      exists e, w'. split; [reflexivity|].
      apply process_item_world in E as [Hw1 _]. congruence.
Qed.

(** X5.  A task type that is a list or a dictionary cannot be looked up:
    the loop raises [TypeError] at that item, and [main] with it, before
    any report is written. *)
Theorem unhashable_task_type_raises
    (a : args) (content : pystr) (before after : list dict) (item : dict)
    (w : world) :
  Forall (λ it, hashable (get it K_TASK_TYPE)) before →
  ¬ hashable (get item K_TASK_TYPE) →
  ∃ e w',
    main a (Readable content) (before ++ item :: after) w
    = (inl (TypeError e), w')
    ∧ written w' = written w.
Proof.
  intros Hb Hi. rewrite main_run.
  destruct (main_loop_raises_at (prompts_of_blocks (header_blocks content))
              (judge_model a) before after item Hb Hi []
              (started a content (before ++ item :: after) w))
    as (e & w' & -> & Hw).
  exists e, w'. split; [reflexivity|]. by rewrite Hw, started_written.
Qed.

(** X6.  The judge calls of a run that writes its report are, in the
    order of the input, one request for each item whose task type has a
    template: made with the judge model of the command line and the fixed
    system message, its user message being the item's template
    rendered for the item. *)
Theorem judge_calls_are_rendered_prompts
    (a : args) (content : pystr) (data : list dict) (w w' : world) :
  main a (Readable content) data w = (inr tt, w') →
  calls w'
  = calls w
    ++ omap (request_of (prompts_of_blocks (header_blocks content))
               (judge_model a)) data
  ∧ Forall (λ req, req_model req = judge_model a
                   ∧ req_system req = SYSTEM_MESSAGE)
      (omap (request_of (prompts_of_blocks (header_blocks content))
               (judge_model a)) data)
  ∧ ∀ item template,
      template_for (prompts_of_blocks (header_blocks content))
        (get item K_TASK_TYPE) = Some template →
      request_of (prompts_of_blocks (header_blocks content)) (judge_model a)
        item
      = Some (Request (judge_model a) SYSTEM_MESSAGE (render item template)).
Proof.
  intros (results & avg & w1 & Hloop & _ & ->)%main_returns_inv.
  destruct (main_loop_trace _ _ _ _ _ _ _ _ _ Hloop)
    as (vs & _ & _ & Hc & _ & _).
  split; [by rewrite finished_calls, Hc, started_calls|].
  split; [apply request_of_fixed|].
  intros item template Ht. unfold Spec.request_of. by rewrite Ht.
Qed.

(** X7.  In a run that writes its report every item ends in exactly one
    of the three states: the skipped verdicts are as many as the items
    whose task type has no template, the success and error verdicts
    together as many as the judge calls, and [evaluated_items] is at most
    the number of success verdicts. *)
Theorem statuses_partition_the_input
    (a : args) (content : pystr) (data : list dict) (w w' : world) :
  main a (Readable content) data w = (inr tt, w') →
  ∃ results avg,
    wrote w w' (output_file a) (report_of a data results avg)
    ∧ length data
      = (status_count SUCCESS results + status_count ERROR results
         + status_count SKIPPED results)%nat
    ∧ status_count SKIPPED results
      = length (filter (λ item, ¬ resolved
                                    (prompts_of_blocks (header_blocks content))
                                    item) data)
    ∧ length (calls w')
      = (length (calls w) + status_count SUCCESS results
         + status_count ERROR results)%nat
    ∧ meta_field (report_of a data results avg) K_EVALUATED
      = Some (JInt (Z.of_nat (length (valid_scores_of results))))
    ∧ (length (valid_scores_of results) <= status_count SUCCESS results)%nat
    ∧ (length (valid_scores_of results) <= length data)%nat.
Proof.
  intros (results & avg & w1 & Hloop & _ & ->)%main_returns_inv.
  exists results, avg.
  destruct (main_loop_results _ _ _ _ _ _ _ _ _ Hloop) as (vs & E & Hvs).
  cbn [app] in E. subst vs.
  destruct (status_count_partition _ _ _ Hvs) as (H1 & H2 & H3 & H4).
  destruct (main_loop_world _ _ _ _ _ _ _ _ _ Hloop) as [Hw Hc].
  split; [by unfold wrote; rewrite finished_written, Hw, started_written|].
  split; [exact H1|]. split; [exact H2|].
  split; [rewrite finished_calls, Hc, started_calls; lia|].
  split; [apply report_evaluated|]. split; [exact H4|lia].
Qed.

(** X8.  Every verdict in the details of a report has one of two shapes:
    the verdict of an item whose task type has a template holds exactly
    the keys id, task_type, score, reasoning and status; the verdict of
    any other item exactly the keys id, error and status. *)
Theorem verdict_keys_by_status
    (a : args) (content : pystr) (data : list dict) (w w' : world) :
  main a (Readable content) data w = (inr tt, w') →
  ∃ results report,
    wrote w w' (output_file a) report
    ∧ field report K_DETAILS = Some (JList (JObj <$> results))
    ∧ Forall2
        (λ item v,
           (resolved (prompts_of_blocks (header_blocks content)) item
            ∧ dom v = JUDGED_KEYS)
           ∨ (¬ resolved (prompts_of_blocks (header_blocks content)) item
              ∧ dom v = SKIPPED_KEYS))
        data results.
Proof.
  intros (results & avg & w1 & Hloop & _ & ->)%main_returns_inv.
  exists results, (report_of a data results avg).
  destruct (main_loop_results _ _ _ _ _ _ _ _ _ Hloop) as (vs & E & Hvs).
  cbn [app] in E. subst vs.
  destruct (main_loop_world _ _ _ _ _ _ _ _ _ Hloop) as [Hw _].
  split; [by unfold wrote; rewrite finished_written, Hw, started_written|].
  split; [apply report_details|].
  eapply Forall2_impl; [exact Hvs|].
  intros item v [Ht|t e Ht|t r Ht]; unfold resolved; rewrite Ht.
  - right. split; [by intros [? ?]|apply dom_skipped_verdict].
  - left. split; [by eexists|apply dom_error_verdict].
  - left. split; [by eexists|apply dom_success_verdict].
Qed.


(** X10.  The console of a run that writes its report: the line of the
    loaded templates, the starting line, then in the order of the input
    one warning for each skipped item and one error line for each failed
    judge call (nothing for a success), then the three closing lines. *)
Theorem console_of_a_run
    (a : args) (content : pystr) (data : list dict) (w w' : world) :
  main a (Readable content) data w = (inr tt, w') →
  ∃ results avg,
    wrote w w' (output_file a) (report_of a data results avg)
    ∧ length results = length data
    ∧ console w'
      = console w
        ++ [loaded_line (prompts_of_blocks (header_blocks content)) PROMPT_FILE;
            starting_line a data]
        ++ concat (zip_with loop_line data results)
        ++ [COMPLETE_LINE; summary_line (shown_avg avg); saved_line a].
Proof.
  intros (results & avg & w1 & Hloop & _ & ->)%main_returns_inv.
  exists results, avg.
  destruct (main_loop_trace _ _ _ _ _ _ _ _ _ Hloop)
    as (vs & E & Hlen & _ & Hp & Hw).
  cbn [app] in E. subst vs.
  split; [by unfold wrote; rewrite finished_written, Hw, started_written|].
  split; [exact Hlen|].
  rewrite finished_console, Hp. unfold started, printed. cbn [console].
  by rewrite <- !app_assoc.
Qed.

(** X11.  Whatever the prompt file holds, every name the parser stores is
    stripped, stands on one line and holds no comma of either kind, and
    every template is stripped.  So an item whose task type has white
    space around it, a line break or a comma in it is skipped with every
    prompt file. *)
Theorem parsed_names_are_clean
    (content : pystr) (prompts : gmap pystr pystr) :
  parse_prompt_text content = inr prompts →
  (∀ t body, prompts !! t = Some body → clean_name t ∧ strip body = body)
  ∧ (∀ model item s w,
       get item K_TASK_TYPE = JStr s → ¬ clean_name s →
       process_item prompts model item w
       = (inr (skipped_verdict item), printed w (warning_line item))).
Proof.
  rewrite parse_prompt_text_blocks. intros [= <-].
  assert (∀ t body,
            prompts_of_blocks (header_blocks content) !! t = Some body →
            clean_name t ∧ strip body = body) as Hclean.
  { intros t body. rewrite prompts_of_blocks_lookup.
    intros (names & Hin & Ht)%last_body_Some.
    pose proof (header_blocks_clean content) as Hb.
    apply (proj1 (Forall_forall _ _) Hb) in Hin as [Hn Hbody].
    cbn [fst snd] in Hn, Hbody. split; [|exact Hbody].
    by apply (proj1 (Forall_forall _ _) Hn). }
  split; [exact Hclean|].
  intros model item s w Hs Hn.
  apply process_item_unresolved; rewrite Hs; [done|].
  cbn [template_for].
  destruct (prompts_of_blocks (header_blocks content) !! s) as [body|] eqn:E;
    [|done].
  exfalso. apply Hn. by apply (Hclean s body).
Qed.

(** X12.  The keys of the parsed mapping are exactly the names the
    headers list; the number in the line "Successfully loaded N prompt
    templates" is the number of distinct names, not of templates. *)
Theorem mapping_keys_are_listed_names (content : pystr) :
  ∃ prompts,
    parse_prompt_text content = inr prompts
    ∧ (∀ t, is_Some (prompts !! t) ↔ t ∈ listed_names (header_blocks content))
    ∧ size prompts = length (remove_dups (listed_names (header_blocks content)))
    ∧ ∀ path w,
        parse_prompt_file (Readable content) path w
        = (inr prompts,
           printed w
             ([9989%N] ++ txt " Successfully loaded "
              ++ str_of_Z
                   (Z.of_nat
                      (length (remove_dups
                                 (listed_names (header_blocks content)))))
              ++ txt " prompt templates from " ++ path)).
Proof.
  exists (prompts_of_blocks (header_blocks content)).
  split; [apply parse_prompt_text_blocks|].
  split; [intros t; apply prompts_of_blocks_is_Some|].
  split; [apply size_prompts_of_blocks|].
  intros path w. unfold parse_prompt_file, mbind, M_bind, lift.
  rewrite parse_prompt_text_blocks. unfold print, mret, M_ret, loaded_line.
  by rewrite size_prompts_of_blocks.
Qed.

(** X13.  Lines before the first header (a title, remarks) are ignored,
    as long as none of them starts with "# type": the file parses as it
    does without them. *)
Theorem text_before_first_header_is_ignored
    (lines : list pystr) (rest : pystr) :
  Forall plain_line lines →
  parse_prompt_text (body_text lines ++ rest) = parse_prompt_text rest.
Proof.
  intros Hl. by rewrite !parse_prompt_text_blocks, header_blocks_preamble.
Qed.

(** X14.  A prompt file none of whose lines starts with "# type" is not
    an error: it parses to the empty mapping, the loader reports 0
    templates, and no item has a template. *)
Theorem file_without_headers_loads_nothing
    (lines : list pystr) (last : pystr) :
  Forall plain_line lines → plain_line last →
  parse_prompt_text (body_text lines ++ last) = inr ∅
  ∧ (∀ path w,
       parse_prompt_file (Readable (body_text lines ++ last)) path w
       = (inr ∅,
          printed w
            ([9989%N] ++ txt " Successfully loaded 0 prompt templates from "
             ++ path)))
  ∧ ∀ item, ¬ resolved (prompts_of_blocks
                          (header_blocks (body_text lines ++ last))) item.
Proof.
  intros Hl Hlast.
  assert (parse_prompt_text (body_text lines ++ last) = inr ∅) as Hp
    by (by rewrite parse_prompt_text_blocks, header_blocks_none).
  split; [exact Hp|]. split.
  - intros path w. unfold parse_prompt_file, mbind, M_bind, lift.
    rewrite Hp. reflexivity.
  - intros item. rewrite header_blocks_none by done.
    unfold resolved, template_for, prompts_of_blocks. cbn [foldl].
    destruct (get item K_TASK_TYPE); by intros [? ?].
Qed.


(** X16.  With a judge whose answer depends on the request only, the
    verdict of an item is a function of the item, and the order of the
    input does not matter for the summary: the same items in another
    order give the same verdicts in that order and, when the counted
    scores are integers, the same [meta] block. *)
Theorem stateless_judge_order_independent
    (oracle : request → pystr + json) (a : args) (content : pystr)
    (data data' : list dict) (w w' u : world) :
  stateless judge oracle →
  data ≡ₚ data' →
  main a (Readable content) data w = (inr tt, w') →
  Forall int_like
    (valid_scores_of
       (map (verdict_of repr_other oracle
               (prompts_of_blocks (header_blocks content)) (judge_model a))
          data)) →
  ∃ avg u',
    main a (Readable content) data' u = (inr tt, u')
    ∧ wrote w w' (output_file a)
        (report_of a data
           (map (verdict_of repr_other oracle
                   (prompts_of_blocks (header_blocks content)) (judge_model a))
              data) avg)
    ∧ wrote u u' (output_file a)
        (report_of a data'
           (map (verdict_of repr_other oracle
                   (prompts_of_blocks (header_blocks content)) (judge_model a))
              data') avg)
    ∧ field
        (report_of a data'
           (map (verdict_of repr_other oracle
                   (prompts_of_blocks (header_blocks content)) (judge_model a))
              data') avg) K_META
      = field
          (report_of a data
             (map (verdict_of repr_other oracle
                     (prompts_of_blocks (header_blocks content))
                     (judge_model a))
                data) avg) K_META.
Proof.
  intros Hj Hperm Hmain Hint. pose proof Hmain as Hrun.
  apply main_returns_inv in Hmain as (results & avg & w1 & Hloop & Havg & ->).
  pose proof (main_returns_clean _ _ _ _ _ _ _ _ _ _ Hrun Hloop Havg) as Hclean.
  pose proof (main_loop_hashable _ _ _ _ _ _ _ _ _ Hloop) as Hh.
  destruct (main_loop_stateless repr_other judge oracle
              (prompts_of_blocks (header_blocks content)) (judge_model a)
              data Hj Hh [] (started a content data w)) as [w1' E].
  rewrite Hloop in E. cbn [app] in E. injection E as -> <-.
  assert (Forall (λ item, hashable (get item K_TASK_TYPE)) data') as Hh'
    by (by rewrite <- Hperm).
  destruct (main_loop_stateless repr_other judge oracle
              (prompts_of_blocks (header_blocks content)) (judge_model a)
              data' Hj Hh' [] (started a content data' u)) as [u1 E'].
  cbn [app] in E'.
  set (V := verdict_of repr_other oracle
              (prompts_of_blocks (header_blocks content)) (judge_model a))
    in *.
  assert (valid_scores_of (map V data) ≡ₚ valid_scores_of (map V data'))
    as Hvp by (by apply valid_scores_of_Permutation, Permutation_map).
  assert (avg_score_of (valid_scores_of (map V data')) = inr avg) as Havg'.
  { rewrite <- Havg. symmetry. by apply avg_score_of_Permutation. }
  exists avg, (finished a data' (map V data') avg u1).
  split.
  { rewrite main_run, E', Havg'. apply saving_returns.
    pose proof (rounded_avg_clean _ _ Havg) as Hr.
    apply (report_of_clean a data' _ avg Hr).
    apply (report_of_clean a data _ avg Hr) in Hclean as [Hm Hres].
    split; [exact Hm|]. rewrite <- Hperm. exact Hres. }
  destruct (main_loop_world _ _ _ _ _ _ _ _ _ Hloop) as [Hw _].
  destruct (main_loop_world _ _ _ _ _ _ _ _ _ E') as [Hu _].
  split; [by unfold wrote; rewrite finished_written, Hw, started_written|].
  split; [by unfold wrote; rewrite finished_written, Hu, started_written|].
  apply report_meta_eq.
  - symmetry. by apply Permutation_length.
  - symmetry. by apply Permutation_length.
Qed.

(** X17.  The items whose task type has no template do not influence the
    others: without them in the input, the run makes the same judge calls
    and reports the verdicts that are not skipped, with the same
    [evaluated_items] and [average_score]. *)
Theorem unresolved_items_change_nothing_else
    (a : args) (content : pystr) (data : list dict) (w w' : world) :
  main a (Readable content) data w = (inr tt, w') →
  ∃ results avg u',
    wrote w w' (output_file a) (report_of a data results avg)
    ∧ main a (Readable content)
        (filter (resolved (prompts_of_blocks (header_blocks content))) data) w
      = (inr tt, u')
    ∧ wrote w u' (output_file a)
        (report_of a
           (filter (resolved (prompts_of_blocks (header_blocks content))) data)
           (filter (λ v, ¬ has_status v SKIPPED) results) avg)
    ∧ calls u' = calls w'
    ∧ valid_scores_of (filter (λ v, ¬ has_status v SKIPPED) results)
      = valid_scores_of results.
Proof.
  intros Hrun. pose proof Hrun as Hmain.
  apply main_returns_inv in Hmain as (results & avg & w1 & Hloop & Havg & ->).
  pose proof (main_returns_clean _ _ _ _ _ _ _ _ _ _ Hrun Hloop Havg) as Hclean.
  pose (data' :=
          filter (resolved (prompts_of_blocks (header_blocks content))) data).
  destruct (main_loop_drop_unresolved repr_other judge _ _ _ [] []
              (started a content data w) (started a content data' w)
              results w1 eq_refl Hloop) as (vs & u1 & E & Hl & Hc).
  cbn [app] in E, Hl. subst vs. unfold data' in *. clear data'.
  exists results, avg,
    (finished a
       (filter (resolved (prompts_of_blocks (header_blocks content))) data)
       (filter (λ v, ¬ has_status v SKIPPED) results) avg u1).
  destruct (main_loop_world _ _ _ _ _ _ _ _ _ Hloop) as [Hw _].
  destruct (main_loop_world _ _ _ _ _ _ _ _ _ Hl) as [Hu _].
  split; [by unfold wrote; rewrite finished_written, Hw, started_written|].
  split.
  { rewrite main_run, Hl.
    rewrite (valid_scores_of_drop_skipped results), Havg.
    apply saving_returns.
    pose proof (rounded_avg_clean _ _ Havg) as Hr.
    apply (report_of_clean a _ _ avg Hr).
    apply (report_of_clean a data _ avg Hr) in Hclean as [Hm Hres].
    split; [exact Hm|]. apply Forall_forall.
    intros v [_ Hv]%list_elem_of_filter.
    by apply (proj1 (Forall_forall _ _) Hres). }
  split; [by unfold wrote; rewrite finished_written, Hu, started_written|].
  split; [by rewrite !finished_calls|].
  apply valid_scores_of_drop_skipped.
Qed.

(** X18.  The stored average tells "nothing evaluated" from "average
    zero": [average_score] is the integer 0 exactly when
    [evaluated_items] is 0, and a float in every other report. *)
Theorem average_is_integer_zero_iff_nothing_counted
    (a : args) (content : pystr) (data : list dict) (w w' : world) :
  main a (Readable content) data w = (inr tt, w') →
  ∃ results avg,
    wrote w w' (output_file a) (report_of a data results avg)
    ∧ meta_field (report_of a data results avg) K_EVALUATED
      = Some (JInt (Z.of_nat (length (valid_scores_of results))))
    ∧ meta_field (report_of a data results avg) K_AVERAGE
      = Some (rounded_avg avg)
    ∧ (length (valid_scores_of results) = 0%nat ↔ rounded_avg avg = JInt 0)
    ∧ (length (valid_scores_of results) ≠ 0%nat →
       ∃ f, rounded_avg avg = JFloat f)
    ∧ (length (valid_scores_of results) ≠ 0%nat →
       Forall (λ v, as_int v = Some 0) (valid_scores_of results) →
       rounded_avg avg = JFloat (S754_zero false)).
Proof.
  intros (results & avg & w1 & Hloop & Havg & ->)%main_returns_inv.
  exists results, avg.
  destruct (main_loop_world _ _ _ _ _ _ _ _ _ Hloop) as [Hw _].
  split; [by unfold wrote; rewrite finished_written, Hw, started_written|].
  split; [apply report_evaluated|]. split; [apply report_average|].
  split; [|split].
  - destruct (avg_score_of_kind _ _ Havg) as [[-> ->]|[Hne [f ->]]].
    + done.
    + split; [|discriminate]. intros H. by apply length_zero_iff_nil in H.
  - destruct (avg_score_of_kind _ _ Havg) as [[-> ->]|[Hne [f ->]]].
    + intros H. by exfalso.
    + intros _. by eexists.
  - intros Hne Hz.
    destruct (valid_scores_of results) as [|x l] eqn:E; [done|].
    rewrite avg_score_of_int in Havg
      by (eapply Forall_impl; [exact Hz|]; intros v Hv; unfold int_like;
          rewrite Hv; by eexists).
    assert (int_total (x :: l) = 0) as Ht.
    { clear -Hz. induction Hz as [|v vs Hv _ IH]; [reflexivity|].
      unfold int_total in *. cbn [foldr]. rewrite Hv, IH. reflexivity. }
    rewrite Ht in Havg. unfold int_truediv in Havg.
    destruct (Z.eqb_spec (Z.of_nat (length (x :: l))) 0) as [H0|_];
      [cbn [length] in H0; lia|].
    rewrite Z.abs_0 in Havg.
    destruct (Z.leb_spec (OVERFLOW_BOUND * Z.abs (Z.of_nat (length (x :: l)))) 0)
      as [Hle|_].
    { pose proof OVERFLOW_BOUND_pos. cbn [length] in Hle. nia. }
    cbn in Havg. injection Havg as <-.
    unfold Zsign_bit.
    destruct (Z.ltb_spec (Z.of_nat (length (x :: l))) 0) as [Hneg|_]; [lia|].
    reflexivity.
Qed.

(** X19.  Braces in a template or in an item's text do no harm as long
    as they are single: when no literal part of the template and none of
    the three texts holds two opening braces in a row or ends with an
    opening brace, the prompt is the template with every slot filled by
    its text, and holds no placeholder token. *)
Theorem render_with_single_braces (item : dict) (segs : list segment) :
  Forall literal_single_braces segs →
  (∀ k, single_braces (slot_text repr_other item k) = true) →
  render item (template_of segs) = fill (slot_text repr_other item) segs
  ∧ (∀ k, contains (token k) (render item (template_of segs)) = false)
  ∧ (∀ k, uses k segs →
          contains (slot_text repr_other item k)
            (render item (template_of segs)) = true).
Proof.
  intros Hsegs Htexts.
  pose proof (render_single repr_other item segs Hsegs Htexts) as Hfill.
  split; [exact Hfill|]. rewrite Hfill. split.
  - intros k. destruct (token_head2 k) as [rest ->].
    apply contains_single. by apply fill_single.
  - intros k Hk. by apply fill_contains.
Qed.

(** X20.  [evaluate_single_item] never raises and calls the judge exactly
    once.  Its verdict is a success exactly when the parsed reply is a
    JSON object, whatever the object holds; any other reply, valid JSON
    or not, gives an error verdict with the score 0: for a reply that is
    a list, a number, a string or null the reasoning is Python's
    "'list' object has no attribute 'get'" and the like. *)
Theorem reply_object_decides_status
    (item : dict) (template model : pystr) (w : world) :
  ∃ v w',
    evaluate_single_item item template model w = (inr v, w')
    ∧ calls w' = calls w ++ [Request model SYSTEM_MESSAGE (render item template)]
    ∧ written w' = written w
    ∧ (has_status v SUCCESS
       ↔ ∃ r, judge (calls w) (request_for item template model) = inr (JObj r))
    ∧ (¬ has_status v SUCCESS →
       has_status v ERROR ∧ get v K_SCORE = JInt 0)
    ∧ (∀ x, judge (calls w) (request_for item template model) = inr x →
            ¬ is_object x →
            v = error_verdict item
                  (txt "'" ++ type_name x
                   ++ txt "' object has no attribute 'get'")).
Proof.
  rewrite evaluate_single_item_run. cbn zeta. unfold read_answer.
  destruct (judge (calls w) (request_for item template model))
    as [e|x] eqn:J.
  - eexists _, _. split; [reflexivity|]. split; [reflexivity|].
    split; [reflexivity|]. split; [|split].
    + split; [|by intros [r ?]].
      intros H.
      by apply (has_status_unique _ _ _ (has_status_error item e)) in H.
    + intros _. split; [apply has_status_error|reflexivity].
    + intros x [=].
  - destruct x as [|b|z|f|s|l|r].
    7:{ eexists _, _. split; [reflexivity|]. split; [reflexivity|].
        split; [reflexivity|]. split; [|split].
        - split; [by eexists|]. intros _. apply has_status_success.
        - intros H. exfalso. apply H, has_status_success.
        - intros x [= <-] H. exfalso. by apply H. }
    all: eexists _, _; (split; [reflexivity|]); (split; [reflexivity|]);
         (split; [reflexivity|]); (split; [|split]).
    all: try (split; [|by intros [r [=]]]; intros H;
              by apply (has_status_unique _ _ _ (has_status_error item _))
                in H).
    all: try (intros _; split; [apply has_status_error|reflexivity]).
    all: by intros x [= <-] _.
Qed.

(** X21.  Between "# type" and the names any run of white space will do,
    line breaks included: a "# type" line with nothing after it takes the
    next line that is not blank as its names. *)
Theorem any_blank_after_type
    (ws names rest : pystr) :
  blank ws → plain_names names →
  parse_prompt_text (HEADER ++ ws ++ names ++ NL :: rest)
  = parse_prompt_text (header_line names ++ rest).
Proof.
  intros Hws Hn. by rewrite !parse_prompt_text_blocks, header_blocks_blank.
Qed.

(** X4.  Counted integer scores whose sum is beyond the range of [float]
    times their number make [sum(valid_scores) / len(valid_scores)] raise
    [OverflowError]: the run ends after the judge calls, and writes no
    report. *)
Theorem huge_scores_lose_the_report
    (a : args) (content : pystr) (data results : list dict) (w w1 : world) :
  main_loop (prompts_of_blocks (header_blocks content)) (judge_model a) []
    data (started a content data w) = (inr results, w1) →
  Forall int_like (valid_scores_of results) →
  valid_scores_of results ≠ [] →
  OVERFLOW_BOUND * Z.of_nat (length (valid_scores_of results))
  <= Z.abs (int_total (valid_scores_of results)) →
  main a (Readable content) data w
  = (inl (OverflowError
            (txt "integer division result too large for a float")), w1)
  ∧ written w1 = written w.
Proof.
  intros Hloop Hint Hne Hbig.
  destruct (main_loop_world _ _ _ _ _ _ _ _ _ Hloop) as [Hw _].
  split; [|by rewrite Hw, started_written].
  rewrite main_run, Hloop.
  destruct (valid_scores_of results) as [|x l] eqn:E; [done|].
  rewrite avg_score_of_int by done. unfold int_truediv.
  destruct (Z.eqb_spec (Z.of_nat (length (x :: l))) 0) as [H0|_];
    [cbn [length] in H0; lia|].
  rewrite Z.abs_eq by lia.
  destruct (Z.leb_spec (OVERFLOW_BOUND * Z.of_nat (length (x :: l)))
              (Z.abs (int_total (x :: l)))) as [_|Hlt]; [reflexivity|lia].
Qed.


End Judge.

(** X1 at the scenario run: two items, one judge call. *)
Lemma one_judge_call_witness :
  scenario_run.1 = inr tt
  ∧ length (calls scenario_run.2)
    = (length (calls initial_world)
       + length (filter
                   (resolved (prompts_of_blocks (header_blocks prompt_text)))
                   [item_A; item_Z]))%nat
  ∧ length (calls scenario_run.2) = 1%nat.
Proof.
  split; [vm_compute; reflexivity|]. split; [|vm_compute; reflexivity].
  apply (one_judge_call_per_resolved_item repr_plain judge_ok run_args
           prompt_text [item_A; item_Z] initial_world scenario_run.2).
  vm_compute. reflexivity.
Defined.

(** X5 at an item whose task type is a list. *)
Lemma unhashable_task_type_witness :
  ∃ e w',
    Script.main repr_plain judge_ok run_args (Readable prompt_text)
      ([item_A] ++ item_list :: [item_Z]) initial_world
    = (inl (TypeError e), w')
    ∧ written w' = written initial_world.
Proof.
  apply (unhashable_task_type_raises repr_plain judge_ok run_args prompt_text
           [item_A] [item_Z] item_list initial_world).
  - repeat constructor.
  - vm_compute. tauto.
Defined.

(** X2.  A prompt file written block by block (a header line "# type "
    plus names, then template lines that are no headers) is parsed into
    those blocks: the names cut at the commas and stripped, the template
    stripped; and the parser raises nothing. *)
Theorem prompt_file_parses_to_its_blocks
    (blocks : list (pystr * list pystr)) :
  plain_blocks blocks →
  header_blocks (prompt_file_of blocks)
  = map (λ b, (map strip (split_commas (strip b.1)),
               strip (NL :: body_text b.2))) blocks
  ∧ parse_prompt_text (prompt_file_of blocks)
    = inr (prompts_of_blocks
             (map (λ b, (map strip (split_commas (strip b.1)),
                         strip (NL :: body_text b.2))) blocks)).
Proof.
  intros Hb. split; [by apply header_blocks_of_file|].
  by rewrite parse_prompt_text_blocks, header_blocks_of_file.
Qed.

Lemma prompt_file_parses_witness :
  header_blocks (prompt_file_of blocks_AB)
  = map (λ b, (map strip (split_commas (strip b.1)),
               strip (NL :: body_text b.2))) blocks_AB
  ∧ parse_prompt_text (prompt_file_of blocks_AB)
    = inr (prompts_of_blocks
             (map (λ b, (map strip (split_commas (strip b.1)),
                         strip (NL :: body_text b.2))) blocks_AB)).
Proof.
  apply (prompt_file_parses_to_its_blocks blocks_AB).
  repeat constructor; try (apply (bool_decide_unpack _); vm_compute; exact I).
  all: try (eexists _, _; split; reflexivity).
Defined.

(** X6 at the scenario run: one call, with the template of "A" rendered
    for [item_A]. *)
Lemma judge_calls_witness :
  scenario_run.1 = inr tt
  ∧ calls scenario_run.2
    = calls initial_world
      ++ omap (request_of repr_plain
                 (prompts_of_blocks (header_blocks prompt_text))
                 (judge_model run_args)) [item_A; item_Z]
  ∧ calls scenario_run.2
    = [Request (txt "gpt-4o") SYSTEM_MESSAGE
         (txt "Rate What? against Right: Guess")].
Proof.
  split; [vm_compute; reflexivity|]. split; [|vm_compute; reflexivity].
  destruct (judge_calls_are_rendered_prompts repr_plain judge_ok run_args
              prompt_text [item_A; item_Z] initial_world scenario_run.2)
    as [H _]; [vm_compute; reflexivity|exact H].
Defined.

(** X7 at the scenario run: one success, one skipped item. *)
Lemma statuses_partition_witness :
  scenario_run.1 = inr tt
  ∧ ∃ results avg,
      wrote initial_world scenario_run.2 (output_file run_args)
        (report_of run_args [item_A; item_Z] results avg)
      ∧ length [item_A; item_Z]
        = (status_count SUCCESS results + status_count ERROR results
           + status_count SKIPPED results)%nat
      ∧ status_count SKIPPED results
        = length (filter (λ item, ¬ resolved
                                      (prompts_of_blocks
                                         (header_blocks prompt_text)) item)
                    [item_A; item_Z])
      ∧ length (calls scenario_run.2)
        = (length (calls initial_world) + status_count SUCCESS results
           + status_count ERROR results)%nat
      ∧ meta_field (report_of run_args [item_A; item_Z] results avg)
          K_EVALUATED
        = Some (JInt (Z.of_nat (length (valid_scores_of results))))
      ∧ (length (valid_scores_of results) <= status_count SUCCESS results)%nat
      ∧ (length (valid_scores_of results) <= length [item_A; item_Z])%nat.
Proof.
  split; [vm_compute; reflexivity|].
  apply (statuses_partition_the_input repr_plain judge_ok run_args
           prompt_text [item_A; item_Z] initial_world scenario_run.2).
  vm_compute. reflexivity.
Defined.

(** X8 at the scenario run. *)
Lemma verdict_keys_witness :
  scenario_run.1 = inr tt
  ∧ ∃ results report,
      wrote initial_world scenario_run.2 (output_file run_args) report
      ∧ field report K_DETAILS = Some (JList (JObj <$> results))
      ∧ Forall2
          (λ item v,
             (resolved (prompts_of_blocks (header_blocks prompt_text)) item
              ∧ dom v = JUDGED_KEYS)
             ∨ (¬ resolved (prompts_of_blocks (header_blocks prompt_text))
                    item
                ∧ dom v = SKIPPED_KEYS))
          [item_A; item_Z] results.
Proof.
  split; [vm_compute; reflexivity|].
  apply (verdict_keys_by_status repr_plain judge_ok run_args prompt_text
           [item_A; item_Z] initial_world scenario_run.2).
  vm_compute. reflexivity.
Defined.


(** X10 at the scenario run: six lines, the third the warning for
    [item_Z]. *)
Lemma console_witness :
  scenario_run.1 = inr tt
  ∧ (∃ results avg,
       wrote initial_world scenario_run.2 (output_file run_args)
         (report_of run_args [item_A; item_Z] results avg)
       ∧ length results = length [item_A; item_Z]
       ∧ console scenario_run.2
         = console initial_world
           ++ [loaded_line (prompts_of_blocks (header_blocks prompt_text))
                 PROMPT_FILE;
               starting_line run_args [item_A; item_Z]]
           ++ concat (zip_with (loop_line repr_plain) [item_A; item_Z] results)
           ++ [COMPLETE_LINE; summary_line (shown_avg avg);
               saved_line run_args])
  ∧ console scenario_run.2
    = [loaded_line prompts_A PROMPT_FILE;
       starting_line run_args [item_A; item_Z];
       warning_line repr_plain item_Z;
       COMPLETE_LINE; summary_line (txt "4.00"); saved_line run_args].
Proof.
  split; [vm_compute; reflexivity|]. split; [|vm_compute; reflexivity].
  apply (console_of_a_run repr_plain judge_ok run_args prompt_text
           [item_A; item_Z] initial_world scenario_run.2).
  vm_compute. reflexivity.
Defined.

(** X11 at the sample prompt file: the task type "A " (with a space) is
    skipped. *)
Lemma parsed_names_witness :
  (∀ t body,
     prompts_of_blocks (header_blocks prompt_text) !! t = Some body →
     clean_name t ∧ strip body = body)
  ∧ (∀ model item s w,
       get item K_TASK_TYPE = JStr s → ¬ clean_name s →
       process_item repr_plain judge_ok
         (prompts_of_blocks (header_blocks prompt_text)) model item w
       = (inr (skipped_verdict item),
          printed w (warning_line repr_plain item)))
  ∧ process_item repr_plain judge_ok
      (prompts_of_blocks (header_blocks prompt_text)) DEFAULT_JUDGE_MODEL
      item_spaced initial_world
    = (inr (skipped_verdict item_spaced),
       printed initial_world (warning_line repr_plain item_spaced)).
Proof.
  destruct (parsed_names_are_clean repr_plain judge_ok prompt_text
              (prompts_of_blocks (header_blocks prompt_text)))
    as [Hnames Hskip]; [vm_compute; reflexivity|].
  split; [exact Hnames|]. split; [exact Hskip|].
  apply (Hskip DEFAULT_JUDGE_MODEL item_spaced (txt "A ") initial_world);
    [reflexivity|].
  intros [H _]. vm_compute in H. discriminate H.
Defined.

(** X13 at a title and an empty line before the sample prompt file. *)
Lemma text_before_first_header_witness :
  parse_prompt_text (body_text title_lines ++ prompt_text)
  = parse_prompt_text prompt_text.
Proof.
  apply (text_before_first_header_is_ignored title_lines prompt_text).
  repeat constructor; apply (bool_decide_unpack _); vm_compute; exact I.
Defined.

(** X14 at a file whose only heading has one "#" too many. *)
Lemma file_without_headers_witness :
  parse_prompt_text (body_text title_lines ++ txt "## type A") = inr ∅
  ∧ (∀ path w,
       parse_prompt_file
         (Readable (body_text title_lines ++ txt "## type A")) path w
       = (inr ∅,
          printed w
            ([9989%N] ++ txt " Successfully loaded 0 prompt templates from "
             ++ path)))
  ∧ ∀ item,
      ¬ resolved
          (prompts_of_blocks
             (header_blocks (body_text title_lines ++ txt "## type A")))
          item.
Proof.
  apply (file_without_headers_loads_nothing title_lines (txt "## type A")).
  - repeat constructor; apply (bool_decide_unpack _); vm_compute; exact I.
  - split; [apply (bool_decide_unpack _); vm_compute; exact I|reflexivity].
Defined.


(** X16 at the two items of the scenario, in either order. *)
Lemma stateless_judge_witness :
  ∃ avg u',
    Script.main repr_plain judge_ok run_args (Readable prompt_text)
      [item_Z; item_A] initial_world = (inr tt, u')
    ∧ wrote initial_world scenario_run.2 (output_file run_args)
        (report_of run_args [item_A; item_Z]
           (map (verdict_of repr_plain oracle_ok
                   (prompts_of_blocks (header_blocks prompt_text))
                   (judge_model run_args)) [item_A; item_Z]) avg)
    ∧ wrote initial_world u' (output_file run_args)
        (report_of run_args [item_Z; item_A]
           (map (verdict_of repr_plain oracle_ok
                   (prompts_of_blocks (header_blocks prompt_text))
                   (judge_model run_args)) [item_Z; item_A]) avg)
    ∧ field
        (report_of run_args [item_Z; item_A]
           (map (verdict_of repr_plain oracle_ok
                   (prompts_of_blocks (header_blocks prompt_text))
                   (judge_model run_args)) [item_Z; item_A]) avg) K_META
      = field
          (report_of run_args [item_A; item_Z]
             (map (verdict_of repr_plain oracle_ok
                     (prompts_of_blocks (header_blocks prompt_text))
                     (judge_model run_args)) [item_A; item_Z]) avg) K_META.
Proof.
  apply (stateless_judge_order_independent repr_plain judge_ok oracle_ok
           run_args prompt_text [item_A; item_Z] [item_Z; item_A]
           initial_world scenario_run.2 initial_world).
  - intros history req. reflexivity.
  - apply perm_swap.
  - vm_compute. reflexivity.
  - vm_compute. repeat econstructor.
Defined.

(** X17 at the scenario run: without [item_Z] the call and the average are
    the same. *)
Lemma unresolved_items_witness :
  scenario_run.1 = inr tt
  ∧ ∃ results avg u',
      wrote initial_world scenario_run.2 (output_file run_args)
        (report_of run_args [item_A; item_Z] results avg)
      ∧ Script.main repr_plain judge_ok run_args (Readable prompt_text)
          (filter (resolved (prompts_of_blocks (header_blocks prompt_text)))
             [item_A; item_Z]) initial_world
        = (inr tt, u')
      ∧ wrote initial_world u' (output_file run_args)
          (report_of run_args
             (filter (resolved (prompts_of_blocks (header_blocks prompt_text)))
                [item_A; item_Z])
             (filter (λ v, ¬ has_status v SKIPPED) results) avg)
      ∧ calls u' = calls scenario_run.2
      ∧ valid_scores_of (filter (λ v, ¬ has_status v SKIPPED) results)
        = valid_scores_of results.
Proof.
  split; [vm_compute; reflexivity|].
  apply (unresolved_items_change_nothing_else repr_plain judge_ok run_args
           prompt_text [item_A; item_Z] initial_world scenario_run.2).
  vm_compute. reflexivity.
Defined.

(** X18 at the scenario run (a float) and at a run with nothing to count
    (the integer 0). *)
Lemma average_is_integer_zero_witness :
  scenario_run.1 = inr tt
  ∧ ∃ results avg,
      wrote initial_world scenario_run.2 (output_file run_args)
        (report_of run_args [item_A; item_Z] results avg)
      ∧ meta_field (report_of run_args [item_A; item_Z] results avg)
          K_EVALUATED
        = Some (JInt (Z.of_nat (length (valid_scores_of results))))
      ∧ meta_field (report_of run_args [item_A; item_Z] results avg) K_AVERAGE
        = Some (rounded_avg avg)
      ∧ (length (valid_scores_of results) = 0%nat ↔ rounded_avg avg = JInt 0)
      ∧ (length (valid_scores_of results) ≠ 0%nat →
         ∃ f, rounded_avg avg = JFloat f)
      ∧ (length (valid_scores_of results) ≠ 0%nat →
         Forall (λ v, as_int v = Some 0) (valid_scores_of results) →
         rounded_avg avg = JFloat (S754_zero false)).
Proof.
  split; [vm_compute; reflexivity|].
  apply (average_is_integer_zero_iff_nothing_counted repr_plain judge_ok
           run_args prompt_text [item_A; item_Z] initial_world
           scenario_run.2).
  vm_compute. reflexivity.
Defined.

(** X19 at a template that shows the JSON to answer with, and a question
    with braces of its own. *)
Lemma render_with_single_braces_witness :
  render repr_plain item_braces (template_of segments_json)
  = txt "Answer as {score: n}. Question: What is {x} in f{x}? Answer: Guess"
  ∧ (∀ k, contains (token k)
            (render repr_plain item_braces (template_of segments_json))
          = false)
  ∧ (∀ k, uses k segments_json →
          contains (slot_text repr_plain item_braces k)
            (render repr_plain item_braces (template_of segments_json))
          = true).
Proof.
  destruct (render_with_single_braces repr_plain item_braces segments_json)
    as (Hfill & Hnone & Hall).
  - repeat constructor.
  - intros []; reflexivity.
  - split; [rewrite Hfill; vm_compute; reflexivity|]. split; assumption.
Defined.

(** X21 at a header whose names stand on the next line. *)
Lemma any_blank_after_type_witness :
  names_below_text
  = HEADER ++ [NL] ++ txt "A, B" ++ NL :: txt "Shared template
"
  ∧ parse_prompt_text names_below_text
    = parse_prompt_text (header_line (txt "A, B") ++ txt "Shared template
")
  ∧ header_blocks names_below_text
    = [([txt "A"; txt "B"], txt "Shared template")].
Proof.
  split; [reflexivity|]. split; [|vm_compute; reflexivity].
  apply (any_blank_after_type [NL] (txt "A, B") (txt "Shared template
")).
  - split; [done|]. by repeat constructor.
  - split; [apply (bool_decide_unpack _); vm_compute; exact I|].
    eexists _, _. split; reflexivity.
Defined.

(** X4 at the run whose only score is 10^400. *)
Lemma huge_scores_witness :
  huge_run
  = (inl (OverflowError
            (txt "integer division result too large for a float")),
     huge_loop.2)
  ∧ written huge_loop.2 = written initial_world.
Proof.
  apply (huge_scores_lose_the_report repr_plain judge_huge run_args
           prompt_text [item_A]
           [success_verdict item_A
              {[ K_SCORE := JInt (10 ^ 400);
                 K_REASONING := JStr (txt "ok") ]}]
           initial_world huge_loop.2).
  - vm_compute. reflexivity.
  - vm_compute. repeat econstructor.
  - vm_compute. discriminate.
  - apply Z.leb_le. vm_compute. reflexivity.
Defined.


(** The predicate at the floats 4/3, 1.3333 and 4.0. *)
Example float_between_examples :
  float_between 1 2 float_4_3 ∧ float_between 1 2 float_1_3333
  ∧ float_between 4 4 float_4 ∧ ¬ float_between 2 5 float_4_3.
Proof. vm_compute. repeat split; try discriminate. all: intros [H _]; by apply H. Qed.

End Further.
